(** * BPSR-PSO-SX: packet pipeline and user-statistics store

    A shallow embedding of the frame assembler of
    [src/services/PacketProcessor.js], of the per-user record of
    [src/models/UserData.js] and of the [UserDataManager] store, followed by
    the properties of the protocol specification that concern them.

    Conventions.  JavaScript numbers that hold integers (uids, skill ids,
    damage values, counters, time stamps in milliseconds) are [Z]; byte
    buffers are [list byte]; a [Map] keyed by numbers or strings is a [gmap];
    a value that may be [undefined]/[null] is an [option].  A JavaScript
    string is held as the bytes of its UTF-8 encoding.  A call of
    [Date.now()] is the argument [now] of the operation that makes it. *)

From Stdlib Require Import ZArith List Lia.
From Stdlib Require Import Init.Byte.
From stdpp Require Import base option list gmap strings pretty fin_maps.

Local Open Scope Z_scope.

(* ===================================================================== *)
(** * Bytes and the binary cursor *)
(* ===================================================================== *)

Definition byteZ (b : byte) : Z := Z.of_N (Byte.to_N b).

(** Little- and big-endian readings of four bytes, and of two. *)
Definition le32 (b0 b1 b2 b3 : byte) : Z :=
  Z.lor (byteZ b0)
    (Z.lor (Z.shiftl (byteZ b1) 8)
       (Z.lor (Z.shiftl (byteZ b2) 16) (Z.shiftl (byteZ b3) 24))).

Definition be32 (b0 b1 b2 b3 : byte) : Z := le32 b3 b2 b1 b0.

Definition be16 (b0 b1 : byte) : Z := Z.lor (Z.shiftl (byteZ b0) 8) (byteZ b1).

(** Two's-complement reading of an unsigned 32-bit value. *)
Definition toInt32 (u : Z) : Z := if u <? 2 ^ 31 then u else u - 2 ^ 32.

(** Node's [Buffer.prototype.readUInt32LE(offset)]: a range error when fewer
    than four bytes are left at [offset]. *)
Definition Buffer_readUInt32LE (buf : list byte) (offset : nat) : option Z :=
  match drop offset buf with
  | b0 :: b1 :: b2 :: b3 :: _ => Some (le32 b0 b1 b2 b3)
  | _ => None
  end.

Definition Buffer_readUInt32BE (buf : list byte) (offset : nat) : option Z :=
  match drop offset buf with
  | b0 :: b1 :: b2 :: b3 :: _ => Some (be32 b0 b1 b2 b3)
  | _ => None
  end.

Definition Buffer_readUInt16BE (buf : list byte) (offset : nat) : option Z :=
  match drop offset buf with
  | b0 :: b1 :: _ => Some (be16 b0 b1)
  | _ => None
  end.

(** An unsigned 64-bit big-endian word, as a [BigInt]. *)
Definition Buffer_readBigUInt64BE (buf : list byte) (offset : nat) : option Z :=
  match drop offset buf with
  | b0 :: b1 :: b2 :: b3 :: b4 :: b5 :: b6 :: b7 :: _ =>
      Some (Z.lor (Z.shiftl (be32 b0 b1 b2 b3) 32) (be32 b4 b5 b6 b7))
  | _ => None
  end.

(** Modelled from the spec: [models/BinaryReader.js] is not among the
    sources.  The spec describes it as "a bounds-checked sequential reader
    over a byte buffer with a movable position"; the methods are the ones
    [PacketProcessor.js] calls, each reading at [position] and advancing it,
    and a read past the end raising an error ([None]). *)
Module BinaryReader.

Record t := mk { buffer : list byte; position : nat }.

(** A computation on a cursor: the result and the moved cursor, or an
    error. *)
Definition M (A : Type) : Type := t → option (A * t).

Definition ret {A} (x : A) : M A := λ r, Some (x, r).

Definition bind {A B} (m : M A) (k : A → M B) : M B :=
  λ r, match m r with
       | Some (x, r') => k x r'
       | None => None
       end.

Definition remaining (r : t) : nat := (length (buffer r) - position r)%nat.

Definition getPosition : M nat := λ r, Some (position r, r).

Definition setPosition (p : nat) : M unit := λ r, Some (tt, mk (buffer r) p).

Definition advance (n : nat) (r : t) : t := mk (buffer r) (position r + n).

Definition readUInt32LE : M Z :=
  λ r, x ← Buffer_readUInt32LE (buffer r) (position r); Some (x, advance 4 r).

Definition readUInt32 : M Z :=
  λ r, x ← Buffer_readUInt32BE (buffer r) (position r); Some (x, advance 4 r).

Definition readInt32 : M Z :=
  λ r, x ← Buffer_readUInt32BE (buffer r) (position r);
       Some (toInt32 x, advance 4 r).

Definition readUInt16 : M Z :=
  λ r, x ← Buffer_readUInt16BE (buffer r) (position r); Some (x, advance 2 r).

Definition readUInt64 : M Z :=
  λ r, x ← Buffer_readBigUInt64BE (buffer r) (position r);
       Some (x, advance 8 r).

Definition peekUInt32 : M Z :=
  λ r, x ← Buffer_readUInt32BE (buffer r) (position r); Some (x, r).

Definition readBytes (n : nat) : M (list byte) :=
  λ r, if (remaining r <? n)%nat then None
       else Some (take n (drop (position r) (buffer r)), advance n r).

Definition readRemaining : M (list byte) :=
  λ r, Some (drop (position r) (buffer r), mk (buffer r) (length (buffer r))).

End BinaryReader.

Declare Scope reader_scope.
Delimit Scope reader_scope with reader.
Notation "'read' x ':=' m 'in' k" := (BinaryReader.bind m (λ x, k))
  (at level 10, x name, m at level 100, k at level 200) : reader_scope.
Notation "'skip' m 'in' k" := (BinaryReader.bind m (λ _, k))
  (at level 10, m at level 100, k at level 200) : reader_scope.

(** [doesStreamHaveIdentifier] of PacketProcessor.js: the stream identifier
    is the little-endian word [0xfffffffe]; the cursor is put back where it
    was before the function returns. *)
Definition STREAM_IDENTIFIER : Z := 0xfffffffe.

Definition doesStreamHaveIdentifier : BinaryReader.M bool :=
  λ reader,
    let start := BinaryReader.position reader in
    if (BinaryReader.remaining reader <? 8)%nat then Some (false, reader)
    else
      (read id := BinaryReader.readUInt32LE in
       skip BinaryReader.readInt32 in
       if negb (id =? STREAM_IDENTIFIER) then
         skip BinaryReader.setPosition start in BinaryReader.ret false
       else
         skip BinaryReader.readInt32 in
         skip BinaryReader.readInt32 in
         skip BinaryReader.setPosition start in
         BinaryReader.ret true)%reader reader.

(* ===================================================================== *)
(** * The frame assembler: [processDataChunk] and [#parseBuffer] *)
(* ===================================================================== *)

Definition MIN : Z := 6.
Definition MAX : Z := 1024 * 1024.

Module MessageType.
Definition None_ : Z := 0.
Definition Call : Z := 1.
Definition Notify : Z := 2.
Definition Return : Z := 3.
Definition Echo : Z := 4.
Definition FrameUp : Z := 5.
Definition FrameDown : Z := 6.
End MessageType.

(** The assembler's private buffer, and the frames handed so far to the
    message dispatcher [#processSinglePacket], oldest first. *)
Record Assembler := mkAssembler {
  internalBuffer : list byte;
  dispatched : list (list byte);
}.

Definition setBuffer (buf : list byte) (a : Assembler) : Assembler :=
  mkAssembler buf (dispatched a).

(** How a call ends: it returns, it throws, or the model ran out of fuel. *)
Inductive Outcome :=
| Returned (a : Assembler)
| Thrown (a : Assembler)
| OutOfFuel.

(** One turn of the [while] loop of [#parseBuffer], taken with at least four
    bytes buffered. *)
Inductive Turn :=
| Continue (a : Assembler)            (* bad header: [continue] *)
| Break (a : Assembler)               (* [break] *)
| Raise (a : Assembler)               (* an exception leaves the loop *)
| Deliver (a : Assembler) (packetData : list byte).

Definition hasHeader (buf : list byte) : option bool :=
  fst <$> doesStreamHaveIdentifier (BinaryReader.mk buf 0).

Definition parseBuffer_turn (a : Assembler) : Turn :=
  let buf := internalBuffer a in
  match hasHeader buf with
  | None => Raise a
  | Some false => Continue (setBuffer (drop 4 buf) a)
  | Some true =>
      match Buffer_readUInt32LE buf 0 with
      | None => Raise a
      | Some packetSize =>
          if (packetSize <? MIN) || (packetSize >? MAX) then
            Break (setBuffer [] a)
          else if Z.of_nat (length buf) <? packetSize then Break a
          else
            Deliver (setBuffer (drop (Z.to_nat packetSize) buf) a)
                    (take (Z.to_nat packetSize) buf)
      end
  end.

Section FrameAssembler.

(** [zlib.zstdDecompressSync], when the runtime has it; [None] as a result
    is the exception it throws on bad input. *)
Variable zstdDecompressSync : option (list byte → option (list byte)).

Definition maybeDecompress (buffer : list byte) : list byte :=
  match buffer with
  | [] => buffer
  | _ =>
      match zstdDecompressSync with
      | Some f => match f buffer with Some out => out | None => buffer end
      | None => buffer
      end
  end.

(** [#processSinglePacket]: the frame is now with the dispatcher.  Only a
    [FrameDown] frame touches the assembler again, by feeding its nested
    stream back through [processDataChunk]; [Notify] and [Return] act on
    the store, not on the assembler.  The [try]/[catch] swallows every
    exception. *)
Definition processSinglePacket
    (processDataChunk : Assembler → list byte → Outcome)
    (a : Assembler) (packetBuffer : list byte) : Outcome :=
  let a := mkAssembler (internalBuffer a) (dispatched a ++ [packetBuffer]) in
  let parsed :=
    (skip BinaryReader.readUInt32 in
     read type := BinaryReader.readUInt16 in
     let isZstd := negb (Z.land type 0x8000 =? 0) in
     let msgTypeId := Z.land type 0x7fff in
     if msgTypeId =? MessageType.FrameDown then
       skip BinaryReader.readUInt32 in
       (λ r, if (BinaryReader.remaining r =? 0)%nat
             then Some (None, r)
             else (read nested := BinaryReader.readRemaining in
                   BinaryReader.ret
                     (Some (if isZstd then maybeDecompress nested
                            else nested)))%reader r)
     else BinaryReader.ret None)%reader (BinaryReader.mk packetBuffer 0) in
  match parsed with
  | Some (Some nested, _) =>
      match processDataChunk a nested with
      | Thrown a' => Returned a'
      | o => o
      end
  | _ => Returned a
  end.

Fixpoint parseBuffer_fuel (fuel : nat) (a : Assembler) : Outcome :=
  match fuel with
  | O => OutOfFuel
  | S fuel' =>
      if (length (internalBuffer a) <? 4)%nat then Returned a
      else
        match parseBuffer_turn a with
        | Continue a' => parseBuffer_fuel fuel' a'
        | Break a' => Returned a'
        | Raise a' => Thrown a'
        | Deliver a' packetData =>
            let processDataChunk (s : Assembler) (chunk : list byte) :=
              match chunk with
              | [] => Returned s
              | _ => parseBuffer_fuel fuel'
                       (setBuffer (internalBuffer s ++ chunk) s)
              end in
            match processSinglePacket processDataChunk a' packetData with
            | Returned a'' => parseBuffer_fuel fuel' a''
            | o => o
            end
        end
  end.

(** Every turn that does not leave the loop shortens the buffer by four
    bytes at least, so its length bounds the number of turns. *)
Definition parseBuffer (a : Assembler) : Outcome :=
  parseBuffer_fuel (S (length (internalBuffer a))) a.

Definition processDataChunk (a : Assembler) (chunk : list byte) : Outcome :=
  match chunk with
  | [] => Returned a
  | _ => parseBuffer (setBuffer (internalBuffer a ++ chunk) a)
  end.

End FrameAssembler.

(** Feeding a stream chunk after chunk, as the capture source does. *)
Definition feedChunks (zstd : option (list byte → option (list byte)))
    (a : Assembler) (chunks : list (list byte)) : Outcome :=
  foldl (λ o chunk, match o with
                    | Returned s => processDataChunk zstd s chunk
                    | _ => o
                    end) (Returned a) chunks.

(* ===================================================================== *)
(** * The sibling entry point: [processPacket] *)
(* ===================================================================== *)

(** What the type word of a frame asks for. *)
Inductive Route :=
| ToHandler                       (* [Notify], [Return] *)
| Nested (stream : option (list byte))   (* [FrameDown] *)
| Ignored.

(** [NotifyMethod], and the service id a notification must carry. *)
Module NotifyMethod.
Definition SyncNearEntities : Z := 0x00000006.
Definition SyncContainerData : Z := 0x00000015.
Definition SyncContainerDirtyData : Z := 0x00000016.
Definition SyncServerTime : Z := 0x0000002b.
Definition SyncNearDeltaInfo : Z := 0x0000002d.
Definition SyncToMeDeltaInfo : Z := 0x0000002e.
End NotifyMethod.

Definition SERVICE_UUID_NOTIFY : Z := 0x0000000063335342.

(** The methods [#processNotifyMsg] has a handler for. *)
Definition handledMethod (methodId : Z) : bool :=
  (methodId =? NotifyMethod.SyncNearEntities) ||
  (methodId =? NotifyMethod.SyncContainerData) ||
  (methodId =? NotifyMethod.SyncContainerDirtyData) ||
  (methodId =? NotifyMethod.SyncToMeDeltaInfo) ||
  (methodId =? NotifyMethod.SyncNearDeltaInfo).

Section ProcessPacket.

Variable zstdDecompressSync : option (list byte → option (list byte)).

(** Whether the handler of a notify method throws on a payload.  The five
    handlers decode the payload with the protobuf schema, which is not
    among the sources, and act on the store, which is not the assembler's
    concern. *)
Variable methodThrows : Z → list byte → bool.

(** [#processNotifyMsg(reader, isZstd)] on the cursor left after the type
    word: the service id, the stub id and the method id are read first; a
    notification of another service, one with an empty payload and one of
    a method without a handler are passed over.  The result is the method
    handler called and its payload, if any; [None] is an exception of the
    cursor. *)
Definition processNotifyMsg (isZstd : bool)
    : BinaryReader.M (option (Z * list byte)) :=
  (read serviceUuid := BinaryReader.readUInt64 in
   skip BinaryReader.readUInt32 in
   read methodId := BinaryReader.readUInt32 in
   if negb (serviceUuid =? SERVICE_UUID_NOTIFY) then BinaryReader.ret None
   else
     read payload := BinaryReader.readRemaining in
     let payload := if isZstd then maybeDecompress zstdDecompressSync payload
                    else payload in
     match payload with
     | [] => BinaryReader.ret None
     | _ :: _ =>
         BinaryReader.ret
           (if handledMethod methodId then Some (methodId, payload)
            else None)
     end)%reader.

(** Whether [#processNotifyMsg] or [#processReturnMsg] throws on a frame:
    a notification throws when the cursor runs off its end, or when the
    handler of its method does; [#processReturnMsg] only logs. *)
Definition handlerThrows (frame : list byte) : bool :=
  match (skip BinaryReader.readUInt32 in
         read packetType := BinaryReader.readUInt16 in
         let isZstd := negb (Z.land packetType 0x8000 =? 0) in
         let msgTypeId := Z.land packetType 0x7fff in
         if msgTypeId =? MessageType.Notify then
           read call := processNotifyMsg isZstd in
           BinaryReader.ret
             match call with
             | Some (methodId, payload) => methodThrows methodId payload
             | None => false
             end
         else BinaryReader.ret false)%reader (BinaryReader.mk frame 0) with
  | Some (throws, _) => throws
  | None => true
  end.

(** Reading the head of a frame: the length word is passed over, the type
    word gives the route.  [None] is an exception of the cursor. *)
Definition routeOf (frame : list byte) : option Route :=
  fst <$>
  (skip BinaryReader.readUInt32 in
   read packetType := BinaryReader.readUInt16 in
   let isZstd := negb (Z.land packetType 0x8000 =? 0) in
   let msgTypeId := Z.land packetType 0x7fff in
   if (msgTypeId =? MessageType.Notify) || (msgTypeId =? MessageType.Return)
   then BinaryReader.ret ToHandler
   else if msgTypeId =? MessageType.FrameDown then
     skip BinaryReader.readUInt32 in
     (λ r, if (BinaryReader.remaining r =? 0)%nat
           then Some (Nested None, r)
           else (read nested := BinaryReader.readRemaining in
                 BinaryReader.ret
                   (Nested (Some (if isZstd
                                  then maybeDecompress zstdDecompressSync
                                         nested
                                  else nested))))%reader r)
   else BinaryReader.ret Ignored)%reader (BinaryReader.mk frame 0).

(** The [while] loop of [processPacket] on the cursor [reader], with the
    frames dispatched so far.  The [try] around the loop turns every
    exception into a plain return; [None] is the model running out of
    fuel. *)
Fixpoint processPacket_loop (fuel : nat) (log : list (list byte))
    (reader : BinaryReader.t) : option (list (list byte)) :=
  match fuel with
  | O => None
  | S fuel' =>
      if (BinaryReader.remaining reader <? Z.to_nat MIN)%nat then Some log
      else
        match BinaryReader.peekUInt32 reader with
        | None => Some log
        | Some (packetSize, _) =>
            if (packetSize <? MIN) || (packetSize >? MAX) then Some log
            else if Z.of_nat (BinaryReader.remaining reader) <? packetSize
            then Some log
            else
              match BinaryReader.readBytes (Z.to_nat packetSize) reader with
              | None => Some log
              | Some (frame, reader') =>
                  let log := log ++ [frame] in
                  match routeOf frame with
                  | None => Some log
                  | Some ToHandler =>
                      if handlerThrows frame then Some log
                      else processPacket_loop fuel' log reader'
                  | Some (Nested None) | Some Ignored =>
                      processPacket_loop fuel' log reader'
                  | Some (Nested (Some nested)) =>
                      match processPacket_loop fuel' log
                              (BinaryReader.mk nested 0) with
                      | Some log' => processPacket_loop fuel' log' reader'
                      | None => None
                      end
                  end
              end
        end
  end.

Definition processPacket (log : list (list byte)) (packets : list byte)
    : option (list (list byte)) :=
  processPacket_loop (S (length packets)) log (BinaryReader.mk packets 0).

End ProcessPacket.

(* ===================================================================== *)
(** * Statistics aggregate *)
(* ===================================================================== *)

(** [STAT_TYPES] of UserData.js. *)
Inductive StatType := DAMAGE | HEALING.

Global Instance StatType_eq_dec : EqDecision StatType.
Proof. solve_decision. Defined.

(** [EDamageProperty] of PacketProcessor.js; [getDamageElement] turns the
    wire value into the element tag, [General] when it is unknown. *)
Inductive DamageElement :=
| General | Fire | Water | Electricity | Wood | Wind | Rock | Light | Dark
| Count.

Definition getDamageElement (p : option Z) : DamageElement :=
  match p with
  | Some 0 => General
  | Some 1 => Fire
  | Some 2 => Water
  | Some 3 => Electricity
  | Some 4 => Wood
  | Some 5 => Wind
  | Some 6 => Rock
  | Some 7 => Light
  | Some 8 => Dark
  | Some 9 => Count
  | _ => General
  end.

(** Modelled from the spec: [models/StatisticData.js] is not among the
    sources.  The spec (Statistics Aggregator): "counts of {normal, critical,
    lucky, critical-and-lucky, total} hits and matching cumulative value
    totals, plus a transient realtime window"; [addRecord] "increments total
    count and the matching flag-bucket count (critical, lucky, both); adds
    value to the matching cumulative total and to the overall total; appends
    a timestamped entry to the realtime window".  The field names are the
    ones UserData.js reads.  The derived rates are floating-point quotients
    and are left out. *)
Module StatisticData.

Record Buckets := mkBuckets {
  normal : Z;
  critical : Z;
  lucky : Z;
  crit_lucky : Z;
  total : Z;
}.

Definition zero : Buckets := mkBuckets 0 0 0 0 0.

(** Add [v] to the bucket chosen by the two flags, and to the total. *)
Definition bump (isCrit isLucky : bool) (v : Z) (b : Buckets) : Buckets :=
  match isCrit, isLucky with
  | false, false =>
      mkBuckets (normal b + v) (critical b) (lucky b) (crit_lucky b)
        (total b + v)
  | true, false =>
      mkBuckets (normal b) (critical b + v) (lucky b) (crit_lucky b)
        (total b + v)
  | false, true =>
      mkBuckets (normal b) (critical b) (lucky b + v) (crit_lucky b)
        (total b + v)
  | true, true =>
      mkBuckets (normal b) (critical b) (lucky b) (crit_lucky b + v)
        (total b + v)
  end.

Record t := mk {
  type : StatType;
  element : option DamageElement;
  stats : Buckets;                  (* cumulative values *)
  count : Buckets;                  (* numbers of hits *)
  realtimeWindow : list (Z * Z);    (* (time, value), oldest first *)
}.

Definition new (ty : StatType) (el : option DamageElement) : t :=
  mk ty el zero zero [].

Definition addRecord (now value : Z) (isCrit isLucky : bool)
    (hpLessenValue : Z) (s : t) : t :=
  mk (type s) (element s)
     (bump isCrit isLucky value (stats s))
     (bump isCrit isLucky 1 (count s))
     (realtimeWindow s ++ [(now, value)]).

(** [stat.realtimeWindow.length = 0] *)
Definition clearWindow (s : t) : t :=
  mk (type s) (element s) (stats s) (count s) [].

Definition reset (s : t) : t := mk (type s) (element s) zero zero [].

End StatisticData.

(* ===================================================================== *)
(** * The user record: models/UserData.js *)
(* ===================================================================== *)

Definition HEAL_OFFSET : Z := 1000000000.

Definition getSubProfessionBySkillId (skillId : Z) : string :=
  match skillId with
  | 1241 => "frostbeam"
  | 2307 | 2361 | 55302 => "concerto"
  | 20301 => "lifebind"
  | 1518 | 1541 | 21402 => "smite"
  | 2306 => "dissonance"
  | 120901 | 120902 => "icicle"
  | 1714 | 1734 => "iaido"
  | 44701 | 179906 => "moonstrike"
  | 220112 | 2203622 => "falconry"
  | 2292 | 1700820 | 1700825 | 1700827 => "wildpack"
  | 1419 => "vanguard"
  | 1405 | 1418 => "skyward"
  | 2405 => "shield"
  | 2406 => "recovery"
  | 199902 => "earthfort"
  | 1930 | 1931 | 1934 | 1935 => "block"
  | _ => ""
  end.

(** JavaScript truthiness of a string: it is not empty. *)
Definition truthy (s : string) : bool := negb (String.eqb s "").

Module UserData.

Record t := mk {
  uid : Z;
  name : string;
  damageStats : StatisticData.t;
  healingStats : StatisticData.t;
  takenDamage : Z;
  deadCount : Z;
  profession : string;
  skillUsage : gmap Z StatisticData.t;
  fightPoint : Z;
  subProfession : string;
  subProfessionUsage : gmap string Z;
  attr : gmap string Z;
  lastUpdateTime : Z;
}.

(** [new UserData(uid)] *)
Definition new (now uid : Z) : t :=
  mk uid ""
     (StatisticData.new DAMAGE None) (StatisticData.new HEALING None)
     0 0 "..." ∅ 0 "" ∅ ∅ now.

Definition _touch (now : Z) (u : t) : t :=
  mk (uid u) (name u) (damageStats u) (healingStats u) (takenDamage u)
     (deadCount u) (profession u) (skillUsage u) (fightPoint u)
     (subProfession u) (subProfessionUsage u) (attr u) now.

Definition setSubProfession (now : Z) (sub : string) (u : t) : t :=
  mk (uid u) (name u) (damageStats u) (healingStats u) (takenDamage u)
     (deadCount u) (profession u) (skillUsage u) (fightPoint u)
     sub (subProfessionUsage u) (attr u) now.

Definition withSubProfessionUsage (m : gmap string Z) (u : t) : t :=
  mk (uid u) (name u) (damageStats u) (healingStats u) (takenDamage u)
     (deadCount u) (profession u) (skillUsage u) (fightPoint u)
     (subProfession u) m (attr u) (lastUpdateTime u).

Definition withDamageStats (s : StatisticData.t) (u : t) : t :=
  mk (uid u) (name u) s (healingStats u) (takenDamage u)
     (deadCount u) (profession u) (skillUsage u) (fightPoint u)
     (subProfession u) (subProfessionUsage u) (attr u) (lastUpdateTime u).

Definition withHealingStats (s : StatisticData.t) (u : t) : t :=
  mk (uid u) (name u) (damageStats u) s (takenDamage u)
     (deadCount u) (profession u) (skillUsage u) (fightPoint u)
     (subProfession u) (subProfessionUsage u) (attr u) (lastUpdateTime u).

Definition withSkillUsage (m : gmap Z StatisticData.t) (u : t) : t :=
  mk (uid u) (name u) (damageStats u) (healingStats u) (takenDamage u)
     (deadCount u) (profession u) m (fightPoint u)
     (subProfession u) (subProfessionUsage u) (attr u) (lastUpdateTime u).

(** [this.subProfessionUsage.get(sub) || 0] *)
Definition usageCount (u : t) (sub : string) : Z :=
  default 0 (subProfessionUsage u !! sub).

Definition updateSubProfession (now skillId : Z) (u : t) : t :=
  let sub := getSubProfessionBySkillId skillId in
  if negb (truthy sub) then u
  else if String.eqb (profession u) "..." || negb (truthy (profession u))
  then u
  else
    let currentCount := usageCount u sub in
    let u := withSubProfessionUsage
               (<[sub := currentCount + 1]> (subProfessionUsage u)) u in
    if negb (truthy (subProfession u)) then setSubProfession now sub u
    else if String.eqb (subProfession u) sub then u
    else
      let currentSubCount := usageCount u (subProfession u) in
      let newSubCount := usageCount u sub in
      if newSubCount >=? currentSubCount * 2
      then setSubProfession now sub u
      else u.

(** The per-skill entry is created on first use, fed the record, and its
    realtime window is emptied. *)
Definition recordSkill (now key : Z) (ty : StatType) (el : DamageElement)
    (value : Z) (isCrit isCauseLucky : bool) (hpLessenValue : Z)
    (m : gmap Z StatisticData.t) : gmap Z StatisticData.t :=
  let entry := default (StatisticData.new ty (Some el)) (m !! key) in
  <[key := StatisticData.clearWindow
             (StatisticData.addRecord now value isCrit isCauseLucky
                hpLessenValue entry)]> m.

Definition addDamage (now skillId : Z) (element : DamageElement)
    (damage : Z) (isCrit isLucky isCauseLucky : bool) (hpLessenValue : Z)
    (u : t) : t :=
  let u := _touch now u in
  let u := withDamageStats
             (StatisticData.addRecord now damage isCrit isLucky
                hpLessenValue (damageStats u)) u in
  let u := withSkillUsage
             (recordSkill now skillId DAMAGE element damage isCrit
                isCauseLucky hpLessenValue (skillUsage u)) u in
  updateSubProfession now skillId u.

Definition addHealing (now skillId : Z) (element : DamageElement)
    (healing : Z) (isCrit isLucky isCauseLucky : bool) (u : t) : t :=
  let u := _touch now u in
  let u := withHealingStats
             (StatisticData.addRecord now healing isCrit isLucky 0
                (healingStats u)) u in
  let healSkillId := skillId + HEAL_OFFSET in
  let u := withSkillUsage
             (recordSkill now healSkillId HEALING element healing isCrit
                isCauseLucky 0 (skillUsage u)) u in
  updateSubProfession now skillId u.

Definition addTakenDamage (now damage : Z) (isDead : bool) (u : t) : t :=
  mk (uid u) (name u) (damageStats u) (healingStats u)
     (takenDamage u + damage)
     (if isDead then deadCount u + 1 else deadCount u)
     (profession u) (skillUsage u) (fightPoint u)
     (subProfession u) (subProfessionUsage u) (attr u) now.

Definition setProfession (now : Z) (p : string) (u : t) : t :=
  let u := _touch now u in
  let u := if negb (String.eqb p (profession u))
           then withSubProfessionUsage ∅ (setSubProfession now "" u)
           else u in
  mk (uid u) (name u) (damageStats u) (healingStats u) (takenDamage u)
     (deadCount u) p (skillUsage u) (fightPoint u)
     (subProfession u) (subProfessionUsage u) (attr u) (lastUpdateTime u).

Definition setName (now : Z) (n : string) (u : t) : t :=
  mk (uid u) n (damageStats u) (healingStats u) (takenDamage u)
     (deadCount u) (profession u) (skillUsage u) (fightPoint u)
     (subProfession u) (subProfessionUsage u) (attr u) now.

Definition setFightPoint (now fp : Z) (u : t) : t :=
  mk (uid u) (name u) (damageStats u) (healingStats u) (takenDamage u)
     (deadCount u) (profession u) (skillUsage u) fp
     (subProfession u) (subProfessionUsage u) (attr u) now.

(** [user.attr[key] = value], without touching the time stamp. *)
Definition putAttr (key : string) (value : Z) (u : t) : t :=
  mk (uid u) (name u) (damageStats u) (healingStats u) (takenDamage u)
     (deadCount u) (profession u) (skillUsage u) (fightPoint u)
     (subProfession u) (subProfessionUsage u) (<[key := value]> (attr u))
     (lastUpdateTime u).

Definition setAttrKV (now : Z) (key : string) (value : Z) (u : t) : t :=
  putAttr key value (_touch now u).

(** ["profession subProfession"], as the summaries print it. *)
Definition professionLabel (u : t) : string :=
  if truthy (subProfession u)
  then profession u +:+ " " +:+ subProfession u
  else profession u.

(** [getTotalCount]; the source has no crit-and-lucky entry here. *)
Record TotalCount := mkTotalCount {
  tc_normal : Z; tc_critical : Z; tc_lucky : Z; tc_total : Z;
}.

Definition getTotalCount (u : t) : TotalCount :=
  let d := StatisticData.count (damageStats u) in
  let h := StatisticData.count (healingStats u) in
  mkTotalCount
    (StatisticData.normal d + StatisticData.normal h)
    (StatisticData.critical d + StatisticData.critical h)
    (StatisticData.lucky d + StatisticData.lucky h)
    (StatisticData.total d + StatisticData.total h).

(** [getSummary], without its realtime and per-second rates. *)
Record Summary := mkSummary {
  total_damage : StatisticData.Buckets;
  total_count : TotalCount;
  total_healing : StatisticData.Buckets;
  taken_damage : Z;
  sum_profession : string;
  sum_subProfession : string;
  sum_name : string;
  sum_fightPoint : Z;
  sum_hp : option Z;
  sum_max_hp : option Z;
  dead_count : Z;
}.

Definition getSummary (u : t) : Summary :=
  mkSummary
    (StatisticData.stats (damageStats u))
    (getTotalCount u)
    (StatisticData.stats (healingStats u))
    (takenDamage u)
    (professionLabel u)
    (subProfession u)
    (name u)
    (fightPoint u)
    (attr u !! "hp")
    (attr u !! "max_hp")
    (deadCount u).

(** The display name of a skill: its entry in the name table, or else the
    raw id itself. *)
Inductive DisplayName := Named (s : string) | RawId (id : Z).

(** One entry of [getSkillSummary], without the two rates. *)
Record SkillSummary := mkSkillSummary {
  displayName : DisplayName;
  sk_type : StatType;
  elementType : option DamageElement;
  totalDamage : Z;
  totalHealing : Z;
  totalCount : Z;
  critCount : Z;
  luckyCount : Z;
  damageBreakdown : StatisticData.Buckets;
  healingBreakdown : StatisticData.Buckets;
  countBreakdown : StatisticData.Buckets;
}.

(** [skillId % HEAL_OFFSET]: JavaScript's remainder takes the sign of the
    dividend, as [Z.rem] does. *)
Definition baseSkillId (skillId : Z) : Z := Z.rem skillId HEAL_OFFSET.

Section SkillSummary.

(** [tables/skill_names.json], which is not among the sources. *)
Variable skillConfig : Z → option string.

Definition skillEntry (skillId : Z) (stat : StatisticData.t)
    : SkillSummary :=
  let base := baseSkillId skillId in
  let nm := match skillConfig base with
            | Some s => Named s
            | None => RawId base
            end in
  let isHealing := bool_decide (StatisticData.type stat = HEALING) in
  let tot := StatisticData.total (StatisticData.stats stat) in
  mkSkillSummary nm (StatisticData.type stat) (StatisticData.element stat)
    (if isHealing then 0 else tot)
    (if isHealing then tot else 0)
    (StatisticData.total (StatisticData.count stat))
    (StatisticData.critical (StatisticData.count stat))
    (StatisticData.lucky (StatisticData.count stat))
    (StatisticData.stats stat)
    (StatisticData.stats stat)
    (StatisticData.count stat).

(** [skills[skillId] = {...}] for every entry of [skillUsage]: the result
    keeps the stored keys. *)
Definition getSkillSummary (u : t) : gmap Z SkillSummary :=
  map_imap (λ skillId stat, Some (skillEntry skillId stat)) (skillUsage u).

End SkillSummary.

End UserData.

(** A skill event, as the store feeds it to a user record: the arguments of
    [UserData.addDamage] or of [UserData.addHealing]. *)
Inductive SkillEvent :=
| DamageEvent (skillId : Z) (element : DamageElement) (damage : Z)
    (isCrit isLucky isCauseLucky : bool) (hpLessenValue : Z)
| HealingEvent (skillId : Z) (element : DamageElement) (healing : Z)
    (isCrit isLucky isCauseLucky : bool).

Definition eventSkillId (ev : SkillEvent) : Z :=
  match ev with
  | DamageEvent skillId _ _ _ _ _ _ => skillId
  | HealingEvent skillId _ _ _ _ _ => skillId
  end.

Definition feedEvent (now : Z) (ev : SkillEvent) (u : UserData.t)
    : UserData.t :=
  match ev with
  | DamageEvent skillId element damage isCrit isLucky isCauseLucky hpLessen =>
      UserData.addDamage now skillId element damage isCrit isLucky
        isCauseLucky hpLessen u
  | HealingEvent skillId element healing isCrit isLucky isCauseLucky =>
      UserData.addHealing now skillId element healing isCrit isLucky
        isCauseLucky u
  end.

(* ===================================================================== *)
(** * The store: class [UserDataManager] *)
(* ===================================================================== *)

(** Modelled from the spec: [config.js] is not among the sources.  The spec
    names "a pausable flag (IS_PAUSED) that short-circuits all stat mutation,
    and operator settings (e.g., only record a specific dummy target)
    consulted per-event"; these are the two the store reads,
    [config.IS_PAUSED] and [config.GLOBAL_SETTINGS.onlyRecordEliteDummy]. *)
Record Config := mkConfig {
  IS_PAUSED : bool;
  onlyRecordEliteDummy : bool;
}.

(** One entry of [users.json], the persisted cache; every field may be
    missing. *)
Record CacheEntry := mkCacheEntry {
  c_name : option string;
  c_profession : option string;
  c_subProfession : option string;
  c_fightPoint : option Z;
  c_maxHp : option Z;
}.

Definition emptyCacheEntry : CacheEntry :=
  mkCacheEntry None None None None None.

Record EnemyCache := mkEnemyCache {
  enemy_name : gmap Z string;
  enemy_hp : gmap Z Z;
  enemy_maxHp : gmap Z Z;
}.

(** [this.currentSession] *)
Record Session := mkSession {
  s_id : string;
  s_name : string;
  s_startedAt : Z;
  s_reasonStart : string;
  s_seq : option Z;
  s_instanceId : option Z;
  s_fromInstance : option Z;
}.

(** What [_buildPlayerSnapshot] returns for a qualifying player.  The rates
    and the three top-spell lists, which are computed from [skills] for
    display, are left out. *)
Record PlayerSnapshot := mkPlayerSnapshot {
  ps_uid : Z;
  ps_name : string;
  ps_profession : string;
  ps_fightPoint : Z;
  ps_totalDamage : Z;
  ps_totalHeal : Z;
  ps_skills : gmap Z UserData.SkillSummary;
  ps_attr : gmap string Z;
}.

(** The record handed to [Sessions.addSession]. *)
Record SessionToSave := mkSessionToSave {
  ss_id : string;
  ss_name : string;
  ss_startedAt : Z;
  ss_endedAt : Z;
  ss_durationMs : Z;
  ss_reasonStart : string;
  ss_reasonEnd : string;
  ss_seq : option Z;
  ss_instanceId : option Z;
  ss_fromInstance : option Z;
  partySize : nat;
  snapshot_usersAgg : gmap Z UserData.Summary;
  snapshot_players : list PlayerSnapshot;
}.

(** Events sent with [socket.emit]. *)
Inductive SocketEvent :=
| user_deleted (uid : Z).

(** The fields of the manager, together with what it reaches outside itself:
    the global [config], the calls made to [Sessions.addSession] (oldest
    first) and the events emitted on the socket.  Timers and files are not
    part of the state. *)
Record Store := mkStore {
  users : gmap Z UserData.t;
  userGraveyard : gmap Z UserData.t;
  userCache : gmap string CacheEntry;
  pendingSave : bool;
  hpCache : gmap Z Z;
  startTime : Z;
  currentSession : option Session;
  enemyCache : EnemyCache;
  lastAutoSaveTime : Z;
  lastLogTime : Z;
  config : Config;
  persistedSessions : list SessionToSave;
  socketLog : list SocketEvent;
}.

Definition set_users (v : gmap Z UserData.t) (st : Store) : Store :=
  mkStore v (userGraveyard st) (userCache st) (pendingSave st) (hpCache st)
    (startTime st) (currentSession st) (enemyCache st) (lastAutoSaveTime st)
    (lastLogTime st) (config st) (persistedSessions st) (socketLog st).

Definition set_userGraveyard (v : gmap Z UserData.t) (st : Store) : Store :=
  mkStore (users st) v (userCache st) (pendingSave st) (hpCache st)
    (startTime st) (currentSession st) (enemyCache st) (lastAutoSaveTime st)
    (lastLogTime st) (config st) (persistedSessions st) (socketLog st).

Definition set_userCache (v : gmap string CacheEntry) (st : Store) : Store :=
  mkStore (users st) (userGraveyard st) v (pendingSave st) (hpCache st)
    (startTime st) (currentSession st) (enemyCache st) (lastAutoSaveTime st)
    (lastLogTime st) (config st) (persistedSessions st) (socketLog st).

Definition set_pendingSave (v : bool) (st : Store) : Store :=
  mkStore (users st) (userGraveyard st) (userCache st) v (hpCache st)
    (startTime st) (currentSession st) (enemyCache st) (lastAutoSaveTime st)
    (lastLogTime st) (config st) (persistedSessions st) (socketLog st).

Definition set_hpCache (v : gmap Z Z) (st : Store) : Store :=
  mkStore (users st) (userGraveyard st) (userCache st) (pendingSave st) v
    (startTime st) (currentSession st) (enemyCache st) (lastAutoSaveTime st)
    (lastLogTime st) (config st) (persistedSessions st) (socketLog st).

Definition set_startTime (v : Z) (st : Store) : Store :=
  mkStore (users st) (userGraveyard st) (userCache st) (pendingSave st)
    (hpCache st) v (currentSession st) (enemyCache st) (lastAutoSaveTime st)
    (lastLogTime st) (config st) (persistedSessions st) (socketLog st).

Definition set_currentSession (v : option Session) (st : Store) : Store :=
  mkStore (users st) (userGraveyard st) (userCache st) (pendingSave st)
    (hpCache st) (startTime st) v (enemyCache st) (lastAutoSaveTime st)
    (lastLogTime st) (config st) (persistedSessions st) (socketLog st).

Definition set_enemyCache (v : EnemyCache) (st : Store) : Store :=
  mkStore (users st) (userGraveyard st) (userCache st) (pendingSave st)
    (hpCache st) (startTime st) (currentSession st) v (lastAutoSaveTime st)
    (lastLogTime st) (config st) (persistedSessions st) (socketLog st).

Definition set_lastAutoSaveTime (v : Z) (st : Store) : Store :=
  mkStore (users st) (userGraveyard st) (userCache st) (pendingSave st)
    (hpCache st) (startTime st) (currentSession st) (enemyCache st) v
    (lastLogTime st) (config st) (persistedSessions st) (socketLog st).

Definition set_lastLogTime (v : Z) (st : Store) : Store :=
  mkStore (users st) (userGraveyard st) (userCache st) (pendingSave st)
    (hpCache st) (startTime st) (currentSession st) (enemyCache st)
    (lastAutoSaveTime st) v (config st) (persistedSessions st) (socketLog st).

Definition set_config (v : Config) (st : Store) : Store :=
  mkStore (users st) (userGraveyard st) (userCache st) (pendingSave st)
    (hpCache st) (startTime st) (currentSession st) (enemyCache st)
    (lastAutoSaveTime st) (lastLogTime st) v (persistedSessions st)
    (socketLog st).

Definition set_persistedSessions (v : list SessionToSave) (st : Store) : Store :=
  mkStore (users st) (userGraveyard st) (userCache st) (pendingSave st)
    (hpCache st) (startTime st) (currentSession st) (enemyCache st)
    (lastAutoSaveTime st) (lastLogTime st) (config st) v (socketLog st).

Definition set_socketLog (v : list SocketEvent) (st : Store) : Store :=
  mkStore (users st) (userGraveyard st) (userCache st) (pendingSave st)
    (hpCache st) (startTime st) (currentSession st) (enemyCache st)
    (lastAutoSaveTime st) (lastLogTime st) (config st) (persistedSessions st)
    v.

(** The manager as its constructor leaves it. *)
Definition newStore (now : Z) (cfg : Config) : Store :=
  mkStore ∅ ∅ ∅ false ∅ now None (mkEnemyCache ∅ ∅ ∅) 0 0 cfg [] [].

(** [String(uid)] *)
Definition uidStr (uid : Z) : string := pretty uid.

(** [saveUserCacheThrottled]: the flag is set at once, the write waits for
    the timer. *)
Definition saveUserCacheThrottled (st : Store) : Store :=
  set_pendingSave true st.

(** [if (!this.userCache.has(uidStr)) this.userCache.set(uidStr, {});
     this.userCache.get(uidStr).field = value] *)
Definition updateCache (uid : Z) (f : CacheEntry → CacheEntry) (st : Store)
    : Store :=
  let entry := default emptyCacheEntry (userCache st !! uidStr uid) in
  set_userCache (<[uidStr uid := f entry]> (userCache st)) st.

Definition cache_set_name (v : string) (c : CacheEntry) : CacheEntry :=
  mkCacheEntry (Some v) (c_profession c) (c_subProfession c) (c_fightPoint c)
    (c_maxHp c).
Definition cache_set_profession (v : string) (c : CacheEntry) : CacheEntry :=
  mkCacheEntry (c_name c) (Some v) (c_subProfession c) (c_fightPoint c)
    (c_maxHp c).
Definition cache_set_fightPoint (v : Z) (c : CacheEntry) : CacheEntry :=
  mkCacheEntry (c_name c) (c_profession c) (c_subProfession c) (Some v)
    (c_maxHp c).
Definition cache_set_maxHp (v : Z) (c : CacheEntry) : CacheEntry :=
  mkCacheEntry (c_name c) (c_profession c) (c_subProfession c) (c_fightPoint c)
    (Some v).

(** A new record, filled from the persisted cache and from the HP cache. *)
Definition hydrate (now : Z) (cached : option CacheEntry) (hp : option Z)
    (user : UserData.t) : UserData.t :=
  let user :=
    match cached with
    | Some c =>
        let user := match c_name c with
                    | Some n => if truthy n then UserData.setName now n user
                                else user
                    | None => user
                    end in
        let user := match c_profession c with
                    | Some p => if truthy p
                                then UserData.setProfession now p user
                                else user
                    | None => user
                    end in
        let user := match c_subProfession c with
                    | Some s => if truthy s
                                then UserData.setSubProfession now s user
                                else user
                    | None => user
                    end in
        let user := match c_fightPoint c with
                    | Some fp => UserData.setFightPoint now fp user
                    | None => user
                    end in
        match c_maxHp c with
        | Some m => UserData.setAttrKV now "max_hp" m user
        | None => user
        end
    | None => user
    end in
  match hp with
  | Some h => UserData.setAttrKV now "hp" h user
  | None => user
  end.

(** [getUser(uid)]: the live record, or the one revived from the graveyard,
    or a new one.  The record returned is the one now stored under [uid] in
    [users]. *)
Definition getUser (now uid : Z) (st : Store) : Store * UserData.t :=
  match users st !! uid with
  | Some u => (st, u)
  | None =>
      match userGraveyard st !! uid with
      | Some u =>
          let st := set_userGraveyard (delete uid (userGraveyard st)) st in
          (set_users (<[uid := u]> (users st)) st, u)
      | None =>
          let user := hydrate now (userCache st !! uidStr uid)
                        (hpCache st !! uid) (UserData.new now uid) in
          (set_users (<[uid := user]> (users st)) st, user)
      end
  end.

(** [const user = this.getUser(uid); user.method(...)]: the record is shared
    with the map, so the change is seen under [uid] in [users]. *)
Definition withUser (now uid : Z) (f : UserData.t → UserData.t) (st : Store)
    : Store :=
  let '(st, user) := getUser now uid st in
  set_users (<[uid := f user]> (users st)) st.

Definition addDamage (now uid skillId : Z) (element : DamageElement)
    (damage : Z) (isCrit isLucky isCauseLucky : bool) (hpLessenValue : Z)
    (targetUid : Z) (st : Store) : Store :=
  if IS_PAUSED (config st) then st
  else if onlyRecordEliteDummy (config st) && negb (targetUid =? 75) then st
  else withUser now uid
         (UserData.addDamage now skillId element damage isCrit isLucky
            isCauseLucky hpLessenValue) st.

Definition addHealing (now uid skillId : Z) (element : DamageElement)
    (healing : Z) (isCrit isLucky isCauseLucky : bool) (targetUid : Z)
    (st : Store) : Store :=
  if IS_PAUSED (config st) then st
  else if negb (uid =? 0) then
    withUser now uid
      (UserData.addHealing now skillId element healing isCrit isLucky
         isCauseLucky) st
  else st.

Definition addTakenDamage (now uid damage : Z) (isDead : bool) (st : Store)
    : Store :=
  if IS_PAUSED (config st) then st
  else withUser now uid (UserData.addTakenDamage now damage isDead) st.

(** [addLog]: the line goes to a file; the store only keeps the time. *)
Definition addLog (now : Z) (st : Store) : Store :=
  if IS_PAUSED (config st) then st else set_lastLogTime now st.

(** [profession.trim() === '']: every character is white space or a line
    terminator.  [trim] strips the code points U+0009 to U+000D, U+0020,
    U+00A0, U+1680, U+2000 to U+200A, U+2028, U+2029, U+202F, U+205F, U+3000
    and U+FEFF; the first six are single bytes, the others are read in their
    UTF-8 encoding, of two or of three bytes. *)
Definition isSpace (c : Ascii.ascii) : bool :=
  let n := Ascii.nat_of_ascii c in
  (n =? 32)%nat || ((9 <=? n)%nat && (n <=? 13)%nat).

(** U+00A0 is [C2 A0]. *)
Definition isSpace2 (c0 c1 : Ascii.ascii) : bool :=
  (Ascii.nat_of_ascii c0 =? 0xC2)%nat && (Ascii.nat_of_ascii c1 =? 0xA0)%nat.

(** U+1680 is [E1 9A 80]; U+2000 to U+200A are [E2 80 80] to [E2 80 8A];
    U+2028, U+2029 and U+202F are [E2 80 A8], [E2 80 A9] and [E2 80 AF];
    U+205F is [E2 81 9F]; U+3000 is [E3 80 80]; U+FEFF is [EF BB BF]. *)
Definition isSpace3 (c0 c1 c2 : Ascii.ascii) : bool :=
  let n0 := Ascii.nat_of_ascii c0 in
  let n1 := Ascii.nat_of_ascii c1 in
  let n2 := Ascii.nat_of_ascii c2 in
  ((n0 =? 0xE1) && (n1 =? 0x9A) && (n2 =? 0x80))%nat ||
  ((n0 =? 0xE2) && (n1 =? 0x80) &&
   (((0x80 <=? n2) && (n2 <=? 0x8A)) || (n2 =? 0xA8) || (n2 =? 0xA9) ||
    (n2 =? 0xAF)))%nat ||
  ((n0 =? 0xE2) && (n1 =? 0x81) && (n2 =? 0x9F))%nat ||
  ((n0 =? 0xE3) && (n1 =? 0x80) && (n2 =? 0x80))%nat ||
  ((n0 =? 0xEF) && (n1 =? 0xBB) && (n2 =? 0xBF))%nat.

Fixpoint isBlank (s : string) : bool :=
  match s with
  | EmptyString => true
  | String c0 s1 =>
      if isSpace c0 then isBlank s1
      else
        match s1 with
        | EmptyString => false
        | String c1 s2 =>
            if isSpace2 c0 c1 then isBlank s2
            else
              match s2 with
              | EmptyString => false
              | String c2 s3 =>
                  if isSpace3 c0 c1 c2 then isBlank s3 else false
              end
        end
  end.

Definition setProfession (now uid : Z) (profession : string) (st : Store)
    : Store :=
  if negb (truthy profession) || isBlank profession then st
  else
    let '(st, user) := getUser now uid st in
    if negb (String.eqb (UserData.profession user) profession) then
      let st := set_users
                  (<[uid := UserData.setProfession now profession user]>
                     (users st)) st in
      saveUserCacheThrottled
        (updateCache uid (cache_set_profession profession) st)
    else st.

Definition setName (now uid : Z) (name : string) (st : Store) : Store :=
  let '(st, user) := getUser now uid st in
  if negb (String.eqb (UserData.name user) name) then
    let st := set_users (<[uid := UserData.setName now name user]> (users st))
                st in
    saveUserCacheThrottled (updateCache uid (cache_set_name name) st)
  else st.

Definition setFightPoint (now uid fightPoint : Z) (st : Store) : Store :=
  let '(st, user) := getUser now uid st in
  if negb (UserData.fightPoint user =? fightPoint) then
    let st := set_users
                (<[uid := UserData.setFightPoint now fightPoint user]>
                   (users st)) st in
    saveUserCacheThrottled (updateCache uid (cache_set_fightPoint fightPoint) st)
  else st.

Definition setAttrKV (now uid : Z) (key : string) (value : Z) (st : Store)
    : Store :=
  let st := withUser now uid (UserData.putAttr key value) st in
  let st := if String.eqb key "max_hp"
            then saveUserCacheThrottled
                   (updateCache uid (cache_set_maxHp value) st)
            else st in
  if String.eqb key "hp" then set_hpCache (<[uid := value]> (hpCache st)) st
  else st.

Definition deleteEnemyData (id : Z) (st : Store) : Store :=
  let e := enemyCache st in
  set_enemyCache
    (mkEnemyCache (delete id (enemy_name e)) (delete id (enemy_hp e))
       (delete id (enemy_maxHp e))) st.

Definition refreshEnemyCache (st : Store) : Store :=
  set_enemyCache (mkEnemyCache ∅ ∅ ∅) st.

(** [cleanUpInactiveUsers]: every live record untouched for more than a
    minute goes to the graveyard.  Deleting the entry being visited does not
    disturb the iteration of a JavaScript [Map], so the loop visits the
    entries the map had when it began. *)
Definition inactiveThreshold : Z := 60 * 1000.

Definition retire (now : Z) (st : Store) (entry : Z * UserData.t) : Store :=
  let '(uid, user) := entry in
  if now - UserData.lastUpdateTime user >? inactiveThreshold then
    let st := set_users (delete uid (users st)) st in
    let st := set_userGraveyard (<[uid := user]> (userGraveyard st)) st in
    set_socketLog (socketLog st ++ [user_deleted uid]) st
  else st.

Definition cleanUpInactiveUsers (now : Z) (st : Store) : Store :=
  foldl (retire now) st (map_to_list (users st)).

(** [_getAnyUser] *)
Definition _getAnyUser (uid : Z) (st : Store) : option UserData.t :=
  match users st !! uid with
  | Some u => Some u
  | None => userGraveyard st !! uid
  end.

(** [_getAllUserEntries]: the live entries, then the graveyard entries whose
    uid was not seen among the live ones. *)
Definition _getAllUserEntries (st : Store) : list (Z * UserData.t) :=
  map_to_list (users st) ++
  filter (λ e, users st !! e.1 = None) (map_to_list (userGraveyard st)).

Definition getUserIds (st : Store) : list Z := fst <$> _getAllUserEntries st.

(** [getAllUsersData] *)
Definition getAllUsersData (st : Store) : gmap Z UserData.Summary :=
  foldl (λ result e, <[e.1 := UserData.getSummary e.2]> result) ∅
        (_getAllUserEntries st).

Definition CONTRIBUTION_THRESHOLD : Z := 5000.

Section Sessions.

Variable skillConfig : Z → option string.

(** [_buildPlayerSnapshot(uid)]: nothing for an unknown uid and for a
    player at or below the threshold in both damage and healing. *)
Definition _buildPlayerSnapshot (uid : Z) (st : Store)
    : option PlayerSnapshot :=
  match _getAnyUser uid st with
  | None => None
  | Some u =>
      let sum := UserData.getSummary u in
      let totalDamage := StatisticData.total (UserData.total_damage sum) in
      let totalHeal := StatisticData.total (UserData.total_healing sum) in
      if (totalDamage <=? CONTRIBUTION_THRESHOLD) &&
         (totalHeal <=? CONTRIBUTION_THRESHOLD)
      then None
      else
        Some (mkPlayerSnapshot
                (UserData.uid u)
                (if truthy (UserData.name u) then UserData.name u
                 else uidStr (UserData.uid u))
                (UserData.professionLabel u)
                (UserData.fightPoint u)
                totalDamage totalHeal
                (UserData.getSkillSummary skillConfig u)
                (UserData.attr u))
  end.

(** [.map(([uid, _u]) => this._buildPlayerSnapshot(uid)).filter(Boolean)] *)
Definition qualifyingPlayers (st : Store) : list PlayerSnapshot :=
  omap (λ e, _buildPlayerSnapshot e.1 st) (_getAllUserEntries st).

(** [_finalizeAndPersistSession(reasonEnd)].  The call of
    [Sessions.addSession] is recorded whether or not it throws; the current
    session is dropped in every case. *)
Definition _finalizeAndPersistSession (now : Z) (reasonEnd : string)
    (st : Store) : Store :=
  match currentSession st with
  | None => st
  | Some cur =>
      let endedAt := now in
      let snapshotUsers := getAllUsersData st in
      let players := qualifyingPlayers st in
      match players with
      | [] => set_currentSession None st
      | _ =>
          let sessionToSave :=
            mkSessionToSave (s_id cur) (s_name cur) (s_startedAt cur)
              endedAt (Z.max 0 (endedAt - s_startedAt cur))
              (s_reasonStart cur) reasonEnd (s_seq cur) (s_instanceId cur)
              (s_fromInstance cur) (length players) snapshotUsers players in
          set_currentSession None
            (set_persistedSessions (persistedSessions st ++ [sessionToSave])
               st)
      end
  end.

(** [clearAll(opts)]; the files [saveAllUserData] writes are outside the
    state. *)
Definition clearAll (now : Z) (persistSession : bool) (reasonEnd : string)
    (st : Store) : Store :=
  let st := if persistSession
            then _finalizeAndPersistSession now reasonEnd st
            else st in
  let st := set_users ∅ st in
  let st := set_userGraveyard ∅ st in
  let st := set_startTime now st in
  let st := set_lastAutoSaveTime 0 st in
  set_lastLogTime 0 st.

End Sessions.

(* ===================================================================== *)
(** * The delta interpreter: [#processAoiSyncDelta] *)
(* ===================================================================== *)

(** The low 16 bits of a uuid tag the kind of entity; the rest is the uid. *)
Definition isUuidPlayer (uuid : Z) : bool := Z.land uuid 0xffff =? 640.
Definition isUuidMonster (uuid : Z) : bool := Z.land uuid 0xffff =? 64.

(** [Long.prototype.toNumber] on a value that is not negative: the nearest
    double, the even one of two that are as near.  Below [2 ^ 53] every
    integer is a double. *)
Definition toDouble (x : Z) : Z :=
  let e := Z.log2 x in
  if e <? 53 then x
  else
    let ulp := 2 ^ (e - 52) in
    let q := x / ulp in
    let r := x mod ulp in
    if 2 * r <? ulp then q * ulp
    else if ulp <? 2 * r then (q + 1) * ulp
    else if Z.even q then q * ulp
    else (q + 1) * ulp.

(** [uuid.shiftRight(16).toNumber()], for [uuid] the value of a 64-bit
    [Long].  [shiftRight] shifts the high word as a signed one.  For a value
    below [2 ^ 63], which is every signed [Long] and every unsigned one with
    bit 63 clear, the outcome is the value divided by [2 ^ 16], rounded
    down, and [toNumber] gives it exactly.  An unsigned [Long] with bit 63
    set comes out with its sixteen top bits set, and [toNumber] rounds that
    to a double. *)
Definition uuidToUid (uuid : Z) : Z :=
  if uuid <? 2 ^ 63 then Z.shiftr uuid 16
  else toDouble (Z.shiftr uuid 16 + (2 ^ 64 - 2 ^ 48)).

Module AttrType.
Definition AttrName : Z := 0x01.
Definition AttrId : Z := 0x0a.
Definition AttrProfessionId : Z := 0xdc.
Definition AttrFightPoint : Z := 0x272e.
Definition AttrLevel : Z := 0x2710.
Definition AttrRankLevel : Z := 0x274c.
Definition AttrCri : Z := 0x2b66.
Definition AttrLucky : Z := 0x2b7a.
Definition AttrHp : Z := 0x2c2e.
Definition AttrMaxHp : Z := 0x2c38.
Definition AttrElementFlag : Z := 0x646d6c.
Definition AttrReductionLevel : Z := 0x64696d.
Definition AttrReduntionId : Z := 0x6f6c65.
Definition AttrEnergyFlag : Z := 0x543cd3c6.
End AttrType.

(** [getProfessionNameFromId] *)
Definition getProfessionNameFromId (id : Z) : string :=
  match id with
  | 1 => "Stormblade"
  | 2 => "Frost Mage"
  | 3 => "Fire Warrior"
  | 4 => "Wind Knight"
  | 5 => "Verdant Oracle"
  | 8 => "Gunner"
  | 9 => "Heavy Guardian"
  | 10 => "Reaper"
  | 11 => "Marksman"
  | 12 => "Shield Knight"
  | 13 => "Soul Musician"
  | _ => ""
  end.

(** The decoded messages.  A 64-bit field is a [Long] object when present,
    which JavaScript takes for true whatever its value, so such a field is an
    [option]; [OwnerId] and [Id] are plain numbers, false when [0]. *)
Record Attr := mkAttr {
  Id : Z;
  RawData : option (list byte);
}.

Record SkillDamage := mkSkillDamage {
  OwnerId : Z;
  TopSummonerId : option Z;
  AttackerUuid : option Z;
  Value : option Z;
  LuckyValue : option Z;
  TypeFlag : option Z;
  Type_ : option Z;
  IsDead : bool;
  HpLessenValue : option Z;
  Property : option Z;
  DamageSource : option Z;
}.

Record AoiSyncDelta := mkAoiSyncDelta {
  Uuid : option Z;
  Attrs : list Attr;           (* [Attrs.Attrs], empty when absent *)
  Damages : list SkillDamage;  (* [SkillEffects.Damages], empty when absent *)
}.

(** A call that may be cut short by an exception. *)
Inductive Result :=
| Ok (st : Store)
| Exn (st : Store).

Definition resultStore (r : Result) : Store :=
  match r with Ok st | Exn st => st end.

Section DeltaInterpreter.

(** What the interpreter takes from outside: the varint and string readers
    of protobufjs ([None]: the reader throws), the monster name table, and
    the value of [pb.EDamageType.Heal] ([None]: the schema has no such
    enum). *)
Variable pb_string : list byte → option string.
Variable pb_int32 : list byte → option Z.
Variable monsterNames : Z → option string.
Variable EDamageType_Heal : option Z.

Definition decodeInt (raw : list byte) (k : Z → Store) (st : Store)
    : Result :=
  match pb_int32 raw with
  | Some v => Ok (k v)
  | None => Exn st
  end.

Definition playerAttr (now playerUid : Z) (a : Attr) (st : Store) : Result :=
  match RawData a with
  | None => Ok st
  | Some raw =>
      let id := Id a in
      let kv key := decodeInt raw (λ v, setAttrKV now playerUid key v st) st in
      if id =? 0 then Ok st
      else if id =? AttrType.AttrName then
        match pb_string raw with
        | Some s => Ok (setName now playerUid s st)
        | None => Exn st
        end
      else if id =? AttrType.AttrProfessionId then
        decodeInt raw
          (λ v, setProfession now playerUid (getProfessionNameFromId v) st) st
      else if id =? AttrType.AttrFightPoint then
        decodeInt raw (λ v, setFightPoint now playerUid v st) st
      else if id =? AttrType.AttrLevel then kv "level"
      else if id =? AttrType.AttrRankLevel then kv "rank_level"
      else if id =? AttrType.AttrCri then kv "cri"
      else if id =? AttrType.AttrLucky then kv "lucky"
      else if id =? AttrType.AttrHp then kv "hp"
      else if id =? AttrType.AttrMaxHp then kv "max_hp"
      else if id =? AttrType.AttrElementFlag then kv "element_flag"
      else if id =? AttrType.AttrEnergyFlag then kv "energy_flag"
      else if id =? AttrType.AttrReductionLevel then kv "reduction_level"
      else Ok st
  end.

Fixpoint processPlayerAttrs (now playerUid : Z) (attrs : list Attr)
    (st : Store) : Result :=
  match attrs with
  | [] => Ok st
  | a :: rest =>
      match playerAttr now playerUid a st with
      | Ok st' => processPlayerAttrs now playerUid rest st'
      | Exn st' => Exn st'
      end
  end.

Definition set_enemy_name (uid : Z) (n : string) (st : Store) : Store :=
  let e := enemyCache st in
  set_enemyCache
    (mkEnemyCache (<[uid := n]> (enemy_name e)) (enemy_hp e) (enemy_maxHp e))
    st.

Definition set_enemy_hp (uid v : Z) (st : Store) : Store :=
  let e := enemyCache st in
  set_enemyCache
    (mkEnemyCache (enemy_name e) (<[uid := v]> (enemy_hp e)) (enemy_maxHp e))
    st.

Definition set_enemy_maxHp (uid v : Z) (st : Store) : Store :=
  let e := enemyCache st in
  set_enemyCache
    (mkEnemyCache (enemy_name e) (enemy_hp e) (<[uid := v]> (enemy_maxHp e)))
    st.

Definition enemyAttr (enemyUid : Z) (a : Attr) (st : Store) : Result :=
  match RawData a with
  | None => Ok st
  | Some raw =>
      let id := Id a in
      if id =? 0 then Ok st
      else if id =? AttrType.AttrName then
        match pb_string raw with
        | Some s => Ok (set_enemy_name enemyUid s st)
        | None => Exn st
        end
      else if id =? AttrType.AttrId then
        decodeInt raw
          (λ attrId, match monsterNames attrId with
                     | Some n => if truthy n then set_enemy_name enemyUid n st
                                 else st
                     | None => st
                     end) st
      else if id =? AttrType.AttrHp then
        decodeInt raw (λ v, set_enemy_hp enemyUid v st) st
      else if id =? AttrType.AttrMaxHp then
        decodeInt raw (λ v, set_enemy_maxHp enemyUid v st) st
      else Ok st
  end.

Fixpoint processEnemyAttrs (enemyUid : Z) (attrs : list Attr) (st : Store)
    : Result :=
  match attrs with
  | [] => Ok st
  | a :: rest =>
      match enemyAttr enemyUid a st with
      | Ok st' => processEnemyAttrs enemyUid rest st'
      | Exn st' => Exn st'
      end
  end.

(** What the loop over [damages] reads off one entry [d]. *)
Definition attackerOf (d : SkillDamage) : option Z :=
  match TopSummonerId d with
  | Some a => Some a
  | None => AttackerUuid d
  end.

(** [value ?? luckyValue ?? Long.ZERO] *)
Definition magnitude (d : SkillDamage) : Z :=
  match Value d with
  | Some v => v
  | None => default 0 (LuckyValue d)
  end.

Definition isHeal (d : SkillDamage) : bool :=
  bool_decide (Type_ d = EDamageType_Heal).

Definition isCrit (d : SkillDamage) : bool :=
  Z.land (default 0 (TypeFlag d)) 1 =? 1.

Definition isCauseLucky (d : SkillDamage) : bool :=
  Z.land (default 0 (TypeFlag d)) 4 =? 4.

Definition isLucky (d : SkillDamage) : bool :=
  bool_decide (is_Some (LuckyValue d)).

(** The entries the loop skips with [continue]: no skill id, no attacker,
    or a magnitude of zero. *)
Definition skipped (d : SkillDamage) : bool :=
  (OwnerId d =? 0) || bool_decide (attackerOf d = None) ||
  (magnitude d =? 0).

(** The crediting branch of the loop body: a player target receives the
    heal (booked on the attacker, or on uid 0 when the attacker is not a
    player) or the damage taken, any other target has the damage booked on
    a player attacker. *)
Definition creditEvent (now : Z) (targetIsPlayer : bool) (targetUid : Z)
    (d : SkillDamage) (st : Store) : Store :=
  let skillId := OwnerId d in
  let attackerUuid := default 0 (attackerOf d) in
  let attackerIsPlayer := isUuidPlayer attackerUuid in
  let attackerUid := uuidToUid attackerUuid in
  let damage := magnitude d in
  let hpLessen := default 0 (HpLessenValue d) in
  let damageElement := getDamageElement (Property d) in
  if targetIsPlayer then
    let st :=
      if isHeal d then
        addHealing now (if attackerIsPlayer then attackerUid else 0)
          skillId damageElement damage (isCrit d) (isLucky d)
          (isCauseLucky d) targetUid st
      else addTakenDamage now targetUid damage (IsDead d) st in
    if IsDead d then setAttrKV now targetUid "hp" 0 st else st
  else
    let st :=
      if negb (isHeal d) && attackerIsPlayer then
        addDamage now attackerUid skillId damageElement damage
          (isCrit d) (isLucky d) (isCauseLucky d) hpLessen targetUid st
      else st in
    if IsDead d then deleteEnemyData targetUid st else st.

(** The rest of the loop body writes the log line: it looks up the
    attacker and the target with [getUser] when they are players, then
    calls [addLog]. *)
Definition logEvent (now : Z) (targetIsPlayer : bool) (targetUid : Z)
    (d : SkillDamage) (st : Store) : Store :=
  let attackerUuid := default 0 (attackerOf d) in
  let st := if isUuidPlayer attackerUuid
            then (getUser now (uuidToUid attackerUuid) st).1
            else st in
  let st := if targetIsPlayer then (getUser now targetUid st).1 else st in
  addLog now st.

(** The body of [for (const d of damages)], for the target of the
    enclosing delta. *)
Definition processDamage (now : Z) (targetIsPlayer : bool) (targetUid : Z)
    (st : Store) (d : SkillDamage) : Store :=
  if skipped d then st
  else logEvent now targetIsPlayer targetUid d
         (creditEvent now targetIsPlayer targetUid d st).

(** [if (attrs?.length) { if (targetIsPlayer) ... else if (targetIsMonster)
    ... }] *)
Definition processAttrs (now targetUuid : Z) (attrs : list Attr)
    (st : Store) : Result :=
  match attrs with
  | [] => Ok st
  | _ :: _ =>
      if isUuidPlayer targetUuid
      then processPlayerAttrs now (uuidToUid targetUuid) attrs st
      else if isUuidMonster targetUuid
      then processEnemyAttrs (uuidToUid targetUuid) attrs st
      else Ok st
  end.

Definition processAoiSyncDelta (now : Z) (aoiSyncDelta : option AoiSyncDelta)
    (st : Store) : Result :=
  match aoiSyncDelta with
  | None => Ok st
  | Some delta =>
      match Uuid delta with
      | None => Ok st
      | Some targetUuid =>
          match processAttrs now targetUuid (Attrs delta) st with
          | Exn st' => Exn st'
          | Ok st' =>
              Ok (foldl (processDamage now (isUuidPlayer targetUuid)
                           (uuidToUid targetUuid)) st' (Damages delta))
          end
      end
  end.

End DeltaInterpreter.

(* ===================================================================== *)
(** * Sequences of store operations *)
(* ===================================================================== *)

(** The operations of the manager that touch the two user maps, each made at
    its own time. *)
Inductive StoreOp :=
| OpGetUser (uid : Z)
| OpCleanUpInactiveUsers
| OpClearAll (persistSession : bool) (reasonEnd : string)
| OpAddDamage (uid skillId : Z) (element : DamageElement) (damage : Z)
    (isCrit isLucky isCauseLucky : bool) (hpLessenValue targetUid : Z)
| OpAddHealing (uid skillId : Z) (element : DamageElement) (healing : Z)
    (isCrit isLucky isCauseLucky : bool) (targetUid : Z)
| OpAddTakenDamage (uid damage : Z) (isDead : bool)
| OpSetName (uid : Z) (name : string)
| OpSetProfession (uid : Z) (profession : string)
| OpSetFightPoint (uid fightPoint : Z)
| OpSetAttrKV (uid : Z) (key : string) (value : Z).

Section StoreOps.

Variable skillConfig : Z → option string.

Definition applyOp (now : Z) (op : StoreOp) (st : Store) : Store :=
  match op with
  | OpGetUser uid => (getUser now uid st).1
  | OpCleanUpInactiveUsers => cleanUpInactiveUsers now st
  | OpClearAll persistSession reasonEnd =>
      clearAll skillConfig now persistSession reasonEnd st
  | OpAddDamage uid skillId element damage isCrit isLucky isCauseLucky
      hpLessenValue targetUid =>
      addDamage now uid skillId element damage isCrit isLucky isCauseLucky
        hpLessenValue targetUid st
  | OpAddHealing uid skillId element healing isCrit isLucky isCauseLucky
      targetUid =>
      addHealing now uid skillId element healing isCrit isLucky
        isCauseLucky targetUid st
  | OpAddTakenDamage uid damage isDead =>
      addTakenDamage now uid damage isDead st
  | OpSetName uid name => setName now uid name st
  | OpSetProfession uid profession => setProfession now uid profession st
  | OpSetFightPoint uid fightPoint => setFightPoint now uid fightPoint st
  | OpSetAttrKV uid key value => setAttrKV now uid key value st
  end.

Definition runOps (ops : list (Z * StoreOp)) (st : Store) : Store :=
  foldl (λ s e, applyOp e.1 e.2 s) st ops.

End StoreOps.

(** No uid is both live and in the graveyard. *)
Definition liveGraveDisjoint (st : Store) : Prop :=
  ∀ uid : Z, users st !! uid = None ∨ userGraveyard st !! uid = None.

(** The totals the persistence gate looks at. *)
Definition damageTotal (u : UserData.t) : Z :=
  StatisticData.total (StatisticData.stats (UserData.damageStats u)).

Definition healingTotal (u : UserData.t) : Z :=
  StatisticData.total (StatisticData.stats (UserData.healingStats u)).

(** The statistics a record carries: the two aggregates, the taken-damage
    total, the death count and the per-skill entries. *)
Definition statsOf (u : UserData.t)
    : StatisticData.t * StatisticData.t * Z * Z * gmap Z StatisticData.t :=
  (UserData.damageStats u, UserData.healingStats u, UserData.takenDamage u,
   UserData.deadCount u, UserData.skillUsage u).

(** The record the store holds for [uid], live or in the graveyard; a uid it
    does not know stands for a record that has no statistics yet. *)
Definition userOrNew (uid : Z) (st : Store) : UserData.t :=
  default (UserData.new 0 uid) (_getAnyUser uid st).

Definition userStats (uid : Z) (st : Store) := statsOf (userOrNew uid st).

Definition damageDealt (uid : Z) (st : Store) : Z :=
  damageTotal (userOrNew uid st).

Definition healingDone (uid : Z) (st : Store) : Z :=
  healingTotal (userOrNew uid st).

Definition damageTaken (uid : Z) (st : Store) : Z :=
  UserData.takenDamage (userOrNew uid st).

(* ===================================================================== *)
(** * Scenarios *)
(* ===================================================================== *)

(** A frame as the dispatcher reads it: length 16 in a big-endian prefix,
    type word [Notify], ten bytes of payload; and the same frame with the
    length written little-endian, the way [#parseBuffer] reads it. *)
Definition frame16_be : list byte :=
  [x00; x00; x00; x10; x00; x02;
   x01; x02; x03; x04; x05; x06; x07; x08; x09; x0a].

Definition frame16_le : list byte :=
  [x10; x00; x00; x00; x00; x02;
   x01; x02; x03; x04; x05; x06; x07; x08; x09; x0a].

(** A buffer that passes the identifier test, and one that does not. *)
Definition buffer_with_identifier : list byte :=
  [xfe; xff; xff; xff; x00; x00; x00; x00;
   x00; x00; x00; x00; x00; x00; x00; x00; x2a].

Definition buffer_without_identifier : list byte :=
  [x03; x00; x00; x00; x09; x09; x09].

(** A buffer whose first word declares the length 2000000, above the
    range, followed by eight bytes. *)
Definition buffer_length_2000000 : list byte :=
  [x80; x84; x1e; x00; x01; x02; x03; x04; x05; x06; x07; x08].

(** A running store that is not paused; the player with uid 7 (uuid
    [7 * 65536 + 640]) is the target, the player with uid 9 and the monster
    with uid 9 are the attackers; [EDamageType.Heal] is taken to be 2. *)
Definition store0 : Store := newStore 0 (mkConfig false false).

Definition player7 : Z := 7 * 65536 + 640.
Definition player9 : Z := 9 * 65536 + 640.
Definition monster9 : Z := 9 * 65536 + 64.

Definition heal_by_monster : SkillDamage :=
  mkSkillDamage 2406 None (Some monster9) (Some 100) None None (Some 2) false
    None None None.

Definition heal_by_player : SkillDamage :=
  mkSkillDamage 2406 None (Some player9) (Some 100) None None (Some 2) false
    None None None.

Definition hit_by_monster : SkillDamage :=
  mkSkillDamage 1241 None (Some monster9) (Some 250) None (Some 1) (Some 0)
    false None None None.

(** Player 7 is created, left idle for more than a minute and retired,
    revived by a hit, and the store is then cleared. *)
Definition ops_revival : list (Z * StoreOp) :=
  [ (0, OpGetUser 7);
    (70000, OpCleanUpInactiveUsers);
    (70001, OpAddTakenDamage 7 40 false);
    (70002, OpGetUser 8);
    (140003, OpCleanUpInactiveUsers);
    (140004, OpClearAll true "manual_clear") ].

(** An open session, and two epochs with player 7 alone: one in which the
    player dealt 6000, one in which the player dealt 100. *)
Definition session0 : Session :=
  mkSession "s-1" "Instance 12" 0 "instance_change" (Some 1) (Some 12) None.

Definition epoch_with (damage : Z) : Store :=
  set_users
    {[ 7 := UserData.addDamage 1 1241 Water damage false false false 0
              (UserData.new 0 7) ]}
    (set_currentSession (Some session0) store0).

(** An epoch with two players and an open session: player 7 dealt 6000,
    player 8 dealt nothing and healed 7000. *)
Definition epoch_damage_and_healing : Store :=
  set_users
    (<[ 8 := UserData.addHealing 1 2406 Light 7000 false false false
               (UserData.new 0 8) ]>
       {[ 7 := UserData.addDamage 1 1241 Water 6000 false false false 0
                 (UserData.new 0 7) ]})
    (set_currentSession (Some session0) store0).

(** A user with a profession who has used the sub-profession "smite" three
    times, and skill events for two other sub-professions, "frostbeam" and
    "icicle". *)
Definition smite_user : UserData.t :=
  let smite := DamageEvent 1518 Light 100 false false false 0 in
  feedEvent 3 smite
    (feedEvent 2 smite
       (feedEvent 1 smite
          (UserData.setProfession 0 "Verdant Oracle" (UserData.new 0 7)))).

Definition frostbeam_event : SkillEvent :=
  DamageEvent 1241 Water 100 false false false 0.

Definition icicle_event : SkillEvent :=
  HealingEvent 120901 Water 50 true false false.

(* ===================================================================== *)
(** * More of the store: read operations *)
(* ===================================================================== *)

(** The test of [cleanUpInactiveUsers]: the record was last touched more
    than a minute before [now]. *)
Definition isIdle (now : Z) (u : UserData.t) : bool :=
  now - UserData.lastUpdateTime u >? inactiveThreshold.

(** What [getUserSkillData] returns; it looks in the live map only. *)
Record UserSkillData := mkUserSkillData {
  usd_uid : Z;
  usd_name : string;
  usd_profession : string;
  usd_skills : gmap Z UserData.SkillSummary;
  usd_attr : gmap string Z;
}.

Definition getUserSkillData (skillConfig : Z → option string) (uid : Z)
    (st : Store) : option UserSkillData :=
  match users st !! uid with
  | None => None
  | Some user =>
      Some (mkUserSkillData (UserData.uid user) (UserData.name user)
              (UserData.professionLabel user)
              (UserData.getSkillSummary skillConfig user)
              (UserData.attr user))
  end.

(** One entry of [getAllEnemiesData]: each field is what the cache of that
    name holds for the id, if anything. *)
Record EnemyData := mkEnemyData {
  ed_name : option string;
  ed_hp : option Z;
  ed_max_hp : option Z;
}.

Definition enemyIds (st : Store) : gset Z :=
  dom (enemy_name (enemyCache st)) ∪ dom (enemy_hp (enemyCache st)) ∪
  dom (enemy_maxHp (enemyCache st)).

Definition getAllEnemiesData (st : Store) : gmap Z EnemyData :=
  set_to_map
    (λ id, (id, mkEnemyData (enemy_name (enemyCache st) !! id)
                  (enemy_hp (enemyCache st) !! id)
                  (enemy_maxHp (enemyCache st) !! id)))
    (enemyIds st).

(* ===================================================================== *)
(** * Sessions: instance changes and the manual clear *)
(* ===================================================================== *)

(** The [extra] argument of [onInstanceChanged]: the two fields the
    function reads. *)
Record Extra := mkExtra {
  ex_to : option Z;
  ex_from : option Z;
}.

(** The session events sent with [socket.emit]. *)
Inductive SessionNotice :=
| session_started (s : Session)
| dps_cleared (at_ : Z)
| session_changed (seq : Z) (reason : string) (extra : Extra).

(** The record [onInstanceChanged] hands to [Sessions.addSession]: the one
    of [_finalizeAndPersistSession] without its [reasonStart]. *)
Record InstanceSessionToSave := mkInstanceSessionToSave {
  is_id : string;
  is_name : string;
  is_startedAt : Z;
  is_endedAt : Z;
  is_durationMs : Z;
  is_reasonEnd : string;
  is_seq : option Z;
  is_instanceId : option Z;
  is_fromInstance : option Z;
  is_partySize : nat;
  is_players : list PlayerSnapshot;
  is_usersAgg : gmap Z UserData.Summary;
}.

(** [a || b] on strings that may be missing. *)
Definition orElse (a : option string) (b : string) : string :=
  match a with
  | Some s => if truthy s then s else b
  | None => b
  end.

Section InstanceChanges.

Variable skillConfig : Z → option string.

(** [tables/map_names.json], which is not among the sources. *)
Variable mapNames : Z → option string.

(** [mapNames[String(id)] || `Instance ${id}`] *)
Definition mapNameOf (id : Z) : string :=
  orElse (mapNames id) ("Instance " +:+ pretty id).

(** [onInstanceChanged(seq, reason, extra)].  [freshId] is the value of
    [crypto.randomUUID()] and [stamp] the local date and time as the
    function prints it.  The record given to [Sessions.addSession], if
    any, and the events emitted are returned beside the store. *)
Definition onInstanceChanged (now : Z) (freshId stamp : string) (seq : Z)
    (reason : string) (extra : Extra) (st : Store)
    : Store * option InstanceSessionToSave * list SessionNotice :=
  let saved :=
    match currentSession st with
    | None => None
    | Some cur =>
        let endedAt := now in
        let snapshotUsers := getAllUsersData st in
        let players := qualifyingPlayers skillConfig st in
        match players with
        | [] => None
        | _ =>
            Some (mkInstanceSessionToSave (s_id cur) (s_name cur)
                    (s_startedAt cur) endedAt
                    (Z.max 0 (endedAt - s_startedAt cur))
                    (if truthy reason then reason else "instance_change")
                    (s_seq cur) (s_instanceId cur) (s_fromInstance cur)
                    (length players) players snapshotUsers)
        end
    end in
  let st := set_currentSession None st in
  let st := clearAll skillConfig now false "manual_clear" st in
  let mapId := default seq (ex_to extra) in
  let sessionName := mapNameOf mapId +:+ " — " +:+ stamp in
  let session := mkSession freshId sessionName now reason (Some seq)
                   (Some mapId) (ex_from extra) in
  (set_currentSession (Some session) st, saved,
   [session_started session; dps_cleared now;
    session_changed seq reason extra]).

(** [saveCurrentSessionIfAny] of the API routes, which the [/clear] route
    runs before [clearAll()]: the players are looked for among the keys of
    the live map only. *)
Definition saveCurrentSessionIfAny (now : Z) (st : Store) : Store :=
  match currentSession st with
  | None => st
  | Some previous =>
      if bool_decide (getUserIds st = []) then st
      else
        let snapshotUsers := getAllUsersData st in
        let players :=
          omap (λ e, _buildPlayerSnapshot skillConfig e.1 st)
               (map_to_list (users st)) in
        match players with
        | [] => st
        | _ =>
            let endedAt := now in
            let sessionToSave :=
              mkSessionToSave (s_id previous) (s_name previous)
                (s_startedAt previous) endedAt
                (Z.max 0 (endedAt - s_startedAt previous))
                (s_reasonStart previous) "manual_clear" (s_seq previous)
                (s_instanceId previous) (s_fromInstance previous)
                (length players) snapshotUsers players in
            set_persistedSessions (persistedSessions st ++ [sessionToSave])
              st
        end
  end.

End InstanceChanges.

(* ===================================================================== *)
(** * Entities coming into view, and the dirty-data fields *)
(* ===================================================================== *)

(** An entry of [Appear] in a [SyncNearEntities] message.  [EntType] is a
    plain number, false when [0] or missing. *)
Record Entity := mkEntity {
  ent_Uuid : option Z;
  ent_EntType : option Z;
  ent_Attrs : list Attr;       (* [Attrs.Attrs], empty when absent *)
}.

(** [streamReadString]: a length word, four bytes passed over, the bytes of
    the string, four more bytes passed over. *)
Definition streamReadString : BinaryReader.M (list byte) :=
  (read len := BinaryReader.readUInt32LE in
   skip BinaryReader.readInt32 in
   read buf := BinaryReader.readBytes (Z.to_nat len) in
   skip BinaryReader.readInt32 in
   BinaryReader.ret buf)%reader.

(** [fieldIndex = r.readUInt32LE(); r.readInt32()] *)
Definition readFieldIndex : BinaryReader.M Z :=
  (read fieldIndex := BinaryReader.readUInt32LE in
   skip BinaryReader.readInt32 in
   BinaryReader.ret fieldIndex)%reader.

Section Entities.

Variable pb_string : list byte → option string.
Variable pb_int32 : list byte → option Z.
Variable monsterNames : Z → option string.

(** [pb.EEntityType.EntMonster] and [pb.EEntityType.EntChar]; [None] when
    the schema has no such enum. *)
Variable EntMonster EntChar : option Z.

(** [!entType] *)
Definition noEntType (entity : Entity) : bool :=
  match ent_EntType entity with
  | None | Some 0 => true
  | Some _ => false
  end.

(** The body of [for (const entity of appear)] in
    [#processSyncNearEntities]. *)
Definition processEntity (now : Z) (entity : Entity) (st : Store) : Result :=
  match ent_Uuid entity with
  | None => Ok st
  | Some entUuid =>
      let entUid := uuidToUid entUuid in
      let attrs := ent_Attrs entity in
      let guessPlayer := isUuidPlayer entUuid in
      let guessMonster := isUuidMonster entUuid in
      let isMonster := bool_decide (ent_EntType entity = EntMonster) ||
                       (noEntType entity && guessMonster) in
      let isChar := bool_decide (ent_EntType entity = EntChar) ||
                    (noEntType entity && guessPlayer) in
      match attrs with
      | [] => Ok st
      | _ :: _ =>
          if isMonster
          then processEnemyAttrs pb_string pb_int32 monsterNames entUid
                 attrs st
          else if isChar
          then processPlayerAttrs pb_string pb_int32 now entUid attrs st
          else if guessMonster
          then processEnemyAttrs pb_string pb_int32 monsterNames entUid
                 attrs st
          else if guessPlayer
          then processPlayerAttrs pb_string pb_int32 now entUid attrs st
          else Ok st
      end
  end.

End Entities.

Section DirtyData.

(** [buf.toString()]: the UTF-8 reading of the bytes. *)
Variable utf8 : list byte → string.

(** The parse of [#processSyncContainerDirtyData], from
    [const r = new BinaryReader(Buffer.from(buf))] on.  In every
    branch the reads come before the one call to the store, so the cursor
    computes the update to make; [None] is an exception of the cursor. *)
Definition dirtyUpdate (now uid : Z) : BinaryReader.M (Store → Store) :=
  (read hasIdentifier := doesStreamHaveIdentifier in
   if negb hasIdentifier then BinaryReader.ret id
   else
     read fieldIndex := readFieldIndex in
     if fieldIndex =? 2 then
       (* CharBase *)
       read inner := doesStreamHaveIdentifier in
       if negb inner then BinaryReader.ret id
       else
         read fieldIndex := readFieldIndex in
         if fieldIndex =? 5 then
           read name := streamReadString in
           BinaryReader.ret
             (if truthy (utf8 name) then setName now uid (utf8 name)
              else id)
         else if fieldIndex =? 35 then
           read fp := BinaryReader.readUInt32LE in
           skip BinaryReader.readInt32 in
           BinaryReader.ret (setFightPoint now uid fp)
         else BinaryReader.ret id
     else if fieldIndex =? 16 then
       (* UserFightAttr *)
       read inner := doesStreamHaveIdentifier in
       if negb inner then BinaryReader.ret id
       else
         read fieldIndex := readFieldIndex in
         if fieldIndex =? 1 then
           read curHp := BinaryReader.readUInt32LE in
           BinaryReader.ret (setAttrKV now uid "hp" curHp)
         else if fieldIndex =? 2 then
           read maxHp := BinaryReader.readUInt32LE in
           BinaryReader.ret (setAttrKV now uid "max_hp" maxHp)
         else BinaryReader.ret id
     else if fieldIndex =? 61 then
       (* ProfessionList *)
       read inner := doesStreamHaveIdentifier in
       if negb inner then BinaryReader.ret id
       else
         read fieldIndex := readFieldIndex in
         if fieldIndex =? 1 then
           read curProfessionId := BinaryReader.readUInt32LE in
           skip BinaryReader.readInt32 in
           BinaryReader.ret
             (if curProfessionId =? 0 then id
              else setProfession now uid
                     (getProfessionNameFromId curProfessionId))
         else BinaryReader.ret id
     else BinaryReader.ret id)%reader.

(** [#processSyncContainerDirtyData], with [currentUserUuid] for
    [this.#currentUserUuid] and [buf] for [m?.VData?.Buffer].  The probe
    the source runs before the parse works on a cursor of its own, inside
    a [try] that swallows every exception, and reaches only the instance
    tracker, which is not among the sources; it is left out. *)
Definition dirtyDataFields (now currentUserUuid : Z)
    (buf : option (list byte)) (st : Store) : Result :=
  if currentUserUuid =? 0 then Ok st
  else
    match buf with
    | None => Ok st
    | Some buf =>
        match dirtyUpdate now (uuidToUid currentUserUuid)
                (BinaryReader.mk buf 0) with
        | Some (update, _) => Ok (update st)
        | None => Exn st
        end
    end.

End DirtyData.

(* ===================================================================== *)
(** * Streams of skill events *)
(* ===================================================================== *)

(** A record fed a list of skill events, each at its own time. *)
Definition feedEvents (events : list (Z * SkillEvent)) (u : UserData.t)
    : UserData.t :=
  foldl (λ u e, feedEvent e.1 e.2 u) u events.

(** The sum of the cumulative totals of the per-skill entries. *)
Definition skillUsageTotal (u : UserData.t) : Z :=
  map_fold (λ _ stat acc, acc + StatisticData.total (StatisticData.stats stat))
    0 (UserData.skillUsage u).

(** The test of [_buildPlayerSnapshot] on a record: more than the threshold
    in damage or in healing. *)
Definition contributes (u : UserData.t) : bool :=
  (CONTRIBUTION_THRESHOLD <? damageTotal u) ||
  (CONTRIBUTION_THRESHOLD <? healingTotal u).

(** The value a skill event adds to the damage, and to the healing. *)
Definition damageOf (ev : SkillEvent) : Z :=
  match ev with
  | DamageEvent _ _ damage _ _ _ _ => damage
  | HealingEvent _ _ _ _ _ _ => 0
  end.

Definition healingOf (ev : SkillEvent) : Z :=
  match ev with
  | DamageEvent _ _ _ _ _ _ _ => 0
  | HealingEvent _ _ healing _ _ _ => healing
  end.

Definition sumOver (f : SkillEvent → Z) (events : list (Z * SkillEvent)) : Z :=
  foldr (λ e acc, f e.2 + acc) 0 events.

(* ===================================================================== *)
(** * Streams of frames *)
(* ===================================================================== *)

(** A frame [processPacket] passes over without leaving its loop: the
    big-endian length word gives the length of the frame, which is in
    range, and the frame is handled without an exception and without a
    nested stream. *)
Definition plainFrame (zstd : option (list byte → option (list byte)))
    (methodThrows : Z → list byte → bool) (frame : list byte) : Prop :=
  Buffer_readUInt32BE frame 0 = Some (Z.of_nat (length frame)) ∧
  MIN ≤ Z.of_nat (length frame) ≤ MAX ∧
  match routeOf zstd frame with
  | Some ToHandler => handlerThrows zstd methodThrows frame = false
  | Some (Nested None) | Some Ignored => True
  | Some (Nested (Some _)) | None => False
  end.

(** Two plain frames: a notification of another service (22 bytes: the
    length, the type word [Notify], an 8-byte service id that is not the
    one looked for, a stub id and a method id), and a [Return] frame of six
    bytes. *)
Definition frame_other_service : list byte :=
  [x00; x00; x00; x16; x00; x02;
   x00; x00; x00; x00; x00; x00; x00; x01;
   x00; x00; x00; x00;
   x00; x00; x00; x2d].

Definition frame_return : list byte := [x00; x00; x00; x06; x00; x03].

(* ===================================================================== *)
(** * The module optimizer: levels and the power table *)
(* ===================================================================== *)

Module ModuleOptimizer.

(** The default [attrThresholds]. *)
Definition attrThresholds : list Z := [1; 4; 8; 12; 16; 20].

(** The loop of [toLevel(value)] from index [i] on, with [level] as it
    stands: the first threshold above the value ends it. *)
Fixpoint toLevel_from (i : Z) (thresholds : list Z) (value level : Z) : Z :=
  match thresholds with
  | [] => level
  | t :: rest =>
      if value >=? t then toLevel_from (i + 1) rest value (i + 1)
      else level
  end.

Definition toLevel (thresholds : list Z) (value : Z) : Z :=
  toLevel_from 0 thresholds value 0.

(** [_buildTotalAttrPowerMap]: the entry for [0], then those for [1] to
    [120]. *)
Definition _buildTotalAttrPowerMap : gmap Z Z :=
  foldl (λ map i,
           <[i := if i <=? 18 then 5 + (i - 1) * 6
                  else 104 + (i - 18) * 6]> map)
    {[ 0 := 0 ]} (seqZ 1 120).

(** [this.totalAttrPowerMap[totalAttrValue] || 0] *)
Definition totalAttrPower (totalAttrValue : Z) : Z :=
  default 0 (_buildTotalAttrPowerMap !! totalAttrValue).

End ModuleOptimizer.
(* ===================================================================== *)
(** * Facts about the frame assembler *)
(* ===================================================================== *)

Lemma Buffer_readUInt32BE_None (buf : list byte) (n : nat) :
  Buffer_readUInt32BE buf n = None → (length buf < n + 4)%nat.
Proof.
  unfold Buffer_readUInt32BE.
  destruct (drop n buf) as [|b0 [|b1 [|b2 [|b3 ?]]]] eqn:E; intros H;
    try done; apply (f_equal length) in E; rewrite length_drop in E;
    simpl in E; lia.
Qed.

Lemma Buffer_readUInt32LE_None (buf : list byte) (n : nat) :
  Buffer_readUInt32LE buf n = None → (length buf < n + 4)%nat.
Proof.
  unfold Buffer_readUInt32LE.
  destruct (drop n buf) as [|b0 [|b1 [|b2 [|b3 ?]]]] eqn:E; intros H;
    try done; apply (f_equal length) in E; rewrite length_drop in E;
    simpl in E; lia.
Qed.

Lemma hasHeader_true_word (buf : list byte) :
  hasHeader buf = Some true →
  Buffer_readUInt32LE buf 0 = Some STREAM_IDENTIFIER.
Proof.
  unfold hasHeader, doesStreamHaveIdentifier, BinaryReader.bind,
    BinaryReader.readUInt32LE; simpl.
  destruct (_ <? 8)%nat; [discriminate|].
  destruct (Buffer_readUInt32LE buf 0) as [id|]; simpl; [|discriminate].
  destruct (BinaryReader.readInt32 _) as [[? ?]|]; simpl; [|discriminate].
  destruct (id =? STREAM_IDENTIFIER) eqn:E; simpl; [|discriminate].
  intros _. apply Z.eqb_eq in E. by subst.
Qed.

Lemma hasHeader_false_short (buf : list byte) :
  (length buf < 8)%nat → hasHeader buf = Some false.
Proof.
  intros H. unfold hasHeader, doesStreamHaveIdentifier,
    BinaryReader.remaining; simpl.
  rewrite Nat.sub_0_r. by destruct (Nat.ltb_spec (length buf) 8); [|lia].
Qed.

Lemma STREAM_IDENTIFIER_too_long : (STREAM_IDENTIFIER >? MAX) = true.
Proof. reflexivity. Qed.

(** The shape of one turn: the delivery branch is never taken, because a
    buffer that passes the identifier test starts with the word
    [0xfffffffe], which the length test then reads as the frame length. *)
Lemma parseBuffer_turn_cases (a : Assembler) :
  match parseBuffer_turn a with
  | Continue a' =>
      hasHeader (internalBuffer a) = Some false ∧
      a' = setBuffer (drop 4 (internalBuffer a)) a
  | Break a' =>
      hasHeader (internalBuffer a) = Some true ∧ a' = setBuffer [] a
  | Raise a' => hasHeader (internalBuffer a) = None ∧ a' = a
  | Deliver _ _ => False
  end.
Proof.
  unfold parseBuffer_turn.
  destruct (hasHeader (internalBuffer a)) as [[]|] eqn:E; [|done..].
  rewrite (hasHeader_true_word _ E), STREAM_IDENTIFIER_too_long.
  by rewrite orb_true_r.
Qed.

Section FrameAssemblerFacts.

Variable zstd : option (list byte → option (list byte)).

(** With more fuel than buffered bytes the loop ends, and it hands no
    frame to the dispatcher. *)
Lemma parseBuffer_fuel_ends (fuel : nat) (a : Assembler) :
  (length (internalBuffer a) < fuel)%nat →
  ∃ a', (parseBuffer_fuel zstd fuel a = Returned a' ∨
         parseBuffer_fuel zstd fuel a = Thrown a') ∧
        dispatched a' = dispatched a ∧
        (length (internalBuffer a') ≤ length (internalBuffer a))%nat.
Proof.
  revert a. induction fuel as [|fuel IH]; intros a Hlen; [lia|].
  simpl. destruct (Nat.ltb_spec (length (internalBuffer a)) 4) as [|H4].
  { exists a. auto. }
  pose proof (parseBuffer_turn_cases a) as Hturn.
  destruct (parseBuffer_turn a) as [a'|a'|a'|a' pkt]; [| | |done].
  - destruct Hturn as [_ ->].
    destruct (IH (setBuffer (drop 4 (internalBuffer a)) a)) as (b & Hb & Hd & Hl).
    { simpl. rewrite length_drop. lia. }
    exists b. split; [done|]. split; [done|].
    simpl in Hl. rewrite length_drop in Hl. lia.
  - destruct Hturn as [_ ->]. exists (setBuffer [] a). simpl.
    repeat split; auto with lia.
  - destruct Hturn as [_ ->]. exists a. auto.
Qed.

(** The result does not depend on the fuel, once there is enough. *)
Lemma parseBuffer_fuel_irrelevant (f1 f2 : nat) (a : Assembler) :
  (length (internalBuffer a) < f1)%nat →
  (length (internalBuffer a) < f2)%nat →
  parseBuffer_fuel zstd f1 a = parseBuffer_fuel zstd f2 a.
Proof.
  revert f2 a. induction f1 as [|f1 IH]; intros f2 a H1 H2; [lia|].
  destruct f2 as [|f2]; [lia|]. simpl.
  destruct (Nat.ltb_spec (length (internalBuffer a)) 4) as [|H4]; [done|].
  pose proof (parseBuffer_turn_cases a) as Hturn.
  destruct (parseBuffer_turn a) as [a'|a'|a'|a' pkt]; [|done|done|done].
  destruct Hturn as [_ ->].
  apply IH; simpl; rewrite length_drop; lia.
Qed.

Lemma parseBuffer_unfold (a : Assembler) :
  parseBuffer zstd a =
  if (length (internalBuffer a) <? 4)%nat then Returned a
  else match parseBuffer_turn a with
       | Continue a' => parseBuffer zstd a'
       | Break a' => Returned a'
       | Raise a' => Thrown a'
       | Deliver _ _ => OutOfFuel
       end.
Proof.
  unfold parseBuffer at 1. simpl.
  destruct (Nat.ltb_spec (length (internalBuffer a)) 4) as [|H4]; [done|].
  pose proof (parseBuffer_turn_cases a) as Hturn.
  destruct (parseBuffer_turn a) as [a'|a'|a'|a' pkt]; [|done|done|done].
  destruct Hturn as [_ ->]. unfold parseBuffer.
  apply parseBuffer_fuel_irrelevant; simpl; rewrite length_drop; lia.
Qed.

End FrameAssemblerFacts.

Example frame16_be_whole :
  processDataChunk None (mkAssembler [] []) frame16_be
  = Returned (mkAssembler [] []).
Proof. reflexivity. Qed.

Example frame16_le_whole :
  processDataChunk None (mkAssembler [] []) frame16_le
  = Returned (mkAssembler [] []).
Proof. reflexivity. Qed.

Example frame16_le_bytewise :
  feedChunks None (mkAssembler [] []) ((λ b, [b]) <$> frame16_le)
  = Returned (mkAssembler [] []).
Proof. reflexivity. Qed.

Example frame16_le_split :
  feedChunks None (mkAssembler [] []) [take 9 frame16_le; drop 9 frame16_le]
  = Returned (mkAssembler [] []).
Proof. reflexivity. Qed.

(** The sibling [processPacket] does deliver: a buffer that is exactly one
    frame, with its length in the big-endian prefix and within
    [6, 1048576], is dispatched once, as it is. *)
Lemma processPacket_delivers_whole_frame
    (zstd : option (list byte → option (list byte)))
    (methodThrows : Z → list byte → bool) (f : list byte) :
  Buffer_readUInt32BE f 0 = Some (Z.of_nat (length f)) →
  MIN ≤ Z.of_nat (length f) ≤ MAX →
  (∀ nested, routeOf zstd f ≠ Some (Nested (Some nested))) →
  processPacket zstd methodThrows [] f = Some [f].
Proof.
  intros Hlen [Hmin Hmax] Hroute.
  assert (6 ≤ length f)%nat as H6 by (unfold MIN in Hmin; lia).
  unfold processPacket. cbn [processPacket_loop].
  unfold BinaryReader.remaining, BinaryReader.peekUInt32,
    BinaryReader.readBytes, BinaryReader.remaining. cbn [BinaryReader.buffer
    BinaryReader.position]. rewrite Nat.sub_0_r, Hlen. simpl option_bind.
  cbn [mbind option_bind].
  destruct (Nat.ltb_spec (length f) (Z.to_nat MIN)) as [Hlt|_];
    [unfold MIN in Hlt; lia|].
  destruct (Z.ltb_spec (Z.of_nat (length f)) MIN); [lia|].
  destruct (Z.gtb_spec (Z.of_nat (length f)) MAX); [lia|]. cbn [orb].
  rewrite Z.ltb_irrefl, Nat2Z.id, Nat.ltb_irrefl.
  rewrite drop_0, firstn_all. unfold BinaryReader.advance. simpl.
  assert (∀ log, processPacket_loop zstd methodThrows (length f) log
                   (BinaryReader.mk f (length f)) = Some log) as Hend.
  { intros log. destruct (length f) as [|n] eqn:Hn; [lia|]. simpl.
    unfold BinaryReader.remaining. simpl. rewrite Hn, Nat.sub_diag.
    reflexivity. }
  destruct (routeOf zstd f) as [[| [nested|] |]|] eqn:Hr;
    try done; try apply Hend.
  - destruct (handlerThrows zstd methodThrows f); [done|apply Hend].
  - by destruct (Hroute nested).
Qed.

Example frame16_be_processPacket :
  processPacket None (λ _ _, false) [] frame16_be = Some [frame16_be].
Proof. reflexivity. Qed.

(** C1 (defect of the code).  The spec asks that a valid frame fed to
    [processDataChunk], whole or in pieces, reaches the dispatcher exactly
    once.  The code never gets there: whatever the buffer holds and whatever
    chunk arrives, the call ends (by returning or by an exception of the
    cursor) with the list of dispatched frames unchanged, so no frame is ever
    handed over. *)
Theorem processDataChunk_dispatches_nothing
    (zstd : option (list byte → option (list byte)))
    (a : Assembler) (chunk : list byte) :
  ∃ a', (processDataChunk zstd a chunk = Returned a' ∨
         processDataChunk zstd a chunk = Thrown a') ∧
        dispatched a' = dispatched a.
Proof.
  unfold processDataChunk. destruct chunk as [|b chunk]; [by exists a; auto|].
  unfold parseBuffer.
  destruct (parseBuffer_fuel_ends zstd
              (S (length (internalBuffer
                   (setBuffer (internalBuffer a ++ b :: chunk) a))))
              (setBuffer (internalBuffer a ++ b :: chunk) a))
    as (a' & Hres & Hd & _); [lia|].
  exists a'. split; [exact Hres | exact Hd].
Qed.

(** A buffer whose first word is not the identifier fails the header
    test, whatever its length. *)
Lemma hasHeader_false_word (buf : list byte) (L : Z) :
  Buffer_readUInt32LE buf 0 = Some L →
  L ≠ STREAM_IDENTIFIER →
  hasHeader buf = Some false.
Proof.
  intros HL Hne.
  unfold hasHeader, doesStreamHaveIdentifier, BinaryReader.bind,
    BinaryReader.readUInt32LE, BinaryReader.readInt32,
    BinaryReader.setPosition, BinaryReader.ret, BinaryReader.advance,
    BinaryReader.remaining.
  cbn [BinaryReader.buffer BinaryReader.position]. rewrite Nat.sub_0_r.
  destruct (Nat.ltb_spec (length buf) 8) as [|H8]; [done|].
  rewrite HL. cbn [mbind option_bind fmap option_fmap option_map].
  cbn [BinaryReader.buffer BinaryReader.position].
  destruct (Buffer_readUInt32BE buf (0 + 4)) as [w1|] eqn:Hw1;
    cbn [mbind option_bind fmap option_fmap option_map].
  2:{ apply Buffer_readUInt32BE_None in Hw1. lia. }
  by destruct (Z.eqb_spec L STREAM_IDENTIFIER) as [|_].
Qed.

(** C7 (defect of the code).  The spec asks that a declared length outside
    [6, 1048576] makes the assembler drop all it has buffered.  In
    [#parseBuffer] the header test comes first and reads the same word as
    the length test.  So, with at least four bytes buffered and a length
    word [L] out of range: unless [L] is the stream identifier [0xfffffffe],
    the turn fails the header test, drops four bytes only and the loop goes
    on with the rest of the backlog, as it does for any invalid header; the
    backlog is dropped for the one length [0xfffffffe], when the header
    test passes. *)
Theorem parseBuffer_bad_length_drops_four_bytes
    (zstd : option (list byte → option (list byte))) (a : Assembler) (L : Z) :
  (4 ≤ length (internalBuffer a))%nat →
  Buffer_readUInt32LE (internalBuffer a) 0 = Some L →
  L < MIN ∨ MAX < L →
  (L ≠ STREAM_IDENTIFIER →
   parseBuffer_turn a
   = Continue (mkAssembler (drop 4 (internalBuffer a)) (dispatched a)) ∧
   parseBuffer zstd a
   = parseBuffer zstd (mkAssembler (drop 4 (internalBuffer a)) (dispatched a)))
  ∧
  (hasHeader (internalBuffer a) = Some true →
   L = STREAM_IDENTIFIER ∧
   parseBuffer zstd a = Returned (mkAssembler [] (dispatched a))).
Proof.
  intros H4 HL Hrange. split.
  - intros Hne.
    pose proof (hasHeader_false_word _ _ HL Hne) as Hh.
    assert (parseBuffer_turn a
            = Continue (mkAssembler (drop 4 (internalBuffer a)) (dispatched a)))
      as Hturn by (unfold parseBuffer_turn; by rewrite Hh).
    split; [exact Hturn|].
    rewrite parseBuffer_unfold, Hturn.
    by destruct (Nat.ltb_spec (length (internalBuffer a)) 4); [lia|].
  - intros Hh. split.
    + pose proof (hasHeader_true_word _ Hh) as Hword. congruence.
    + rewrite parseBuffer_unfold.
      destruct (Nat.ltb_spec (length (internalBuffer a)) 4); [lia|].
      unfold parseBuffer_turn. rewrite Hh, HL.
      destruct ((L <? MIN) || (L >? MAX)) eqn:E; [done|].
      apply orb_false_iff in E as [E1 E2].
      apply Z.ltb_ge in E1. rewrite Z.gtb_ltb in E2. apply Z.ltb_ge in E2.
      lia.
Qed.

Lemma parseBuffer_bad_length_drops_four_bytes_witness :
  parseBuffer_turn (mkAssembler buffer_without_identifier [])
  = Continue (mkAssembler [x09; x09; x09] [])
  ∧ parseBuffer None (mkAssembler buffer_without_identifier [])
    = Returned (mkAssembler [x09; x09; x09] [])
  ∧ parseBuffer None (mkAssembler buffer_with_identifier [])
    = Returned (mkAssembler [] []).
Proof.
  destruct (parseBuffer_bad_length_drops_four_bytes None
              (mkAssembler buffer_without_identifier []) 3)
    as [Hshort _]; [simpl; lia|reflexivity|left; reflexivity|].
  destruct Hshort as [Hturn Hrest]; [discriminate|].
  destruct (parseBuffer_bad_length_drops_four_bytes None
              (mkAssembler buffer_with_identifier []) 0xfffffffe)
    as [_ Hid]; [simpl; lia|reflexivity|right; reflexivity|].
  destruct Hid as [_ Hcleared]; [reflexivity|].
  split; [exact Hturn|]. split; [|exact Hcleared].
  rewrite Hrest. reflexivity.
Defined.

(** The same with a length above the range: 2000000, then eight bytes. *)
Example bad_length_2000000_drops_four_bytes :
  Buffer_readUInt32LE buffer_length_2000000 0 = Some 2000000 ∧
  parseBuffer_turn (mkAssembler buffer_length_2000000 [])
  = Continue (mkAssembler (drop 4 buffer_length_2000000) []) ∧
  processDataChunk None (mkAssembler [] []) (buffer_length_2000000 ++ [x09])
  = Returned (mkAssembler [x09] []).
Proof. repeat split; reflexivity. Qed.

(* ===================================================================== *)
(** * Facts about the user record *)
(* ===================================================================== *)

Lemma truthy_true (s : string) : truthy s = true ↔ s ≠ "".
Proof.
  unfold truthy. rewrite negb_true_iff. split.
  - intros H ->. by rewrite String.eqb_refl in H.
  - intros H. by apply String.eqb_neq.
Qed.

Lemma truthy_false (s : string) : truthy s = false ↔ s = "".
Proof.
  unfold truthy. rewrite negb_false_iff. apply String.eqb_eq.
Qed.

(** What [updateSubProfession] does to a record whose profession is known,
    for a skill that points at a sub-profession. *)
Lemma updateSubProfession_effect (now skillId : Z) (u : UserData.t) :
  let sub := getSubProfessionBySkillId skillId in
  let usage' := <[sub := UserData.usageCount u sub + 1]>
                  (UserData.subProfessionUsage u) in
  sub ≠ "" →
  UserData.profession u ≠ "..." →
  UserData.profession u ≠ "" →
  let u' := UserData.updateSubProfession now skillId u in
  UserData.profession u' = UserData.profession u ∧
  UserData.subProfessionUsage u' = usage' ∧
  UserData.subProfession u' =
    if bool_decide (UserData.subProfession u = "") then sub
    else if bool_decide (UserData.subProfession u = sub) then sub
    else if UserData.usageCount u sub + 1
            >=? default 0 (usage' !! UserData.subProfession u) * 2
         then sub
         else UserData.subProfession u.
Proof.
  intros sub usage' Hsub Hp1 Hp2 u'. subst u'.
  unfold UserData.updateSubProfession. fold sub.
  apply truthy_true in Hsub as Hsub'. rewrite Hsub'. simpl.
  apply String.eqb_neq in Hp1. rewrite Hp1.
  apply truthy_true in Hp2. rewrite Hp2. simpl.
  fold usage'.
  destruct (truthy (UserData.subProfession u)) eqn:Et; simpl.
  - apply truthy_true in Et. rewrite (bool_decide_eq_false_2 _ Et).
    destruct (String.eqb_spec (UserData.subProfession u) sub) as [Heq|Hne].
    + rewrite (bool_decide_eq_true_2 _ Heq). simpl. auto.
    + rewrite (bool_decide_eq_false_2 _ Hne).
      assert (UserData.usageCount (UserData.withSubProfessionUsage usage' u)
                sub = UserData.usageCount u sub + 1) as ->.
      { unfold UserData.usageCount at 1. simpl. unfold usage'.
        by rewrite lookup_insert_eq. }
      change (UserData.usageCount (UserData.withSubProfessionUsage usage' u)
                (UserData.subProfession u))
        with (default 0 (usage' !! UserData.subProfession u)).
      by destruct (_ >=? _).
  - apply truthy_false in Et. by rewrite (bool_decide_eq_true_2 _ Et).
Qed.

(** A skill event ends with [updateSubProfession] on a record that has the
    profession, sub-profession and usage counters it came with. *)
Lemma feedEvent_effect (now : Z) (ev : SkillEvent) (u : UserData.t) :
  let sub := getSubProfessionBySkillId (eventSkillId ev) in
  let usage' := <[sub := UserData.usageCount u sub + 1]>
                  (UserData.subProfessionUsage u) in
  sub ≠ "" →
  UserData.profession u ≠ "..." →
  UserData.profession u ≠ "" →
  let u' := feedEvent now ev u in
  UserData.profession u' = UserData.profession u ∧
  UserData.subProfessionUsage u' = usage' ∧
  UserData.subProfession u' =
    if bool_decide (UserData.subProfession u = "") then sub
    else if bool_decide (UserData.subProfession u = sub) then sub
    else if UserData.usageCount u sub + 1
            >=? default 0 (usage' !! UserData.subProfession u) * 2
         then sub
         else UserData.subProfession u.
Proof.
  intros sub usage' Hsub Hp1 Hp2.
  destruct ev; simpl in *;
    unfold UserData.addDamage, UserData.addHealing;
    match goal with
    | |- context [UserData.updateSubProfession ?n ?s ?v] =>
        exact (updateSubProfession_effect n s v Hsub Hp1 Hp2)
    end.
Qed.

Lemma updateSubProfession_skillUsage (now skillId : Z) (u : UserData.t) :
  UserData.skillUsage (UserData.updateSubProfession now skillId u)
  = UserData.skillUsage u.
Proof.
  unfold UserData.updateSubProfession.
  repeat (case_match; simpl; try done).
Qed.

Lemma HEAL_OFFSET_recovers (s : Z) :
  0 ≤ s < HEAL_OFFSET → UserData.baseSkillId (s + HEAL_OFFSET) = s.
Proof.
  intros H. unfold UserData.baseSkillId.
  rewrite Z.rem_mod_nonneg by (unfold HEAL_OFFSET in *; lia).
  rewrite <- (Z.mul_1_l HEAL_OFFSET) at 1.
  rewrite Z.mod_add by (unfold HEAL_OFFSET; lia).
  apply Z.mod_small. lia.
Qed.

(** C3, as the code has it.  Sub-profession hysteresis.  Take a user whose
    profession is set and who has no usage counted yet for the distinct
    candidates A and B nor for the sub-profession shown (so that the counts
    are the ones of the scenario: 1 for A, then 1 and 2 for B).  After one
    skill event for A the sub-profession is A; after one event for B it is
    still A, the counts being equal; after a second event for B it is B. *)
Theorem subProfession_hysteresis
    (now1 now2 now3 : Z) (evA evB evB' : SkillEvent) (u : UserData.t)
    (A B : string) :
  getSubProfessionBySkillId (eventSkillId evA) = A →
  getSubProfessionBySkillId (eventSkillId evB) = B →
  getSubProfessionBySkillId (eventSkillId evB') = B →
  A ≠ "" → B ≠ "" → A ≠ B →
  UserData.profession u ≠ "..." →
  UserData.profession u ≠ "" →
  UserData.usageCount u A = 0 →
  UserData.usageCount u B = 0 →
  UserData.subProfession u = "" ∨
    UserData.usageCount u (UserData.subProfession u) = 0 →
  let u1 := feedEvent now1 evA u in
  let u2 := feedEvent now2 evB u1 in
  let u3 := feedEvent now3 evB' u2 in
  UserData.subProfession u1 = A ∧
  UserData.subProfession u2 = A ∧
  UserData.subProfession u3 = B.
Proof.
  intros HA HB HB' HAne HBne HAB Hp1 Hp2 HcA HcB Hcur u1 u2 u3.
  (* first event: A *)
  destruct (feedEvent_effect now1 evA u) as (Hprof1 & Huse1 & Hsub1);
    [by rewrite HA | done | done |].
  fold u1 in Hprof1, Huse1, Hsub1. rewrite HA, HcA in Huse1, Hsub1.
  assert (UserData.subProfession u1 = A) as HsubA.
  { rewrite Hsub1. repeat case_bool_decide; try done.
    destruct Hcur as [?|Hcur]; [done|].
    rewrite lookup_insert_ne by done.
    unfold UserData.usageCount in Hcur. rewrite Hcur. done. }
  (* second event: B *)
  assert (UserData.usageCount u1 B = 0) as HcB1.
  { unfold UserData.usageCount. rewrite Huse1, lookup_insert_ne by done.
    exact HcB. }
  destruct (feedEvent_effect now2 evB u1) as (Hprof2 & Huse2 & Hsub2);
    [by rewrite HB | congruence | congruence |].
  fold u2 in Hprof2, Huse2, Hsub2.
  rewrite HB, HcB1 in Huse2, Hsub2. rewrite HsubA in Hsub2.
  assert (UserData.subProfession u2 = A) as HsubA2.
  { rewrite Hsub2. rewrite (bool_decide_eq_false_2 _ HAne).
    rewrite (bool_decide_eq_false_2 _ HAB).
    rewrite lookup_insert_ne by done.
    by rewrite Huse1, lookup_insert_eq. }
  (* third event: B again *)
  assert (UserData.usageCount u2 B = 1) as HcB2.
  { unfold UserData.usageCount. by rewrite Huse2, lookup_insert_eq. }
  destruct (feedEvent_effect now3 evB' u2) as (Hprof3 & Huse3 & Hsub3);
    [by rewrite HB' | congruence | congruence |].
  fold u3 in Hprof3, Huse3, Hsub3.
  rewrite HB', HcB2 in Hsub3. rewrite HsubA2 in Hsub3.
  split; [done|]. split; [done|].
  rewrite Hsub3. rewrite (bool_decide_eq_false_2 _ HAne).
  rewrite (bool_decide_eq_false_2 _ HAB).
  rewrite lookup_insert_ne by done.
  rewrite Huse2, lookup_insert_ne by done.
  by rewrite Huse1, lookup_insert_eq.
Qed.

(** The scenario on a user just created with profession "Frost Mage":
    skill 1241 points at "frostbeam", skill 120901 at "icicle". *)
Lemma subProfession_hysteresis_witness :
  let u := UserData.setProfession 0 "Frost Mage" (UserData.new 0 7) in
  let evA := DamageEvent 1241 Water 100 false false false 0 in
  let evB := HealingEvent 120901 Water 50 true false false in
  let u1 := feedEvent 1 evA u in
  let u2 := feedEvent 2 evB u1 in
  let u3 := feedEvent 3 evB u2 in
  UserData.subProfession u1 = "frostbeam" ∧
  UserData.subProfession u2 = "frostbeam" ∧
  UserData.subProfession u3 = "icicle".
Proof.
  apply (subProfession_hysteresis 1 2 3
           (DamageEvent 1241 Water 100 false false false 0)
           (HealingEvent 120901 Water 50 true false false)
           (HealingEvent 120901 Water 50 true false false)
           (UserData.setProfession 0 "Frost Mage" (UserData.new 0 7))
           "frostbeam" "icicle");
    first [reflexivity | discriminate | (left; reflexivity)].
Defined.

(** C3 as the spec words it fails for a user who has already used another
    sub-profession: with "smite" counted three times, one event for
    "frostbeam" (count 1, below twice 3) leaves "smite", and so do the two
    events for "icicle" that follow. *)
Lemma established_subProfession_outlasts_scenario :
  let u1 := feedEvent 4 frostbeam_event smite_user in
  let u2 := feedEvent 5 icicle_event u1 in
  let u3 := feedEvent 6 icicle_event u2 in
  UserData.profession smite_user = "Verdant Oracle" ∧
  getSubProfessionBySkillId (eventSkillId frostbeam_event) = "frostbeam" ∧
  getSubProfessionBySkillId (eventSkillId icicle_event) = "icicle" ∧
  UserData.subProfession u1 = "smite" ∧
  UserData.subProfession u2 = "smite" ∧
  UserData.subProfession u3 = "smite".
Proof. repeat split; reflexivity. Qed.

(** C6.  [addHealing] keeps the statistics of skill [s] under the key
    [s + 1000000000]; for a skill id [0 ≤ s < 1000000000] the remainder that
    [getSkillSummary] takes of that key is [s] again, and the name shown is
    the one of [s]; the healing key differs from the raw id, so the healing
    entry and the damage entry of the same skill do not touch each other. *)
Theorem healing_skill_key_roundtrip
    (skillConfig : Z → option string)
    (now s : Z) (el : DamageElement) (v : Z)
    (isCrit isLucky isCauseLucky : bool) (hpLessen : Z) (u : UserData.t) :
  let healed := UserData.addHealing now s el v isCrit isLucky isCauseLucky u in
  let hit := UserData.addDamage now s el v isCrit isLucky isCauseLucky
               hpLessen u in
  let key := s + HEAL_OFFSET in
  UserData.skillUsage healed !! key
  = Some (StatisticData.clearWindow
            (StatisticData.addRecord now v isCrit isCauseLucky 0
               (default (StatisticData.new HEALING (Some el))
                        (UserData.skillUsage u !! key))))
  ∧ (0 ≤ s < HEAL_OFFSET →
     UserData.baseSkillId key = s ∧
     UserData.displayName <$>
       (UserData.getSkillSummary skillConfig healed !! key)
     = Some (match skillConfig s with
             | Some n => UserData.Named n
             | None => UserData.RawId s
             end))
  ∧ key ≠ s
  ∧ UserData.skillUsage healed !! s = UserData.skillUsage u !! s
  ∧ UserData.skillUsage hit !! key = UserData.skillUsage u !! key.
Proof.
  intros healed hit key.
  assert (key ≠ s) as Hne by (unfold key, HEAL_OFFSET; lia).
  assert (UserData.skillUsage healed !! key
          = Some (StatisticData.clearWindow
                    (StatisticData.addRecord now v isCrit isCauseLucky 0
                       (default (StatisticData.new HEALING (Some el))
                          (UserData.skillUsage u !! key))))) as Hkey.
  { unfold healed, UserData.addHealing.
    rewrite updateSubProfession_skillUsage. simpl.
    unfold UserData.recordSkill. by rewrite lookup_insert_eq. }
  split; [exact Hkey|]. split; [|split; [exact Hne|split]].
  - intros Hs. pose proof (HEAL_OFFSET_recovers s Hs) as Hbase.
    split; [exact Hbase|].
    unfold UserData.getSkillSummary. rewrite map_lookup_imap, Hkey.
    unfold UserData.skillEntry. cbn -[UserData.baseSkillId Z.add].
    unfold key. by rewrite Hbase.
  - unfold healed, UserData.addHealing.
    rewrite updateSubProfession_skillUsage. simpl.
    unfold UserData.recordSkill. by rewrite lookup_insert_ne.
  - unfold hit, UserData.addDamage.
    rewrite updateSubProfession_skillUsage. simpl.
    unfold UserData.recordSkill. by rewrite lookup_insert_ne.
Qed.

Lemma healing_skill_key_roundtrip_witness :
  UserData.baseSkillId (2406 + HEAL_OFFSET) = 2406.
Proof.
  refine (proj1 (proj1 (proj2 (healing_skill_key_roundtrip
            (λ _, None) 0 2406 Light 300 false false false 0
            (UserData.new 0 7))) _)).
  unfold HEAL_OFFSET. lia.
Defined.

(* ===================================================================== *)
(** * Facts about the store *)
(* ===================================================================== *)

Lemma liveGraveDisjoint_alt (st : Store) :
  liveGraveDisjoint st ↔ users st ##ₘ userGraveyard st.
Proof. unfold liveGraveDisjoint. by rewrite map_disjoint_alt. Qed.

(** After [getUser] the record returned is the live one under [uid]; the
    graveyard has lost at most that uid, the live map has gained at most that
    uid. *)
Lemma getUser_spec (now uid : Z) (st : Store) :
  let st' := (getUser now uid st).1 in
  let u := (getUser now uid st).2 in
  users st' = <[uid := u]> (users st) ∧
  userGraveyard st' =
    match users st !! uid with
    | Some _ => userGraveyard st
    | None => delete uid (userGraveyard st)
    end ∧
  users st' !! uid = Some u.
Proof.
  unfold getUser.
  destruct (users st !! uid) as [u|] eqn:Hu; simpl.
  - by rewrite insert_id.
  - destruct (userGraveyard st !! uid) as [u|] eqn:Hg; simpl.
    + by rewrite lookup_insert_eq.
    + rewrite lookup_insert_eq. by rewrite delete_id.
Qed.

Lemma getUser_disjoint (now uid : Z) (st : Store) :
  liveGraveDisjoint st →
  liveGraveDisjoint (getUser now uid st).1 ∧
  userGraveyard (getUser now uid st).1 !! uid = None.
Proof.
  intros Hinv. destruct (getUser_spec now uid st) as (Hu & Hg & _).
  rewrite liveGraveDisjoint_alt in *. rewrite Hu, Hg.
  destruct (users st !! uid) as [u|] eqn:Hl.
  - assert (userGraveyard st !! uid = None) as Hnone
      by (by eapply map_disjoint_Some_l).
    split; [|done]. by apply map_disjoint_insert_l_2.
  - split; [|by rewrite lookup_delete_eq].
    apply map_disjoint_insert_l_2; [by rewrite lookup_delete_eq|].
    by apply map_disjoint_delete_r.
Qed.

Lemma withUser_disjoint (now uid : Z) (f : UserData.t → UserData.t)
    (st : Store) :
  liveGraveDisjoint st → liveGraveDisjoint (withUser now uid f st).
Proof.
  intros Hinv. unfold withUser.
  destruct (getUser_disjoint now uid st Hinv) as [Hd Hn].
  destruct (getUser now uid st) as [st' u]. simpl in *.
  rewrite liveGraveDisjoint_alt in *. simpl.
  by apply map_disjoint_insert_l_2.
Qed.

Lemma retire_disjoint (now : Z) (st : Store) (e : Z * UserData.t) :
  liveGraveDisjoint st → liveGraveDisjoint (retire now st e).
Proof.
  intros Hinv. destruct e as [uid user]. unfold retire.
  case_match; [|done].
  rewrite liveGraveDisjoint_alt in *. simpl.
  apply map_disjoint_insert_r_2; [by rewrite lookup_delete_eq|].
  by apply map_disjoint_delete_l.
Qed.

Lemma cleanUpInactiveUsers_disjoint (now : Z) (st : Store) :
  liveGraveDisjoint st → liveGraveDisjoint (cleanUpInactiveUsers now st).
Proof.
  unfold cleanUpInactiveUsers.
  generalize (map_to_list (users st)) as l. intros l. revert st.
  induction l as [|e l IH]; intros st Hinv; simpl; [done|].
  apply IH. by apply retire_disjoint.
Qed.

Section StoreFacts.

Variable skillConfig : Z → option string.

Lemma finalize_users (now : Z) (reasonEnd : string) (st : Store) :
  users (_finalizeAndPersistSession skillConfig now reasonEnd st) = users st
  ∧ userGraveyard (_finalizeAndPersistSession skillConfig now reasonEnd st)
    = userGraveyard st.
Proof.
  unfold _finalizeAndPersistSession.
  destruct (currentSession st); [|done].
  by destruct (qualifyingPlayers skillConfig st).
Qed.

Lemma clearAll_disjoint (now : Z) (persist : bool) (reasonEnd : string)
    (st : Store) :
  liveGraveDisjoint (clearAll skillConfig now persist reasonEnd st).
Proof. intros uid. left. unfold clearAll. simpl. apply lookup_empty. Qed.

Lemma applyOp_disjoint (now : Z) (op : StoreOp) (st : Store) :
  liveGraveDisjoint st → liveGraveDisjoint (applyOp skillConfig now op st).
Proof.
  intros Hinv. destruct op; simpl.
  - by apply getUser_disjoint.
  - by apply cleanUpInactiveUsers_disjoint.
  - apply clearAll_disjoint.
  - unfold addDamage. repeat case_match; try done.
    by apply withUser_disjoint.
  - unfold addHealing. repeat case_match; try done.
    by apply withUser_disjoint.
  - unfold addTakenDamage. case_match; [done|].
    by apply withUser_disjoint.
  - unfold setName.
    pose proof (withUser_disjoint now uid (UserData.setName now name) st Hinv)
      as Hw.
    pose proof (getUser_disjoint now uid st Hinv) as [Hg _].
    unfold withUser in Hw. destruct (getUser now uid st) as [st' u].
    by case_match.
  - unfold setProfession. case_match; [done|].
    pose proof (withUser_disjoint now uid
                  (UserData.setProfession now profession) st Hinv) as Hw.
    pose proof (getUser_disjoint now uid st Hinv) as [Hg _].
    unfold withUser in Hw. destruct (getUser now uid st) as [st' u].
    by case_match.
  - unfold setFightPoint.
    pose proof (withUser_disjoint now uid
                  (UserData.setFightPoint now fightPoint) st Hinv) as Hw.
    pose proof (getUser_disjoint now uid st Hinv) as [Hg _].
    unfold withUser in Hw. destruct (getUser now uid st) as [st' u].
    by case_match.
  - unfold setAttrKV.
    pose proof (withUser_disjoint now uid (UserData.putAttr key value) st
                  Hinv) as Hw.
    by repeat case_match.
Qed.

End StoreFacts.

(** C8.  While [config.IS_PAUSED] is set, [addDamage], [addHealing] and
    [addTakenDamage] leave the whole store as it was: no record is created
    and no statistic, per-skill entry, taken-damage total or sub-profession
    counter changes. *)
Theorem paused_store_unchanged
    (st : Store) (now uid skillId : Z) (element : DamageElement) (value : Z)
    (isCrit isLucky isCauseLucky isDead : bool) (hpLessenValue targetUid : Z) :
  IS_PAUSED (config st) = true →
  addDamage now uid skillId element value isCrit isLucky isCauseLucky
    hpLessenValue targetUid st = st
  ∧ addHealing now uid skillId element value isCrit isLucky isCauseLucky
      targetUid st = st
  ∧ addTakenDamage now uid value isDead st = st.
Proof.
  intros Hp. unfold addDamage, addHealing, addTakenDamage. by rewrite Hp.
Qed.

Lemma paused_store_unchanged_witness :
  let st := newStore 0 (mkConfig true false) in
  addDamage 5 7 1241 Water 100 true false false 0 75 st = st
  ∧ addHealing 5 7 1241 Water 100 true false false 75 st = st
  ∧ addTakenDamage 5 7 100 true st = st.
Proof.
  apply (paused_store_unchanged (newStore 0 (mkConfig true false))
           5 7 1241 Water 100 true false false true 0 75).
  reflexivity.
Defined.

(** C9.  [getUser] asked twice for the same uid, with nothing in between,
    gives the same record the second time and leaves the store as the first
    call left it, whether the first call found the user live, revived it
    from the graveyard or created it from the caches. *)
Theorem getUser_idempotent (now1 now2 uid : Z) (st : Store) :
  getUser now2 uid (getUser now1 uid st).1 = getUser now1 uid st.
Proof.
  unfold getUser at 2 3.
  destruct (users st !! uid) as [u|] eqn:Hu; simpl.
  { unfold getUser. by rewrite Hu. }
  destruct (userGraveyard st !! uid) as [u|] eqn:Hg; simpl;
    unfold getUser; simpl; by rewrite lookup_insert_eq.
Qed.

Example getUser_twice_revived :
  let u := UserData.addTakenDamage 1 40 false (UserData.new 0 7) in
  let st := set_userGraveyard {[ 7 := u ]} (newStore 0 (mkConfig false false)) in
  (getUser 2 7 st).2 = u ∧ (getUser 3 7 (getUser 2 7 st).1).2 = u.
Proof. split; reflexivity. Qed.

(** The entries the snapshots run over are the users [_getAnyUser] finds,
    each uid once. *)
Lemma entries_getAnyUser (st : Store) (uid : Z) (u : UserData.t) :
  (uid, u) ∈ _getAllUserEntries st ↔ _getAnyUser uid st = Some u.
Proof.
  unfold _getAllUserEntries, _getAnyUser.
  rewrite elem_of_app, list_elem_of_filter, !elem_of_map_to_list. simpl.
  destruct (users st !! uid) as [v|]; split.
  - intros [H|[H _]]; [exact H|discriminate].
  - intros H. by left.
  - intros [H|[_ H]]; [discriminate|exact H].
  - intros H. by right.
Qed.

Lemma entries_NoDup (st : Store) : NoDup (_getAllUserEntries st).*1.
Proof.
  unfold _getAllUserEntries. rewrite fmap_app. apply NoDup_app.
  split; [apply NoDup_fst_map_to_list|]. split.
  - intros uid [[uid' u] [-> Hin]]%list_elem_of_fmap
                [[uid'' v] [Heq Hin']]%list_elem_of_fmap.
    simpl in *. subst uid''.
    apply list_elem_of_filter in Hin' as [Hnone _]. simpl in Hnone.
    apply elem_of_map_to_list in Hin. congruence.
  - apply (sublist_NoDup _ (map_to_list (userGraveyard st)).*1).
    + apply NoDup_fst_map_to_list.
    + apply fmap_sublist, sublist_filter.
Qed.

Lemma omap_all_None {A B} (f : A → option B) (l : list A) :
  (∀ x, x ∈ l → f x = None) → omap f l = [].
Proof.
  induction l as [|x l IH]; intros H; simpl; [done|].
  rewrite (H x) by left. apply IH. intros y Hy. apply H. by right.
Qed.

Lemma omap_only_one {A B} (f : Z * A → option B) (l : list (Z * A))
    (p : Z) (u : A) :
  NoDup l.*1 →
  (p, u) ∈ l →
  is_Some (f (p, u)) →
  (∀ e, e ∈ l → e.1 ≠ p → f e = None) →
  length (omap f l) = 1%nat.
Proof.
  induction l as [|e l IH]; intros Hnd Hin Hsome Hothers.
  { by apply elem_of_nil in Hin. }
  rewrite fmap_cons in Hnd. apply NoDup_cons in Hnd as [Hnotin Hnd].
  apply elem_of_cons in Hin as [<-|Hin]; simpl.
  - destruct Hsome as [b ->]. simpl. f_equal.
    rewrite omap_all_None; [done|].
    intros e' He'. apply Hothers; [by right|].
    intros Heq. apply Hnotin. simpl. rewrite <- Heq.
    by apply (list_elem_of_fmap_2 fst l e').
  - rewrite (Hothers e); [|by left|].
    + apply IH; try done. intros e' He'. apply Hothers. by right.
    + intros Heq. apply Hnotin. rewrite Heq.
      by apply (list_elem_of_fmap_2 fst l (p, u)).
Qed.

Section SessionFacts.

Variable skillConfig : Z → option string.

Lemma buildPlayerSnapshot_None (uid : Z) (u : UserData.t) (st : Store) :
  _getAnyUser uid st = Some u →
  damageTotal u ≤ CONTRIBUTION_THRESHOLD →
  healingTotal u ≤ CONTRIBUTION_THRESHOLD →
  _buildPlayerSnapshot skillConfig uid st = None.
Proof.
  intros Hu Hd Hh. unfold _buildPlayerSnapshot. rewrite Hu. simpl.
  unfold damageTotal, healingTotal in *.
  destruct (Z.leb_spec
              (StatisticData.total (StatisticData.stats (UserData.damageStats u)))
              CONTRIBUTION_THRESHOLD); [|lia].
  destruct (Z.leb_spec
              (StatisticData.total (StatisticData.stats (UserData.healingStats u)))
              CONTRIBUTION_THRESHOLD); [|lia].
  done.
Qed.

Lemma buildPlayerSnapshot_Some (uid : Z) (u : UserData.t) (st : Store) :
  _getAnyUser uid st = Some u →
  CONTRIBUTION_THRESHOLD < damageTotal u ∨
    CONTRIBUTION_THRESHOLD < healingTotal u →
  is_Some (_buildPlayerSnapshot skillConfig uid st).
Proof.
  intros Hu Hq. unfold _buildPlayerSnapshot. rewrite Hu. simpl.
  unfold damageTotal, healingTotal in *.
  destruct (Z.leb_spec
              (StatisticData.total (StatisticData.stats (UserData.damageStats u)))
              CONTRIBUTION_THRESHOLD);
    destruct (Z.leb_spec
                (StatisticData.total
                   (StatisticData.stats (UserData.healingStats u)))
                CONTRIBUTION_THRESHOLD); simpl; eauto; lia.
Qed.

(** What finalizing does in general: without an open session nothing; with
    one, the session is dropped, and [Sessions.addSession] is called once,
    with the number of qualifying players as [partySize], when there is at
    least one of them. *)
Lemma finalize_effect (now : Z) (reasonEnd : string) (st : Store) :
  let st' := _finalizeAndPersistSession skillConfig now reasonEnd st in
  match currentSession st with
  | None => st' = st
  | Some _ =>
      currentSession st' = None ∧
      match qualifyingPlayers skillConfig st with
      | [] => persistedSessions st' = persistedSessions st
      | players =>
          ∃ record,
            persistedSessions st' = persistedSessions st ++ [record] ∧
            partySize record = length players ∧
            snapshot_players record = players ∧
            ss_reasonEnd record = reasonEnd
      end
  end.
Proof.
  unfold _finalizeAndPersistSession.
  destruct (currentSession st) as [cur|]; [|done].
  destruct (qualifyingPlayers skillConfig st) as [|pl pls]; [done|].
  split; [done|]. eexists. by repeat split.
Qed.

(** C4, as the code has it.  The persistence gate of
    [_finalizeAndPersistSession].  When every player of the epoch, live
    or in the graveyard, has at most 5000 damage and at most 5000 healing,
    [Sessions.addSession] is not called.  When a session is open and one
    player has more than 5000 in damage or in healing while every other
    player has at most 5000 of each, [Sessions.addSession] is called
    exactly once, with a record whose [partySize] is 1. *)
Theorem session_persistence_gate (now : Z) (reasonEnd : string)
    (st : Store) :
  let st' := _finalizeAndPersistSession skillConfig now reasonEnd st in
  ((∀ uid u, _getAnyUser uid st = Some u →
             damageTotal u ≤ 5000 ∧ healingTotal u ≤ 5000) →
   persistedSessions st' = persistedSessions st)
  ∧
  (∀ cur p up,
     currentSession st = Some cur →
     _getAnyUser p st = Some up →
     5000 < damageTotal up ∨ 5000 < healingTotal up →
     (∀ uid u, uid ≠ p → _getAnyUser uid st = Some u →
               damageTotal u ≤ 5000 ∧ healingTotal u ≤ 5000) →
     ∃ record, persistedSessions st' = persistedSessions st ++ [record] ∧
               partySize record = 1%nat).
Proof.
  intros st'. subst st'. unfold _finalizeAndPersistSession. split.
  - intros Hall. destruct (currentSession st) as [cur|]; [|done].
    assert (qualifyingPlayers skillConfig st = []) as ->; [|done].
    apply omap_all_None. intros [uid u] Hin. simpl.
    apply entries_getAnyUser in Hin.
    destruct (Hall uid u Hin).
    by eapply buildPlayerSnapshot_None.
  - intros cur p up Hcur Hp Hdmg Hothers. rewrite Hcur.
    assert (length (qualifyingPlayers skillConfig st) = 1%nat) as Hlen.
    { unfold qualifyingPlayers.
      apply (omap_only_one _ _ p up).
      - apply entries_NoDup.
      - by apply entries_getAnyUser.
      - simpl. by eapply buildPlayerSnapshot_Some.
      - intros [uid u] Hin Hne. simpl in *.
        apply entries_getAnyUser in Hin.
        destruct (Hothers uid u Hne Hin).
        by eapply buildPlayerSnapshot_None. }
    destruct (qualifyingPlayers skillConfig st) as [|pl pls] eqn:Hq;
      [done|].
    eexists. split; [reflexivity|]. simpl. exact Hlen.
Qed.

End SessionFacts.

(* ===================================================================== *)
(** * Facts about the crediting of combat events *)
(* ===================================================================== *)

Lemma statsOf_updateSubProfession (now skillId : Z) (u : UserData.t) :
  statsOf (UserData.updateSubProfession now skillId u) = statsOf u.
Proof.
  unfold UserData.updateSubProfession.
  repeat (case_match; simpl; try done).
Qed.

Lemma statsOf_setProfession (now : Z) (p : string) (u : UserData.t) :
  statsOf (UserData.setProfession now p u) = statsOf u.
Proof. unfold UserData.setProfession. by case_match. Qed.

Lemma statsOf_setName (now : Z) (n : string) (u : UserData.t) :
  statsOf (UserData.setName now n u) = statsOf u.
Proof. done. Qed.

Lemma statsOf_setSubProfession (now : Z) (s : string) (u : UserData.t) :
  statsOf (UserData.setSubProfession now s u) = statsOf u.
Proof. done. Qed.

Lemma statsOf_setFightPoint (now fp : Z) (u : UserData.t) :
  statsOf (UserData.setFightPoint now fp u) = statsOf u.
Proof. done. Qed.

Lemma statsOf_setAttrKV (now : Z) (k : string) (v : Z) (u : UserData.t) :
  statsOf (UserData.setAttrKV now k v u) = statsOf u.
Proof. done. Qed.

Lemma statsOf_putAttr (k : string) (v : Z) (u : UserData.t) :
  statsOf (UserData.putAttr k v u) = statsOf u.
Proof. done. Qed.

Create Rewrite HintDb stats_frame.
Hint Rewrite statsOf_updateSubProfession statsOf_setProfession
  statsOf_setName statsOf_setSubProfession statsOf_setFightPoint
  statsOf_setAttrKV statsOf_putAttr : stats_frame.

Lemma statsOf_hydrate (now : Z) (c : option CacheEntry) (hp : option Z)
    (u : UserData.t) :
  statsOf (hydrate now c hp u) = statsOf u.
Proof.
  unfold hydrate.
  destruct c as [[n p s fp m]|], hp; simpl;
    repeat case_match; by autorewrite with stats_frame.
Qed.

Lemma userOrNew_ext (uid : Z) (st1 st2 : Store) :
  users st1 = users st2 → userGraveyard st1 = userGraveyard st2 →
  userOrNew uid st1 = userOrNew uid st2.
Proof. unfold userOrNew, _getAnyUser. by intros -> ->. Qed.

Lemma userStats_ext (uid : Z) (st1 st2 : Store) :
  users st1 = users st2 → userGraveyard st1 = userGraveyard st2 →
  userStats uid st1 = userStats uid st2.
Proof. unfold userStats. intros H1 H2. by rewrite (userOrNew_ext _ _ _ H1 H2). Qed.

(** [getUser] may create or revive a record, but the statistics the store
    holds for any uid are the same after it, and the record it returns
    carries the statistics held for [uid]. *)
Lemma getUser_userStats (now uid uid' : Z) (st : Store) :
  userStats uid' (getUser now uid st).1 = userStats uid' st ∧
  statsOf (getUser now uid st).2 = userStats uid st.
Proof.
  unfold userStats, userOrNew, _getAnyUser, getUser.
  destruct (users st !! uid) as [u|] eqn:Hu; simpl; [done|].
  destruct (userGraveyard st !! uid) as [u|] eqn:Hg; simpl.
  - split; [|done].
    destruct (decide (uid' = uid)) as [->|Hne].
    + by rewrite lookup_insert_eq, Hu, Hg.
    + by rewrite lookup_insert_ne, lookup_delete_ne.
  - split; [|by rewrite statsOf_hydrate].
    destruct (decide (uid' = uid)) as [->|Hne].
    + rewrite lookup_insert_eq, Hu, Hg. simpl. by rewrite statsOf_hydrate.
    + by rewrite lookup_insert_ne.
Qed.

Lemma withUser_userStats (now uid uid' : Z) (f : UserData.t → UserData.t)
    (st : Store) :
  userStats uid' (withUser now uid f st)
  = if decide (uid' = uid) then statsOf (f (getUser now uid st).2)
    else userStats uid' st.
Proof.
  unfold withUser.
  destruct (getUser_userStats now uid uid' st) as [H1 _].
  destruct (getUser_spec now uid st) as (_ & _ & Hlive).
  destruct (getUser now uid st) as [st' u]. simpl in *.
  unfold userStats, userOrNew, _getAnyUser in *. simpl.
  case_decide as Heq.
  - subst. by rewrite lookup_insert_eq.
  - by rewrite lookup_insert_ne.
Qed.

(** An update of the record that leaves its statistics alone leaves the
    statistics of the store alone. *)
Lemma withUser_userStats_same (now uid uid' : Z)
    (f : UserData.t → UserData.t) (st : Store) :
  (∀ u, statsOf (f u) = statsOf u) →
  userStats uid' (withUser now uid f st) = userStats uid' st.
Proof.
  intros Hf. rewrite withUser_userStats. case_decide as Heq; [|done].
  rewrite Hf, Heq. exact (proj2 (getUser_userStats now uid uid st)).
Qed.

Lemma setAttrKV_userStats (now uid uid' : Z) (key : string) (value : Z)
    (st : Store) :
  userStats uid' (setAttrKV now uid key value st) = userStats uid' st.
Proof.
  unfold setAttrKV.
  rewrite <- (withUser_userStats_same now uid uid' (UserData.putAttr key value) st)
    by done.
  apply userStats_ext; by repeat case_match.
Qed.

Lemma setName_userStats (now uid uid' : Z) (name : string) (st : Store) :
  userStats uid' (setName now uid name st) = userStats uid' st.
Proof.
  unfold setName.
  pose proof (withUser_userStats_same now uid uid' (UserData.setName now name)
                st (λ _, eq_refl)) as Hw.
  destruct (getUser_userStats now uid uid' st) as [Hg _].
  unfold withUser in Hw. destruct (getUser now uid st) as [st' u].
  case_match; [|done]. rewrite <- Hw. by apply userStats_ext.
Qed.

Lemma setFightPoint_userStats (now uid uid' fp : Z) (st : Store) :
  userStats uid' (setFightPoint now uid fp st) = userStats uid' st.
Proof.
  unfold setFightPoint.
  pose proof (withUser_userStats_same now uid uid'
                (UserData.setFightPoint now fp) st (λ _, eq_refl)) as Hw.
  destruct (getUser_userStats now uid uid' st) as [Hg _].
  unfold withUser in Hw. destruct (getUser now uid st) as [st' u].
  case_match; [|done]. rewrite <- Hw. by apply userStats_ext.
Qed.

Lemma setProfession_userStats (now uid uid' : Z) (p : string) (st : Store) :
  userStats uid' (setProfession now uid p st) = userStats uid' st.
Proof.
  unfold setProfession. case_match; [done|].
  pose proof (withUser_userStats_same now uid uid'
                (UserData.setProfession now p) st
                (statsOf_setProfession now p)) as Hw.
  destruct (getUser_userStats now uid uid' st) as [Hg _].
  unfold withUser in Hw. destruct (getUser now uid st) as [st' u].
  case_match; [|done]. rewrite <- Hw. by apply userStats_ext.
Qed.

Lemma addLog_userStats (now uid' : Z) (st : Store) :
  userStats uid' (addLog now st) = userStats uid' st.
Proof. unfold addLog. by case_match. Qed.

(** What the three crediting operations do to the statistics of the store. *)
Lemma addTakenDamage_userStats (now uid uid' damage : Z) (isDead : bool)
    (st : Store) :
  userStats uid' (addTakenDamage now uid damage isDead st)
  = if IS_PAUSED (config st) then userStats uid' st
    else if decide (uid' = uid)
         then statsOf (UserData.addTakenDamage now damage isDead
                         (getUser now uid st).2)
         else userStats uid' st.
Proof.
  unfold addTakenDamage. case_match; [done|]. apply withUser_userStats.
Qed.

Lemma addHealing_userStats (now uid uid' skillId : Z) (el : DamageElement)
    (v : Z) (c l cl : bool) (targetUid : Z) (st : Store) :
  userStats uid' (addHealing now uid skillId el v c l cl targetUid st)
  = if IS_PAUSED (config st) || (uid =? 0) then userStats uid' st
    else if decide (uid' = uid)
         then statsOf (UserData.addHealing now skillId el v c l cl
                         (getUser now uid st).2)
         else userStats uid' st.
Proof.
  unfold addHealing. destruct (IS_PAUSED (config st)); [done|]. simpl.
  destruct (uid =? 0); simpl; [done|]. apply withUser_userStats.
Qed.

Lemma healingStats_updateSubProfession (now skillId : Z) (u : UserData.t) :
  UserData.healingStats (UserData.updateSubProfession now skillId u)
  = UserData.healingStats u.
Proof.
  pose proof (statsOf_updateSubProfession now skillId u) as H.
  unfold statsOf in H. congruence.
Qed.

Lemma damageStats_updateSubProfession (now skillId : Z) (u : UserData.t) :
  UserData.damageStats (UserData.updateSubProfession now skillId u)
  = UserData.damageStats u.
Proof.
  pose proof (statsOf_updateSubProfession now skillId u) as H.
  unfold statsOf in H. congruence.
Qed.

Lemma takenDamage_updateSubProfession (now skillId : Z) (u : UserData.t) :
  UserData.takenDamage (UserData.updateSubProfession now skillId u)
  = UserData.takenDamage u.
Proof.
  pose proof (statsOf_updateSubProfession now skillId u) as H.
  unfold statsOf in H. congruence.
Qed.

Lemma healingTotal_addHealing (now skillId : Z) (el : DamageElement) (v : Z)
    (c l cl : bool) (u : UserData.t) :
  healingTotal (UserData.addHealing now skillId el v c l cl u)
  = healingTotal u + v.
Proof.
  unfold UserData.addHealing, healingTotal. cbv zeta.
  rewrite healingStats_updateSubProfession. simpl.
  by destruct c, l.
Qed.

Lemma damageStats_addHealing (now skillId : Z) (el : DamageElement) (v : Z)
    (c l cl : bool) (u : UserData.t) :
  UserData.damageStats (UserData.addHealing now skillId el v c l cl u)
  = UserData.damageStats u.
Proof.
  unfold UserData.addHealing. cbv zeta.
  by rewrite damageStats_updateSubProfession.
Qed.

Lemma takenDamage_addHealing (now skillId : Z) (el : DamageElement) (v : Z)
    (c l cl : bool) (u : UserData.t) :
  UserData.takenDamage (UserData.addHealing now skillId el v c l cl u)
  = UserData.takenDamage u.
Proof.
  unfold UserData.addHealing. cbv zeta.
  by rewrite takenDamage_updateSubProfession.
Qed.

Lemma isUuidMonster_not_player (uuid : Z) :
  isUuidMonster uuid = true → isUuidPlayer uuid = false.
Proof.
  unfold isUuidMonster, isUuidPlayer. intros H%Z.eqb_eq. by rewrite H.
Qed.

Lemma userStats_healingDone (uid : Z) (st : Store) (u : UserData.t) :
  userStats uid st = statsOf u → healingDone uid st = healingTotal u.
Proof.
  unfold userStats, statsOf, healingDone, healingTotal. congruence.
Qed.

Lemma userStats_damageDealt (uid : Z) (st : Store) (u : UserData.t) :
  userStats uid st = statsOf u → damageDealt uid st = damageTotal u.
Proof.
  unfold userStats, statsOf, damageDealt, damageTotal. congruence.
Qed.

Lemma userStats_damageTaken (uid : Z) (st : Store) (u : UserData.t) :
  userStats uid st = statsOf u → damageTaken uid st = UserData.takenDamage u.
Proof. unfold userStats, statsOf, damageTaken. congruence. Qed.

Section CreditFacts.

Variable pb_string : list byte → option string.
Variable pb_int32 : list byte → option Z.
Variable monsterNames : Z → option string.
Variable EDamageType_Heal : option Z.

Local Abbreviation isHeal := (isHeal EDamageType_Heal).
Local Abbreviation creditEvent := (creditEvent EDamageType_Heal).
Local Abbreviation processDamage := (processDamage EDamageType_Heal).
Local Abbreviation processAoiSyncDelta :=
  (processAoiSyncDelta pb_string pb_int32 monsterNames EDamageType_Heal).

(** Writing the log line changes no statistics. *)
Lemma logEvent_userStats (now : Z) (tp : bool) (targetUid uid : Z)
    (d : SkillDamage) (st : Store) :
  userStats uid (logEvent now tp targetUid d st) = userStats uid st.
Proof.
  unfold logEvent. cbv zeta. rewrite addLog_userStats.
  destruct tp, (isUuidPlayer (default 0 (attackerOf d)));
    by rewrite ?(proj1 (getUser_userStats _ _ _ _)).
Qed.

Lemma processDamage_userStats (now : Z) (tp : bool) (targetUid uid : Z)
    (d : SkillDamage) (st : Store) :
  userStats uid (processDamage now tp targetUid st d)
  = if skipped d then userStats uid st
    else userStats uid (creditEvent now tp targetUid d st).
Proof.
  unfold processDamage. destruct (skipped d); [done|].
  apply logEvent_userStats.
Qed.

(** A heal on a target that is not a player, and damage by an attacker
    that is not a player, change no statistics. *)
Lemma creditEvent_other_frame (now targetUid uid : Z) (d : SkillDamage)
    (st : Store) :
  isHeal d = true ∨ isUuidPlayer (default 0 (attackerOf d)) = false →
  userStats uid (creditEvent now false targetUid d st) = userStats uid st.
Proof.
  intros H. unfold creditEvent. cbv zeta.
  assert (negb (isHeal d) && isUuidPlayer (default 0 (attackerOf d)) = false)
    as -> by (destruct H as [-> | ->]; [done | apply andb_false_r]).
  by destruct (IsDead d).
Qed.

(** On a player target, an event that is not a heal goes through
    [addTakenDamage]. *)
Lemma creditEvent_player_damage (now targetUid uid : Z) (d : SkillDamage)
    (st : Store) :
  isHeal d = false →
  userStats uid (creditEvent now true targetUid d st)
  = userStats uid (addTakenDamage now targetUid (magnitude d) (IsDead d) st).
Proof.
  intros H. unfold creditEvent. cbv zeta. rewrite H.
  destruct (IsDead d); [|done]. apply setAttrKV_userStats.
Qed.

(** On a player target, a heal goes through [addHealing], with uid 0 for
    an attacker that is not a player. *)
Lemma creditEvent_player_heal (now targetUid uid : Z) (d : SkillDamage)
    (st : Store) :
  isHeal d = true →
  let attackerUuid := default 0 (attackerOf d) in
  userStats uid (creditEvent now true targetUid d st)
  = userStats uid
      (addHealing now
         (if isUuidPlayer attackerUuid then uuidToUid attackerUuid else 0)
         (OwnerId d) (getDamageElement (Property d)) (magnitude d)
         (isCrit d) (isLucky d) (isCauseLucky d) targetUid st).
Proof.
  intros H. unfold creditEvent. cbv zeta. rewrite H.
  destruct (IsDead d); [|done]. apply setAttrKV_userStats.
Qed.

Lemma playerAttr_userStats (now playerUid uid : Z) (a : Attr) (st : Store) :
  userStats uid (resultStore (playerAttr pb_string pb_int32 now playerUid a st))
  = userStats uid st.
Proof.
  unfold playerAttr, decodeInt.
  repeat case_match; simpl;
    rewrite ?setAttrKV_userStats, ?setName_userStats,
      ?setProfession_userStats, ?setFightPoint_userStats; done.
Qed.

Lemma processPlayerAttrs_userStats (now playerUid uid : Z)
    (attrs : list Attr) (st : Store) :
  userStats uid
    (resultStore (processPlayerAttrs pb_string pb_int32 now playerUid attrs st))
  = userStats uid st.
Proof.
  revert st. induction attrs as [|a attrs IH]; intros st; simpl; [done|].
  pose proof (playerAttr_userStats now playerUid uid a st) as Ha.
  destruct (playerAttr pb_string pb_int32 now playerUid a st) as [st'|st'];
    simpl in *; [|done].
  by rewrite IH.
Qed.

Lemma enemyAttr_userStats (enemyUid uid : Z) (a : Attr) (st : Store) :
  userStats uid
    (resultStore (enemyAttr pb_string pb_int32 monsterNames enemyUid a st))
  = userStats uid st.
Proof.
  unfold enemyAttr, decodeInt. by repeat case_match.
Qed.

Lemma processEnemyAttrs_userStats (enemyUid uid : Z) (attrs : list Attr)
    (st : Store) :
  userStats uid
    (resultStore
       (processEnemyAttrs pb_string pb_int32 monsterNames enemyUid attrs st))
  = userStats uid st.
Proof.
  revert st. induction attrs as [|a attrs IH]; intros st; simpl; [done|].
  pose proof (enemyAttr_userStats enemyUid uid a st) as Ha.
  destruct (enemyAttr pb_string pb_int32 monsterNames enemyUid a st)
    as [st'|st']; simpl in *; [|done].
  by rewrite IH.
Qed.

(** The attributes of a delta change no statistics, whether they are read
    to the end or cut short by a decoder that throws. *)
Lemma processAttrs_userStats (now targetUuid uid : Z) (attrs : list Attr)
    (st : Store) :
  userStats uid
    (resultStore
       (processAttrs pb_string pb_int32 monsterNames now targetUuid attrs st))
  = userStats uid st.
Proof.
  unfold processAttrs. destruct attrs as [|a attrs]; [done|].
  destruct (isUuidPlayer targetUuid); [apply processPlayerAttrs_userStats|].
  destruct (isUuidMonster targetUuid); [apply processEnemyAttrs_userStats|].
  done.
Qed.

Lemma processDamage_other_frame (now targetUid uid : Z) (d : SkillDamage)
    (st : Store) :
  isHeal d = true ∨ isUuidPlayer (default 0 (attackerOf d)) = false →
  userStats uid (processDamage now false targetUid st d) = userStats uid st.
Proof.
  intros H. rewrite processDamage_userStats. destruct (skipped d); [done|].
  by apply creditEvent_other_frame.
Qed.

Lemma processDamage_player_damage (now targetUid uid : Z) (d : SkillDamage)
    (st : Store) :
  isHeal d = false →
  userStats uid (processDamage now true targetUid st d)
  = if skipped d || IS_PAUSED (config st) then userStats uid st
    else if decide (uid = targetUid)
         then statsOf (UserData.addTakenDamage now (magnitude d) (IsDead d)
                         (getUser now targetUid st).2)
         else userStats uid st.
Proof.
  intros Hheal. rewrite processDamage_userStats.
  destruct (skipped d); [done|].
  rewrite creditEvent_player_damage by done.
  cbn [orb]. apply addTakenDamage_userStats.
Qed.

Lemma processDamage_player_damage_dealt (now targetUid uid : Z)
    (d : SkillDamage) (st : Store) :
  isHeal d = false →
  damageDealt uid (processDamage now true targetUid st d)
  = damageDealt uid st.
Proof.
  intros Hheal.
  pose proof (processDamage_player_damage now targetUid uid d st Hheal) as Hs.
  destruct (skipped d || IS_PAUSED (config st));
    [by unfold damageDealt, damageTotal, userStats, statsOf in *; congruence|].
  case_decide as Heq;
    [|by unfold damageDealt, damageTotal, userStats, statsOf in *; congruence].
  subst uid. rewrite (userStats_damageDealt _ _ _ Hs). symmetry.
  apply (userStats_damageDealt _ _ (getUser now targetUid st).2).
  symmetry. exact (proj2 (getUser_userStats now targetUid targetUid st)).
Qed.

(** The same over a whole delta, attributes included.  With a monster
    target, a delta whose events are heals or come from attackers that are
    not players changes nobody's damage dealt; with a player target, a
    delta without heals does not either.  This holds even when a decoder
    throws on the way. *)
Lemma processAoiSyncDelta_damageDealt_frame (now targetUuid : Z)
    (delta : AoiSyncDelta) (st : Store) :
  Uuid delta = Some targetUuid →
  (isUuidMonster targetUuid = true ∧
   Forall (λ d, isHeal d = true ∨
                isUuidPlayer (default 0 (attackerOf d)) = false)
          (Damages delta))
  ∨ (isUuidPlayer targetUuid = true ∧
     Forall (λ d, isHeal d = false) (Damages delta)) →
  ∀ uid,
    damageDealt uid (resultStore (processAoiSyncDelta now (Some delta) st))
    = damageDealt uid st.
Proof.
  intros Hu Hcase uid. unfold processAoiSyncDelta. rewrite Hu.
  assert (∀ s s', userStats uid s = userStats uid s' →
                  damageDealt uid s = damageDealt uid s') as Hview.
  { intros s s'. unfold damageDealt, damageTotal, userStats, statsOf.
    congruence. }
  pose proof (Hview _ _ (processAttrs_userStats now targetUuid uid
                           (Attrs delta) st)) as Hattrs.
  destruct (processAttrs pb_string pb_int32 monsterNames now targetUuid
              (Attrs delta) st) as [st1|st1]; simpl in *; [|done].
  rewrite <- Hattrs. clear Hattrs.
  destruct Hcase as [[Hm Hall]|[Hp Hall]].
  - rewrite (isUuidMonster_not_player _ Hm).
    revert st1. induction Hall as [|d ds Hd _ IH]; intros st1; simpl; [done|].
    rewrite IH. apply Hview. by apply processDamage_other_frame.
  - rewrite Hp.
    revert st1. induction Hall as [|d ds Hd _ IH]; intros st1; simpl; [done|].
    rewrite IH. by apply processDamage_player_damage_dealt.
Qed.

(** C2, as the code has it.  For an entry of a delta whose target is a
    player and whose type is a heal: when the entry has a skill id other
    than 0, the attacker is a player with a uid other than 0 and the store
    is not paused, the healing total of the attacker grows by the
    magnitude; when the attacker is unknown (it is not a player, so that
    [addHealing] is called with uid 0, or its uid is 0), and when the
    entry has no skill id, the statistics of every user stay as they
    were. *)
Theorem heal_on_player_credits_player_attacker
    (now targetUuid : Z) (d : SkillDamage) (st : Store) :
  isUuidPlayer targetUuid = true →
  isHeal d = true →
  let attackerUuid := default 0 (attackerOf d) in
  let st' := processDamage now (isUuidPlayer targetUuid)
               (uuidToUid targetUuid) st d in
  (OwnerId d ≠ 0 →
   isUuidPlayer attackerUuid = true →
   uuidToUid attackerUuid ≠ 0 →
   IS_PAUSED (config st) = false →
   healingDone (uuidToUid attackerUuid) st'
   = healingDone (uuidToUid attackerUuid) st + magnitude d)
  ∧
  (isUuidPlayer attackerUuid = false ∨ uuidToUid attackerUuid = 0 →
   ∀ uid, userStats uid st' = userStats uid st)
  ∧
  (OwnerId d = 0 → ∀ uid, userStats uid st' = userStats uid st).
Proof.
  intros Htp Hheal attackerUuid st'. subst st'. rewrite Htp.
  split; [|split].
  - intros Howner Hap Huid Hpause.
    destruct (skipped d) eqn:Hskip.
    { (* an attacker that is a player is present, so the magnitude is 0 *)
      assert (magnitude d = 0) as Hzero.
      { unfold skipped in Hskip.
        apply Z.eqb_neq in Howner. rewrite Howner in Hskip.
        assert (attackerOf d ≠ None) as Ha.
        { intros Hn. unfold attackerUuid in Hap. rewrite Hn in Hap.
          discriminate. }
        rewrite bool_decide_false in Hskip by done.
        by apply Z.eqb_eq in Hskip. }
      unfold processDamage. rewrite Hskip, Hzero. lia. }
    apply Z.eqb_neq in Huid.
    pose proof (processDamage_userStats now true (uuidToUid targetUuid)
                  (uuidToUid attackerUuid) d st) as Hs.
    rewrite Hskip, creditEvent_player_heal in Hs by done.
    fold attackerUuid in Hs.
    rewrite Hap, addHealing_userStats, Hpause, Huid in Hs. simpl in Hs.
    rewrite decide_True in Hs by done.
    rewrite (userStats_healingDone _ _ _ Hs), healingTotal_addHealing.
    f_equal. symmetry. apply userStats_healingDone.
    symmetry. exact (proj2 (getUser_userStats now _ (uuidToUid attackerUuid) st)).
  - intros Hunknown uid.
    rewrite processDamage_userStats.
    destruct (skipped d); [done|].
    rewrite creditEvent_player_heal by done.
    fold attackerUuid. rewrite addHealing_userStats.
    assert ((if isUuidPlayer attackerUuid then uuidToUid attackerUuid else 0)
            = 0) as ->
      by (destruct Hunknown as [H|H]; rewrite H;
          [done | by destruct (isUuidPlayer attackerUuid)]).
    by rewrite orb_true_r.
  - intros Howner uid. rewrite processDamage_userStats.
    unfold skipped. rewrite Howner. done.
Qed.

(** C5.  For a monster target, an event that is a heal or whose attacker
    is not a player changes the statistics of no user, so damage dealt is
    only booked for damage by a player.  For a player target, an event that
    is not a heal changes nobody's damage dealt nor healing, and nobody
    else's damage taken; unless the loop skips it or the store is paused,
    the target's damage taken grows by the magnitude. *)
Theorem asymmetric_crediting
    (now targetUuid : Z) (d : SkillDamage) (st : Store) :
  let attackerUuid := default 0 (attackerOf d) in
  let targetUid := uuidToUid targetUuid in
  let st' := processDamage now (isUuidPlayer targetUuid) targetUid st d in
  (isUuidMonster targetUuid = true →
   isHeal d = true ∨ isUuidPlayer attackerUuid = false →
   ∀ uid, userStats uid st' = userStats uid st)
  ∧
  (isUuidPlayer targetUuid = true →
   isHeal d = false →
   (∀ uid, damageDealt uid st' = damageDealt uid st) ∧
   (∀ uid, healingDone uid st' = healingDone uid st) ∧
   (∀ uid, uid ≠ targetUid → damageTaken uid st' = damageTaken uid st) ∧
   (skipped d = false → IS_PAUSED (config st) = false →
    damageTaken targetUid st' = damageTaken targetUid st + magnitude d)).
Proof.
  intros attackerUuid targetUid st'. subst st'. split.
  - intros Hm%isUuidMonster_not_player Hcase uid. rewrite Hm.
    by apply processDamage_other_frame.
  - intros Htp Hheal. rewrite Htp.
    pose proof (λ uid, processDamage_player_damage now targetUid uid d st
                         Hheal) as Hs.
    pose proof (λ uid, proj2 (getUser_userStats now targetUid uid st)) as Hg.
    repeat split.
    + intros uid. by apply processDamage_player_damage_dealt.
    + intros uid. specialize (Hs uid).
      destruct (skipped d || IS_PAUSED (config st));
        [by unfold healingDone, healingTotal, userStats, statsOf in *; congruence|].
      case_decide as Heq;
        [|by unfold healingDone, healingTotal, userStats, statsOf in *; congruence].
      subst uid. rewrite (userStats_healingDone _ _ _ Hs). symmetry.
      apply (userStats_healingDone _ _ (getUser now targetUid st).2).
      symmetry. apply (Hg targetUid).
    + intros uid Hne. specialize (Hs uid).
      rewrite decide_False in Hs by done.
      destruct (skipped d || IS_PAUSED (config st));
        by unfold damageTaken, userStats, statsOf in *; congruence.
    + intros Hskip Hpause. specialize (Hs targetUid).
      rewrite Hskip, Hpause, decide_True in Hs by done. simpl in Hs.
      rewrite (userStats_damageTaken _ _ _ Hs). simpl. f_equal. symmetry.
      apply userStats_damageTaken. symmetry. apply (Hg targetUid).
Qed.

End CreditFacts.

(* ===================================================================== *)
(** * The crediting rules and the store invariant on the scenarios *)
(* ===================================================================== *)

(** C2 as the spec words it fails: a monster heals player 7 for 100 (the
    attacker is then "unknown", uid 0); the delta is processed in full, and
    no user has a healing total 100 above what it was. *)
Lemma heal_by_unknown_attacker_credits_nobody :
  let delta := mkAoiSyncDelta (Some player7) [] [heal_by_monster] in
  let st' := resultStore
               (processAoiSyncDelta (λ _, None) (λ _, None) (λ _, None)
                  (Some 2) 1 (Some delta) store0) in
  isUuidPlayer player7 = true ∧
  isHeal (Some 2) heal_by_monster = true ∧
  skipped heal_by_monster = false ∧
  magnitude heal_by_monster = 100 ∧
  ¬ ∃ uid, healingDone uid st'
           = healingDone uid store0 + magnitude heal_by_monster.
Proof.
  repeat split; try reflexivity.
  intros [uid H].
  assert (userStats uid
            (processDamage (Some 2) 1 true 7 store0 heal_by_monster)
          = userStats uid store0) as Hs.
  { rewrite processDamage_userStats.
    change (skipped heal_by_monster) with false. cbv iota.
    rewrite creditEvent_player_heal by reflexivity.
    by rewrite addHealing_userStats. }
  change (healingDone uid
            (processDamage (Some 2) 1 true 7 store0 heal_by_monster)
          = healingDone uid store0 + 100) in H.
  unfold healingDone, healingTotal, userStats, statsOf in *.
  assert (UserData.healingStats
            (userOrNew uid
               (processDamage (Some 2) 1 true 7 store0 heal_by_monster))
          = UserData.healingStats (userOrNew uid store0)) as Hh
    by congruence.
  rewrite Hh in H. lia.
Qed.

Lemma heal_on_player_credits_player_attacker_witness :
  healingDone 9 (processDamage (Some 2) 1 true 7 store0 heal_by_player)
  = healingDone 9 store0 + 100
  ∧ ∀ uid, userStats uid
             (processDamage (Some 2) 1 true 7 store0 heal_by_monster)
           = userStats uid store0.
Proof.
  split.
  - refine (proj1 (heal_on_player_credits_player_attacker (Some 2) 1 player7
                     heal_by_player store0 _ _) _ _ _ _).
    + reflexivity.
    + reflexivity.
    + discriminate.
    + reflexivity.
    + vm_compute. lia.
    + reflexivity.
  - refine (proj1 (proj2 (heal_on_player_credits_player_attacker (Some 2) 1
                            player7 heal_by_monster store0 _ _)) _).
    + reflexivity.
    + reflexivity.
    + left. reflexivity.
Defined.

Lemma asymmetric_crediting_witness :
  (∀ uid, userStats uid
            (processDamage (Some 2) 1 false 9 store0 heal_by_player)
          = userStats uid store0)
  ∧ damageTaken 7 (processDamage (Some 2) 1 true 7 store0 hit_by_monster)
    = damageTaken 7 store0 + 250.
Proof.
  split.
  - refine (proj1 (asymmetric_crediting (Some 2) 1 monster9 heal_by_player
                     store0) _ _).
    + reflexivity.
    + left. reflexivity.
  - refine (proj2 (proj2 (proj2 (proj2 (asymmetric_crediting (Some 2) 1
              player7 hit_by_monster store0) _ _))) _ _).
    + reflexivity.
    + reflexivity.
    + reflexivity.
    + reflexivity.
Defined.

Example hit_by_monster_is_taken_not_dealt :
  let st' := processDamage (Some 2) 1 true 7 store0 hit_by_monster in
  damageTaken 7 st' = 250 ∧ damageDealt 7 st' = 0 ∧ damageDealt 9 st' = 0.
Proof. repeat split; reflexivity. Qed.

(** C10.  Whatever operations of the store are run, and in whatever order
    ([getUser], [cleanUpInactiveUsers] and [clearAll] among them), a store in
    which no uid is both live and in the graveyard stays so. *)
Theorem live_graveyard_disjoint
    (skillConfig : Z → option string) (ops : list (Z * StoreOp))
    (st : Store) :
  liveGraveDisjoint st → liveGraveDisjoint (runOps skillConfig ops st).
Proof.
  revert st. induction ops as [|[now op] ops IH]; intros st Hinv; simpl.
  - exact Hinv.
  - apply IH. by apply applyOp_disjoint.
Qed.

Lemma live_graveyard_disjoint_witness :
  liveGraveDisjoint (runOps (λ _, None) ops_revival store0).
Proof.
  apply (live_graveyard_disjoint (λ _, None) ops_revival store0).
  intros uid. left. reflexivity.
Defined.

Example retired_then_revived :
  let st1 := runOps (λ _, None) (take 2 ops_revival) store0 in
  let st2 := runOps (λ _, None) (take 3 ops_revival) store0 in
  (users st1 !! 7 = None ∧ is_Some (userGraveyard st1 !! 7)) ∧
  (is_Some (users st2 !! 7) ∧ userGraveyard st2 !! 7 = None).
Proof. vm_compute. repeat split; eauto. Qed.

(** The store is empty when the manager is constructed, so every store
    reached from there keeps the two maps disjoint. *)
Corollary reachable_live_graveyard_disjoint
    (skillConfig : Z → option string) (ops : list (Z * StoreOp))
    (now : Z) (cfg : Config) :
  liveGraveDisjoint (runOps skillConfig ops (newStore now cfg)).
Proof.
  revert now cfg.
  assert (∀ st, liveGraveDisjoint st →
                liveGraveDisjoint (runOps skillConfig ops st)) as H.
  { induction ops as [|[t op] ops' IH]; intros st Hinv; simpl; [done|].
    apply IH. by apply applyOp_disjoint. }
  intros now cfg. apply H. intros uid. left. apply lookup_empty.
Qed.

Lemma session_persistence_gate_witness :
  persistedSessions
    (_finalizeAndPersistSession (λ _, None) 9 "manual_clear" (epoch_with 100))
  = []
  ∧ ∃ record,
      persistedSessions
        (_finalizeAndPersistSession (λ _, None) 9 "manual_clear"
           (epoch_with 6000))
      = [] ++ [record]
      ∧ partySize record = 1%nat.
Proof.
  split.
  - refine (proj1 (session_persistence_gate (λ _, None) 9 "manual_clear"
                     (epoch_with 100)) _).
    intros uid u. unfold _getAnyUser, epoch_with. simpl.
    destruct (decide (uid = 7)) as [->|Hne].
    + rewrite lookup_singleton_eq. intros [= <-]. vm_compute.
      split; discriminate.
    + rewrite lookup_singleton_ne, lookup_empty by done. discriminate.
  - refine (proj2 (session_persistence_gate (λ _, None) 9 "manual_clear"
                     (epoch_with 6000)) session0 7
              (UserData.addDamage 1 1241 Water 6000 false false false 0
                 (UserData.new 0 7)) _ _ _ _).
    + reflexivity.
    + reflexivity.
    + left. reflexivity.
    + intros uid u Hne. unfold _getAnyUser, epoch_with. simpl.
      rewrite lookup_singleton_ne, lookup_empty by done. discriminate.
Defined.

(** C4 as the spec words it fails when another player is above the
    threshold in healing: player 7 alone exceeds 5000 damage, player 8 dealt
    nothing and healed 7000, and the record saved has a party of two. *)
Lemma healer_beside_the_damage_dealer_counts :
  let st := epoch_damage_and_healing in
  list_to_set (getUserIds st) = ({[ 7; 8 ]} : gset Z) ∧
  damageDealt 7 st = 6000 ∧
  damageDealt 8 st = 0 ∧
  healingDone 8 st = 7000 ∧
  partySize <$>
    persistedSessions
      (_finalizeAndPersistSession (λ _, None) 9 "manual_clear" st)
  = [2%nat].
Proof. repeat split; reflexivity. Qed.

Example epoch_with_6000_persisted :
  partySize <$>
    persistedSessions
      (_finalizeAndPersistSession (λ _, None) 9 "manual_clear"
         (epoch_with 6000))
  = [1%nat].
Proof. reflexivity. Qed.

(* ===================================================================== *)
(** * Retiring idle users *)
(* ===================================================================== *)

(** What the loop of [cleanUpInactiveUsers] does to each part of the store,
    for any list of entries. *)
Lemma foldl_retire_parts (now : Z) (l : list (Z * UserData.t)) (st : Store) :
  let st' := foldl (retire now) st l in
  users st' = foldl (λ m e, if isIdle now e.2 then delete e.1 m else m)
                (users st) l
  ∧ userGraveyard st'
    = foldl (λ g e, if isIdle now e.2 then <[e.1 := e.2]> g else g)
        (userGraveyard st) l
  ∧ socketLog st'
    = socketLog st ++ (user_deleted <$> (filter (λ e, isIdle now e.2) l).*1)
  ∧ userCache st' = userCache st ∧ hpCache st' = hpCache st
  ∧ enemyCache st' = enemyCache st ∧ currentSession st' = currentSession st
  ∧ persistedSessions st' = persistedSessions st ∧ config st' = config st.
Proof.
  cbv zeta. revert st. induction l as [|[uid u] l IH]; intros st; cbn [foldl].
  { simpl. rewrite app_nil_r. repeat split. }
  destruct (IH (retire now st (uid, u)))
    as (Hu & Hg & Hs & Hc & Hh & He & Hcur & Hp & Hcfg).
  rewrite Hu, Hg, Hs, Hc, Hh, He, Hcur, Hp, Hcfg.
  clear IH Hu Hg Hs Hc Hh He Hcur Hp Hcfg.
  unfold retire, isIdle. rewrite filter_cons. simpl.
  destruct (now - UserData.lastUpdateTime u >? inactiveThreshold) eqn:E;
    simpl.
  - rewrite <- app_assoc. repeat split.
  - repeat split.
Qed.

Lemma foldl_delete_idle_lookup (now : Z) (l : list (Z * UserData.t))
    (m : gmap Z UserData.t) (k : Z) :
  foldl (λ m e, if isIdle now e.2 then delete e.1 m else m) m l !! k
  = if decide (k ∈ (filter (λ e, isIdle now e.2) l).*1) then None
    else m !! k.
Proof.
  revert m. induction l as [|[uid u] l IH]; intros m; simpl; [done|].
  rewrite IH, filter_cons. simpl.
  destruct (isIdle now u) eqn:E; simpl; [|done].
  clear IH. destruct (decide (k = uid)) as [->|Hne].
  - rewrite lookup_delete_eq. rewrite (decide_True (P := uid ∈ uid :: _)).
    + by case_decide.
    + by left.
  - rewrite lookup_delete_ne by done.
    repeat case_decide; try done; exfalso.
    + match goal with H : _ ∉ _ :: _ |- _ => apply H end. by right.
    + match goal with H : _ ∈ _ :: _ |- _ =>
        apply elem_of_cons in H as [?|?] end; done.
Qed.

Lemma foldl_insert_idle_lookup (now : Z) (l : list (Z * UserData.t))
    (g : gmap Z UserData.t) (k : Z) :
  NoDup l.*1 →
  (∀ u, (k, u) ∈ l → isIdle now u = true →
        foldl (λ g e, if isIdle now e.2 then <[e.1 := e.2]> g else g) g l !! k
        = Some u)
  ∧ (k ∉ (filter (λ e, isIdle now e.2) l).*1 →
     foldl (λ g e, if isIdle now e.2 then <[e.1 := e.2]> g else g) g l !! k
     = g !! k).
Proof.
  revert g. induction l as [|[uid u] l IH]; intros g Hnd; simpl.
  { split; [|done]. intros u Hin. by apply elem_of_nil in Hin. }
  rewrite fmap_cons in Hnd. apply NoDup_cons in Hnd as [Hnotin Hnd].
  simpl in Hnotin. split.
  - intros v Hin Hidle. apply elem_of_cons in Hin as [[= -> ->]|Hin].
    + rewrite Hidle.
      rewrite (proj2 (IH (<[uid:=u]> g) Hnd)); [by rewrite lookup_insert_eq|].
      intros Hk. apply Hnotin.
      apply list_elem_of_fmap in Hk as [[k' w] [-> Hw]].
      apply list_elem_of_filter in Hw as [_ Hw].
      by apply (list_elem_of_fmap_2 fst l (k', w)).
    + by apply (proj1 (IH _ Hnd)).
  - rewrite filter_cons. simpl. intros Hk.
    destruct (isIdle now u) eqn:E; simpl in Hk.
    + apply not_elem_of_cons in Hk as [Hne Hk].
      rewrite (proj2 (IH _ Hnd)) by done. by rewrite lookup_insert_ne.
    + by apply (proj2 (IH _ Hnd)).
Qed.

(** What the loop does to one uid. *)
Lemma cleanUpInactiveUsers_partition_aux (now uid : Z) (st : Store) :
  let st' := cleanUpInactiveUsers now st in
  match users st !! uid with
  | Some u =>
      if isIdle now u
      then users st' !! uid = None ∧ userGraveyard st' !! uid = Some u
      else users st' !! uid = Some u ∧
           userGraveyard st' !! uid = userGraveyard st !! uid
  | None =>
      users st' !! uid = None ∧
      userGraveyard st' !! uid = userGraveyard st !! uid
  end.
Proof.
  intros st'. subst st'. unfold cleanUpInactiveUsers.
  destruct (foldl_retire_parts now (map_to_list (users st)) st)
    as (Hu & Hg & _). rewrite Hu, Hg. clear Hu Hg.
  rewrite foldl_delete_idle_lookup.
  pose proof (foldl_insert_idle_lookup now (map_to_list (users st))
                (userGraveyard st) uid (NoDup_fst_map_to_list _))
    as [Hidle Hkeep].
  assert (∀ u, users st !! uid = Some u →
               uid ∈ (filter (λ e, isIdle now e.2)
                        (map_to_list (users st))).*1
               ↔ isIdle now u = true) as Hmem.
  { intros u Hu. split.
    - intros [[k w] [-> Hw]]%list_elem_of_fmap.
      apply list_elem_of_filter in Hw as [Hw Hin].
      apply elem_of_map_to_list in Hin. cbn [fst snd] in *.
      assert (w = u) as -> by congruence. by apply Is_true_true.
    - intros Hi. apply (list_elem_of_fmap_2' fst _ (uid, u)); [|done].
      apply list_elem_of_filter. split; [by apply Is_true_true|].
      by apply elem_of_map_to_list. }
  destruct (users st !! uid) as [u|] eqn:Hu.
  - specialize (Hmem u eq_refl).
    destruct (isIdle now u) eqn:Hi.
    + rewrite decide_True by (by apply Hmem). split; [done|].
      apply Hidle; [by apply elem_of_map_to_list|done].
    + assert (uid ∉ (filter (λ e, isIdle now e.2)
                       (map_to_list (users st))).*1) as Hn.
      { intros Hin. apply Hmem in Hin. done. }
      rewrite decide_False by done. split; [done|]. by apply Hkeep.
  - assert (uid ∉ (filter (λ e, isIdle now e.2)
                     (map_to_list (users st))).*1) as Hn.
    { intros [[k w] [-> Hw]]%list_elem_of_fmap.
      apply list_elem_of_filter in Hw as [_ Hin].
      apply elem_of_map_to_list in Hin. simpl in *. congruence. }
    rewrite decide_False by done. split; [done|]. by apply Hkeep.
Qed.

(** X1.  [cleanUpInactiveUsers] splits the live users in two.  The live map
    keeps exactly the records last touched no more than 60 seconds before
    [now]; the graveyard receives the others, each as it is and in the place
    of any record it held for that uid, and keeps the rest of what it
    had. *)
Theorem cleanUpInactiveUsers_partition (now : Z) (st : Store) :
  let idle := λ e : Z * UserData.t,
                60 * 1000 < now - UserData.lastUpdateTime e.2 in
  let st' := cleanUpInactiveUsers now st in
  users st' = filter (λ e, ¬ idle e) (users st)
  ∧ userGraveyard st' = filter idle (users st) ∪ userGraveyard st.
Proof.
  cbv zeta.
  assert (∀ u, isIdle now u = true
               ↔ 60 * 1000 < now - UserData.lastUpdateTime u) as Hidle.
  { intros u. unfold isIdle, inactiveThreshold.
    rewrite Z.gtb_ltb. apply Z.ltb_lt. }
  split; apply map_eq; intros uid;
    pose proof (cleanUpInactiveUsers_partition_aux now uid st) as H;
    cbv zeta in H.
  - destruct (users st !! uid) as [u|] eqn:Hu.
    + destruct (isIdle now u) eqn:Hi; destruct H as [-> _]; symmetry.
      * apply map_lookup_filter_None. right. intros x Hx Hnot.
        apply Hnot. simpl. apply Hidle. congruence.
      * apply map_lookup_filter_Some. split; [done|]. simpl.
        intros Hlt. apply Hidle in Hlt. congruence.
    + destruct H as [-> _]. symmetry.
      apply map_lookup_filter_None. by left.
  - destruct (users st !! uid) as [u|] eqn:Hu.
    + destruct (isIdle now u) eqn:Hi; destruct H as [_ ->]; symmetry.
      * apply lookup_union_Some_l, map_lookup_filter_Some.
        split; [done|]. simpl. by apply Hidle.
      * apply lookup_union_r, map_lookup_filter_None. right.
        intros x Hx Hlt. simpl in Hlt. apply Hidle in Hlt. congruence.
    + destruct H as [_ ->]. symmetry.
      apply lookup_union_r, map_lookup_filter_None. by left.
Qed.

(** The uids [cleanUpInactiveUsers] retires, in the order of the loop. *)
Lemma retired_uids (now : Z) (st : Store) :
  let retired := (filter (λ e, isIdle now e.2) (map_to_list (users st))).*1 in
  NoDup retired ∧
  ∀ uid, uid ∈ retired ↔
         ∃ u, users st !! uid = Some u ∧ isIdle now u = true.
Proof.
  cbv zeta. split.
  - eapply sublist_NoDup; [apply (NoDup_fst_map_to_list (users st))|].
    apply fmap_sublist, sublist_filter.
  - intros uid. rewrite list_elem_of_fmap. split.
    + intros [[k u] [-> Hin]]. apply list_elem_of_filter in Hin as [Hi Hin].
      apply elem_of_map_to_list in Hin. exists u. split; [done|].
      by apply Is_true_true.
    + intros (u & Hu & Hi). exists (uid, u). split; [done|].
      apply list_elem_of_filter. split; [by apply Is_true_true|].
      by apply elem_of_map_to_list.
Qed.

(** X2.  [cleanUpInactiveUsers] emits [user_deleted] once for each user it
    retires and for nobody else: the events added to the socket are those of
    a duplicate-free list of uids, which holds exactly the live users last
    touched more than 60 seconds before [now]. *)
Theorem cleanUpInactiveUsers_events (now : Z) (st : Store) :
  ∃ retired : list Z,
    socketLog (cleanUpInactiveUsers now st)
    = socketLog st ++ (user_deleted <$> retired)
    ∧ NoDup retired
    ∧ ∀ uid, uid ∈ retired ↔
             ∃ u, users st !! uid = Some u ∧
                  now - UserData.lastUpdateTime u > 60 * 1000.
Proof.
  exists (filter (λ e, isIdle now e.2) (map_to_list (users st))).*1.
  destruct (foldl_retire_parts now (map_to_list (users st)) st)
    as (_ & _ & Hs & _).
  destruct (retired_uids now st) as [Hnd Hmem].
  split; [exact Hs|]. split; [exact Hnd|].
  intros uid. rewrite Hmem. unfold isIdle, inactiveThreshold.
  split; intros (u & Hu & Hi); exists u; (split; [done|]); lia.
Qed.

(** The map built by the loop of [getAllUsersData], entry by entry. *)
Lemma foldl_insert_summary_lookup (l : list (Z * UserData.t))
    (m : gmap Z UserData.Summary) (k : Z) :
  NoDup l.*1 →
  (∀ u, (k, u) ∈ l →
        foldl (λ result e, <[e.1 := UserData.getSummary e.2]> result) m l !! k
        = Some (UserData.getSummary u))
  ∧ (k ∉ l.*1 →
     foldl (λ result e, <[e.1 := UserData.getSummary e.2]> result) m l !! k
     = m !! k).
Proof.
  revert m. induction l as [|[uid u] l IH]; intros m Hnd; simpl.
  { split; [|done]. intros u Hin. by apply elem_of_nil in Hin. }
  rewrite fmap_cons in Hnd. apply NoDup_cons in Hnd as [Hnotin Hnd].
  simpl in Hnotin. split.
  - intros v Hin. apply elem_of_cons in Hin as [[= -> ->]|Hin].
    + rewrite (proj2 (IH _ Hnd)) by done. by rewrite lookup_insert_eq.
    + by apply (proj1 (IH _ Hnd)).
  - intros Hk. apply not_elem_of_cons in Hk as [Hne Hk].
    rewrite (proj2 (IH _ Hnd)) by done. by rewrite lookup_insert_ne.
Qed.

Lemma getAllUsersData_lookup (st : Store) (uid : Z) :
  getAllUsersData st !! uid = UserData.getSummary <$> _getAnyUser uid st.
Proof.
  unfold getAllUsersData.
  destruct (foldl_insert_summary_lookup (_getAllUserEntries st) ∅ uid
              (entries_NoDup st)) as [Hin Hout].
  destruct (_getAnyUser uid st) as [u|] eqn:Hu; simpl.
  - apply Hin. by apply entries_getAnyUser.
  - rewrite Hout; [done|].
    intros [[k u] [-> Hk]]%list_elem_of_fmap.
    apply entries_getAnyUser in Hk. simpl in *. congruence.
Qed.

(** X3.  [getAllUsersData] has one entry for each uid the store knows, live
    or retired, and it is the summary of the record [_getAnyUser] finds: the
    live record when there is one, else the one in the graveyard. *)
Theorem getAllUsersData_summaries (st : Store) (uid : Z) :
  getAllUsersData st !! uid
  = match users st !! uid with
    | Some u => Some (UserData.getSummary u)
    | None => UserData.getSummary <$> userGraveyard st !! uid
    end.
Proof.
  rewrite getAllUsersData_lookup. unfold _getAnyUser.
  by destruct (users st !! uid).
Qed.

Lemma cleanUpInactiveUsers_getAnyUser (now uid : Z) (st : Store) :
  _getAnyUser uid (cleanUpInactiveUsers now st) = _getAnyUser uid st.
Proof.
  pose proof (cleanUpInactiveUsers_partition_aux now uid st) as H.
  unfold _getAnyUser. cbv zeta in H.
  destruct (users st !! uid) as [u|] eqn:Hu.
  - destruct (isIdle now u); destruct H as [H1 H2]; rewrite H1;
      try rewrite H2; done.
  - destruct H as [H1 H2]. by rewrite H1, H2.
Qed.

(** X4.  Retiring idle users loses no record: after
    [cleanUpInactiveUsers] every uid still has the record it had, so the
    table of summaries and every player snapshot are what they were. *)
Theorem cleanUpInactiveUsers_keeps_records (now : Z) (st : Store) :
  (∀ uid, _getAnyUser uid (cleanUpInactiveUsers now st) = _getAnyUser uid st)
  ∧ getAllUsersData (cleanUpInactiveUsers now st) = getAllUsersData st
  ∧ ∀ skillConfig uid,
      _buildPlayerSnapshot skillConfig uid (cleanUpInactiveUsers now st)
      = _buildPlayerSnapshot skillConfig uid st.
Proof.
  split; [intros uid; apply cleanUpInactiveUsers_getAnyUser|]. split.
  - apply map_eq. intros uid.
    by rewrite !getAllUsersData_lookup, cleanUpInactiveUsers_getAnyUser.
  - intros skillConfig uid. unfold _buildPlayerSnapshot.
    by rewrite cleanUpInactiveUsers_getAnyUser.
Qed.

(** X5.  A user retired by [cleanUpInactiveUsers] comes back as it was: for
    a uid that was live, the next [getUser] returns the very record the uid
    had, and stores it in the live map again. *)
Theorem retired_user_comes_back (now now' uid : Z) (u : UserData.t)
    (st : Store) :
  users st !! uid = Some u →
  let st' := cleanUpInactiveUsers now st in
  (getUser now' uid st').2 = u ∧
  users (getUser now' uid st').1 !! uid = Some u.
Proof.
  intros Hu st'. subst st'.
  pose proof (cleanUpInactiveUsers_partition_aux now uid st) as H.
  cbv zeta in H. rewrite Hu in H.
  destruct (getUser_spec now' uid (cleanUpInactiveUsers now st))
    as (_ & _ & Hlive).
  cbv zeta in Hlive. rewrite Hlive.
  enough ((getUser now' uid (cleanUpInactiveUsers now st)).2 = u) as ->
    by done.
  unfold getUser.
  destruct (isIdle now u); destruct H as [H1 H2]; rewrite H1; [|done].
  by rewrite H2.
Qed.

Lemma retired_user_comes_back_witness :
  let u := UserData.new 0 7 in
  let st := set_users {[ 7 := u ]} store0 in
  (getUser 70001 7 (cleanUpInactiveUsers 70000 st)).2 = u ∧
  users (getUser 70001 7 (cleanUpInactiveUsers 70000 st)).1 !! 7 = Some u.
Proof.
  apply (retired_user_comes_back 70000 70001 7 (UserData.new 0 7)
           (set_users {[ 7 := UserData.new 0 7 ]} store0)).
  reflexivity.
Defined.

(** X6.  [getUserIds] lists every uid the store knows exactly once, whether
    the user is live, retired, or (against the invariant) both. *)
Theorem getUserIds_each_once (st : Store) :
  NoDup (getUserIds st) ∧
  ∀ uid, uid ∈ getUserIds st ↔ is_Some (_getAnyUser uid st).
Proof.
  split; [apply entries_NoDup|].
  intros uid. unfold getUserIds. rewrite list_elem_of_fmap. split.
  - intros [[k u] [-> Hin]]. apply entries_getAnyUser in Hin. by exists u.
  - intros [u Hu]. exists (uid, u). split; [done|].
    by apply entries_getAnyUser.
Qed.

(* ===================================================================== *)
(** * What a session record holds *)
(* ===================================================================== *)

(** The entries [omap] keeps are those a test equivalent to [f] keeps. *)
Lemma omap_length_filter {A B} (f : A → option B) (g : A → bool)
    (l : list A) :
  (∀ x, x ∈ l → is_Some (f x) ↔ g x = true) →
  length (omap f l) = length (filter (λ x, g x) l).
Proof.
  induction l as [|a l IH]; intros Hl; [done|].
  assert (∀ x, x ∈ l → is_Some (f x) ↔ g x = true) as Hl'
    by (intros x Hx; apply Hl; by right).
  specialize (IH Hl'). rewrite filter_cons.
  change (omap f (a :: l))
    with (match f a with Some y => y :: omap f l | None => omap f l end).
  pose proof (Hl a ltac:(by left)) as Hc.
  destruct (f a) as [b|] eqn:Hf; destruct (g a) eqn:Hg; simpl.
  - by rewrite IH.
  - assert (false = true) by (apply Hc; by eexists). done.
  - assert (is_Some (@None B)) as [? ?] by (by apply Hc). done.
  - done.
Qed.

Section SessionContents.

Variable skillConfig : Z → option string.

Lemma buildPlayerSnapshot_contributes (uid : Z) (u : UserData.t)
    (st : Store) :
  _getAnyUser uid st = Some u →
  is_Some (_buildPlayerSnapshot skillConfig uid st) ↔ contributes u = true.
Proof.
  intros Hu. unfold _buildPlayerSnapshot, contributes. rewrite Hu.
  change (StatisticData.total (UserData.total_damage (UserData.getSummary u)))
    with (damageTotal u).
  change (StatisticData.total (UserData.total_healing (UserData.getSummary u)))
    with (healingTotal u).
  destruct (damageTotal u <=? CONTRIBUTION_THRESHOLD) eqn:Hd;
    destruct (healingTotal u <=? CONTRIBUTION_THRESHOLD) eqn:Hh; simpl;
    destruct (CONTRIBUTION_THRESHOLD <? damageTotal u) eqn:Hd';
    destruct (CONTRIBUTION_THRESHOLD <? healingTotal u) eqn:Hh'; simpl;
    split; intros H; try done; try (by eexists); try (by destruct H); lia.
Qed.

Lemma omap_snapshot_length (st : Store) (l : list (Z * UserData.t)) :
  (∀ e, e ∈ l → _getAnyUser e.1 st = Some e.2) →
  length (omap (λ e, _buildPlayerSnapshot skillConfig e.1 st) l)
  = length (filter (λ e, contributes e.2) l).
Proof.
  intros Hl. apply omap_length_filter. intros e He.
  apply buildPlayerSnapshot_contributes. by apply Hl.
Qed.

Lemma qualifyingPlayers_length (st : Store) :
  length (qualifyingPlayers skillConfig st)
  = length (filter (λ e, contributes e.2) (_getAllUserEntries st)).
Proof.
  apply omap_snapshot_length. intros [uid u] He.
  by apply entries_getAnyUser.
Qed.

(** X7.  When [_finalizeAndPersistSession] closes a session in which some
    known user contributed (more than 5000 in damage or in healing), the
    record it saves counts as [partySize] exactly the known users, live or
    retired, who contributed, while its table of summaries has every known
    user, contributor or not; its duration is never negative, even if
    the clock went backwards. *)
Theorem persisted_session_contents (now : Z) (reasonEnd : string)
    (st : Store) (cur : Session) (p : Z) (up : UserData.t) :
  currentSession st = Some cur →
  _getAnyUser p st = Some up →
  contributes up = true →
  ∃ record,
    persistedSessions (_finalizeAndPersistSession skillConfig now reasonEnd st)
    = persistedSessions st ++ [record]
    ∧ partySize record
      = length (filter (λ e, contributes e.2) (_getAllUserEntries st))
    ∧ (0 < partySize record)%nat
    ∧ (∀ uid, snapshot_usersAgg record !! uid
              = UserData.getSummary <$> _getAnyUser uid st)
    ∧ 0 ≤ ss_durationMs record.
Proof.
  intros Hcur Hp Hq.
  assert (0 < length (qualifyingPlayers skillConfig st))%nat as Hpos.
  { rewrite qualifyingPlayers_length.
    assert ((p, up) ∈ filter (λ e : Z * UserData.t, contributes e.2)
                        (_getAllUserEntries st)) as Hin.
    { apply list_elem_of_filter. split; [by apply Is_true_true|].
      by apply entries_getAnyUser. }
    destruct (filter _ _); [by apply elem_of_nil in Hin|simpl; lia]. }
  unfold _finalizeAndPersistSession. rewrite Hcur.
  destruct (qualifyingPlayers skillConfig st) as [|q qs] eqn:Hplayers;
    [simpl in Hpos; lia|].
  eexists. split; [reflexivity|]. simpl.
  split; [by rewrite <- qualifyingPlayers_length, Hplayers|].
  split; [lia|]. split; [apply getAllUsersData_lookup|lia].
Qed.


(** X8.  A session is saved at most once: [_finalizeAndPersistSession]
    leaves no session open, so a second call, at any time and for any
    reason, changes nothing. *)
Theorem session_persisted_at_most_once (now1 now2 : Z) (r1 r2 : string)
    (st : Store) :
  currentSession (_finalizeAndPersistSession skillConfig now1 r1 st) = None
  ∧ _finalizeAndPersistSession skillConfig now2 r2
      (_finalizeAndPersistSession skillConfig now1 r1 st)
    = _finalizeAndPersistSession skillConfig now1 r1 st.
Proof.
  assert (currentSession (_finalizeAndPersistSession skillConfig now1 r1 st)
          = None) as Hnone.
  { unfold _finalizeAndPersistSession.
    destruct (currentSession st) eqn:Hcur; [|done].
    by destruct (qualifyingPlayers skillConfig st). }
  split; [done|].
  unfold _finalizeAndPersistSession at 1. by rewrite Hnone.
Qed.

End SessionContents.

Lemma persisted_session_contents_witness :
  ∃ record,
    persistedSessions
      (_finalizeAndPersistSession (λ _, None) 9000 "manual_clear"
         (epoch_with 6000))
    = persistedSessions (epoch_with 6000) ++ [record]
    ∧ partySize record
      = length (filter (λ e, contributes e.2)
                  (_getAllUserEntries (epoch_with 6000)))
    ∧ (0 < partySize record)%nat
    ∧ (∀ uid, snapshot_usersAgg record !! uid
              = UserData.getSummary <$> _getAnyUser uid (epoch_with 6000))
    ∧ 0 ≤ ss_durationMs record.
Proof.
  apply (persisted_session_contents (λ _, None) 9000 "manual_clear" (epoch_with 6000)
           session0 7
           (UserData.addDamage 1 1241 Water 6000 false false false 0
              (UserData.new 0 7)));
    reflexivity.
Defined.

(* ===================================================================== *)
(** * What survives a clear *)
(* ===================================================================== *)

(** [getUser] touches the two user maps only. *)
Lemma getUser_caches (now uid : Z) (st : Store) :
  userCache (getUser now uid st).1 = userCache st ∧
  hpCache (getUser now uid st).1 = hpCache st ∧
  enemyCache (getUser now uid st).1 = enemyCache st ∧
  config (getUser now uid st).1 = config st ∧
  currentSession (getUser now uid st).1 = currentSession st ∧
  persistedSessions (getUser now uid st).1 = persistedSessions st.
Proof.
  unfold getUser.
  destruct (users st !! uid); [done|].
  by destruct (userGraveyard st !! uid).
Qed.

Lemma getUser_unknown (now uid : Z) (st : Store) :
  users st !! uid = None → userGraveyard st !! uid = None →
  (getUser now uid st).2
  = hydrate now (userCache st !! uidStr uid) (hpCache st !! uid)
      (UserData.new now uid).
Proof. intros Hu Hg. unfold getUser. by rewrite Hu, Hg. Qed.

Lemma hydrate_name (now : Z) (c : CacheEntry) (hp : option Z)
    (u : UserData.t) :
  UserData.name (hydrate now (Some c) hp u)
  = match c_name c with
    | Some n => if truthy n then n else UserData.name u
    | None => UserData.name u
    end.
Proof.
  unfold hydrate, UserData.setProfession.
  destruct c as [[n|] [p|] [s|] [fp|] [m|]], hp as [h|]; simpl;
    repeat (match goal with |- context [if ?b then _ else _] =>
              destruct b end; simpl); done.
Qed.

Lemma hydrate_profession (now : Z) (c : CacheEntry) (hp : option Z)
    (u : UserData.t) :
  UserData.profession (hydrate now (Some c) hp u)
  = match c_profession c with
    | Some p => if truthy p then p else UserData.profession u
    | None => UserData.profession u
    end.
Proof.
  unfold hydrate, UserData.setProfession.
  destruct c as [[n|] [p|] [s|] [fp|] [m|]], hp as [h|]; simpl;
    repeat (match goal with |- context [if ?b then _ else _] =>
              destruct b end; simpl); done.
Qed.

Lemma hydrate_fightPoint (now : Z) (c : CacheEntry) (hp : option Z)
    (u : UserData.t) :
  UserData.fightPoint (hydrate now (Some c) hp u)
  = default (UserData.fightPoint u) (c_fightPoint c).
Proof.
  unfold hydrate, UserData.setProfession.
  destruct c as [[n|] [p|] [s|] [fp|] [m|]], hp as [h|]; simpl;
    repeat (match goal with |- context [if ?b then _ else _] =>
              destruct b end; simpl); done.
Qed.

(** The attributes of a hydrated record: the cached [max_hp], then the
    cached [hp], over those it had. *)
Lemma hydrate_attr (now : Z) (c : option CacheEntry) (hp : option Z)
    (u : UserData.t) :
  UserData.attr (hydrate now c hp u)
  = match hp with
    | Some h => <["hp" := h]>
    | None => id
    end (match c ≫= c_maxHp with
         | Some m => <["max_hp" := m]> (UserData.attr u)
         | None => UserData.attr u
         end).
Proof.
  unfold hydrate, UserData.setProfession.
  destruct c as [[[n|] [p|] [s|] [fp|] [m|]]|], hp as [h|]; simpl;
    repeat (match goal with |- context [if ?b then _ else _] =>
              destruct b end; simpl); done.
Qed.

Section Clearing.

Variable skillConfig : Z → option string.

Lemma finalize_caches (now : Z) (reasonEnd : string) (st : Store) :
  let st' := _finalizeAndPersistSession skillConfig now reasonEnd st in
  userCache st' = userCache st ∧ hpCache st' = hpCache st ∧
  enemyCache st' = enemyCache st ∧ config st' = config st.
Proof.
  cbv zeta. unfold _finalizeAndPersistSession.
  destruct (currentSession st); [|done].
  by destruct (qualifyingPlayers skillConfig st).
Qed.

Lemma clearAll_fields (now : Z) (persist : bool) (reasonEnd : string)
    (st : Store) :
  let st' := clearAll skillConfig now persist reasonEnd st in
  users st' = ∅ ∧ userGraveyard st' = ∅ ∧
  userCache st' = userCache st ∧ hpCache st' = hpCache st ∧
  enemyCache st' = enemyCache st ∧ config st' = config st.
Proof.
  cbv zeta. unfold clearAll. simpl.
  destruct persist; [|done].
  by destruct (finalize_caches now reasonEnd st) as (-> & -> & -> & ->).
Qed.

(** The record [getUser] makes for [uid] after a clear. *)
Lemma getUser_after_clear (now now' uid : Z) (persist : bool)
    (reasonEnd : string) (st : Store) :
  (getUser now' uid (clearAll skillConfig now persist reasonEnd st)).2
  = hydrate now' (userCache st !! uidStr uid) (hpCache st !! uid)
      (UserData.new now' uid).
Proof.
  destruct (clearAll_fields now persist reasonEnd st)
    as (Hu & Hg & Hc & Hh & _).
  cbv zeta in *. rewrite getUser_unknown.
  - by rewrite Hc, Hh.
  - by rewrite Hu.
  - by rewrite Hg.
Qed.

End Clearing.

Lemma withUser_caches (now uid : Z) (f : UserData.t → UserData.t)
    (st : Store) :
  userCache (withUser now uid f st) = userCache st ∧
  hpCache (withUser now uid f st) = hpCache st ∧
  enemyCache (withUser now uid f st) = enemyCache st.
Proof.
  unfold withUser. destruct (getUser_caches now uid st) as (Hc & Hh & He & _).
  destruct (getUser now uid st) as [st1 user]. simpl in *. by subst.
Qed.

Lemma setName_cache (now uid : Z) (n : string) (st : Store) :
  UserData.name (getUser now uid st).2 ≠ n →
  (userCache (setName now uid n st) !! uidStr uid) ≫= c_name = Some n ∧
  hpCache (setName now uid n st) = hpCache st.
Proof.
  intros Hne. unfold setName.
  destruct (getUser_caches now uid st) as (Hc & Hh & _).
  destruct (getUser now uid st) as [st1 user]. simpl in *.
  destruct (String.eqb_spec (UserData.name user) n) as [|_]; [done|].
  simpl. by rewrite lookup_insert_eq.
Qed.

Lemma setFightPoint_cache (now uid fp : Z) (st : Store) :
  UserData.fightPoint (getUser now uid st).2 ≠ fp →
  (userCache (setFightPoint now uid fp st) !! uidStr uid) ≫= c_fightPoint
  = Some fp.
Proof.
  intros Hne. unfold setFightPoint.
  destruct (getUser now uid st) as [st1 user]. simpl in *.
  destruct (Z.eqb_spec (UserData.fightPoint user) fp) as [|_]; [done|].
  simpl. by rewrite lookup_insert_eq.
Qed.

Lemma setProfession_cache (now uid : Z) (p : string) (st : Store) :
  UserData.profession (getUser now uid st).2 ≠ p →
  p ≠ "" → isBlank p = false →
  (userCache (setProfession now uid p st) !! uidStr uid) ≫= c_profession
  = Some p.
Proof.
  intros Hne Hp Hb. unfold setProfession.
  apply truthy_true in Hp. rewrite Hp, Hb. simpl.
  destruct (getUser now uid st) as [st1 user]. simpl in *.
  destruct (String.eqb_spec (UserData.profession user) p) as [|_]; [done|].
  simpl. by rewrite lookup_insert_eq.
Qed.

Section Survival.

Variable skillConfig : Z → option string.

(** X9.  What a player is known by survives a clear.  When [setName],
    [setFightPoint] or [setProfession] changes the value a user has, the
    new value goes to the persisted cache, and the record [getUser] makes
    for that uid after [clearAll] carries it again.  [setProfession]
    takes no profession that is empty or all white space, Unicode white
    space included. *)
Theorem identity_survives_clear (now1 now2 now3 uid : Z) (persist : bool)
    (reasonEnd : string) (st : Store) :
  let known := (getUser now1 uid st).2 in
  let again s :=
    (getUser now3 uid (clearAll skillConfig now2 persist reasonEnd s)).2 in
  (∀ n, UserData.name known ≠ n →
        UserData.name (again (setName now1 uid n st)) = n)
  ∧ (∀ fp, UserData.fightPoint known ≠ fp →
           UserData.fightPoint (again (setFightPoint now1 uid fp st)) = fp)
  ∧ (∀ p, UserData.profession known ≠ p → p ≠ "" → isBlank p = false →
          UserData.profession (again (setProfession now1 uid p st)) = p).
Proof.
  cbv zeta. repeat split.
  - intros n Hne. rewrite getUser_after_clear.
    destruct (setName_cache now1 uid n st Hne) as [Hc _].
    destruct (userCache (setName now1 uid n st) !! uidStr uid) as [c|];
      [|done].
    simpl in Hc. rewrite hydrate_name, Hc.
    destruct (truthy n) eqn:Ht; [done|]. by apply truthy_false in Ht.
  - intros fp Hne. rewrite getUser_after_clear.
    pose proof (setFightPoint_cache now1 uid fp st Hne) as Hc.
    destruct (userCache (setFightPoint now1 uid fp st) !! uidStr uid)
      as [c|]; [|done].
    simpl in Hc. by rewrite hydrate_fightPoint, Hc.
  - intros p Hne Hp Hb. rewrite getUser_after_clear.
    pose proof (setProfession_cache now1 uid p st Hne Hp Hb) as Hc.
    destruct (userCache (setProfession now1 uid p st) !! uidStr uid)
      as [c|]; [|done].
    simpl in Hc. rewrite hydrate_profession, Hc.
    apply truthy_true in Hp. by rewrite Hp.
Qed.


(** X10.  Of the attributes [setAttrKV] writes, only [hp] and [max_hp]
    survive a clear: the record [getUser] makes for the uid after
    [clearAll] has the value written for these two keys, and nothing for
    any other key, such as [level]. *)
Theorem attributes_after_clear (now1 now2 now3 uid : Z) (key : string)
    (value : Z) (persist : bool) (reasonEnd : string) (st : Store) :
  let st1 := setAttrKV now1 uid key value st in
  let st2 := clearAll skillConfig now2 persist reasonEnd st1 in
  UserData.attr (getUser now3 uid st2).2 !! key
  = if bool_decide (key = "hp" ∨ key = "max_hp") then Some value else None.
Proof.
  cbv zeta. rewrite getUser_after_clear, hydrate_attr.
  unfold setAttrKV.
  destruct (withUser_caches now1 uid (UserData.putAttr key value) st)
    as (Hc & Hh & _).
  set (st1 := withUser now1 uid (UserData.putAttr key value) st) in *.
  destruct (String.eqb_spec key "max_hp") as [->|Hmax].
  - rewrite bool_decide_true by (by right).
    cbn [String.eqb Ascii.eqb Bool.eqb]. cbn [hpCache userCache].
    unfold saveUserCacheThrottled, updateCache, set_pendingSave,
      set_userCache. cbn [hpCache userCache].
    rewrite lookup_insert_eq. cbn [mbind option_bind cache_set_maxHp c_maxHp].
    destruct (hpCache st1 !! uid); simpl;
      [rewrite lookup_insert_ne by done|]; by rewrite lookup_insert_eq.
  - destruct (String.eqb_spec key "hp") as [->|Hhp].
    + rewrite bool_decide_true by (by left).
      cbn [String.eqb Ascii.eqb Bool.eqb]. unfold set_hpCache.
      cbn [hpCache userCache]. rewrite lookup_insert_eq.
      by rewrite lookup_insert_eq.
    + rewrite bool_decide_false by (intros [?|?]; done).
      match goal with
      | |- match ?h with Some _ => _ | None => _ end
             match ?c with Some _ => _ | None => _ end !! _ = _ =>
          destruct h, c
      end; simpl; rewrite ?lookup_insert_ne by done; done.
Qed.

End Survival.

Lemma identity_survives_clear_witness :
  let again s :=
    (getUser 30 7 (clearAll (λ _, None) 20 false "manual_clear" s)).2 in
  UserData.name (again (setName 10 7 "Aria" store0)) = "Aria"
  ∧ UserData.fightPoint (again (setFightPoint 10 7 1200 store0)) = 1200
  ∧ UserData.profession (again (setProfession 10 7 "Frost Mage" store0))
    = "Frost Mage".
Proof.
  destruct (identity_survives_clear (λ _, None) 10 20 30 7 false "manual_clear" store0)
    as (Hname & Hfp & Hprof).
  split; [apply Hname; discriminate|].
  split; [apply Hfp; discriminate|].
  apply Hprof; [discriminate|discriminate|reflexivity].
Defined.

(** A profession made of a no-break space (U+00A0) and a space is blank to
    [trim], and [setProfession] leaves the store as it is. *)
Example setProfession_no_break_space :
  let p := String (Ascii.ascii_of_nat 0xC2)
             (String (Ascii.ascii_of_nat 0xA0) " ") in
  isBlank p = true ∧ setProfession 5 7 p store0 = store0.
Proof. split; reflexivity. Qed.


(* ===================================================================== *)
(** * The enemy listing *)
(* ===================================================================== *)

Lemma elem_of_enemyIds (st : Store) (id : Z) :
  id ∈ enemyIds st ↔
  is_Some (enemy_name (enemyCache st) !! id) ∨
  is_Some (enemy_hp (enemyCache st) !! id) ∨
  is_Some (enemy_maxHp (enemyCache st) !! id).
Proof.
  unfold enemyIds. rewrite !elem_of_union, !elem_of_dom. tauto.
Qed.

Lemma getAllEnemiesData_lookup (st : Store) (id : Z) :
  getAllEnemiesData st !! id
  = if bool_decide (id ∈ enemyIds st)
    then Some (mkEnemyData (enemy_name (enemyCache st) !! id)
                 (enemy_hp (enemyCache st) !! id)
                 (enemy_maxHp (enemyCache st) !! id))
    else None.
Proof.
  unfold getAllEnemiesData.
  set (f := λ id : Z, (id, mkEnemyData (enemy_name (enemyCache st) !! id)
                             (enemy_hp (enemyCache st) !! id)
                             (enemy_maxHp (enemyCache st) !! id))).
  assert (∀ y y' : Z, y ∈ enemyIds st → y' ∈ enemyIds st →
                      (f y).1 = (f y').1 → y = y') as Hinj by done.
  case_bool_decide as Hin.
  - apply (lookup_set_to_map f (enemyIds st) id _ Hinj). by exists id.
  - apply eq_None_not_Some. intros [e He].
    apply (lookup_set_to_map f (enemyIds st) id e Hinj) in He
      as (y & Hy & [= -> _]). done.
Qed.

Lemma getAllEnemiesData_ext (st1 st2 : Store) :
  enemyCache st1 = enemyCache st2 →
  getAllEnemiesData st1 = getAllEnemiesData st2.
Proof.
  intros He. unfold getAllEnemiesData, enemyIds. by rewrite He.
Qed.

Lemma getAllEnemiesData_delete (st : Store) (id : Z) :
  getAllEnemiesData (deleteEnemyData id st) = delete id (getAllEnemiesData st).
Proof.
  apply map_eq. intros k. rewrite getAllEnemiesData_lookup.
  destruct (decide (k = id)) as [->|Hne].
  - rewrite lookup_delete_eq, bool_decide_false; [done|].
    rewrite elem_of_enemyIds. simpl. rewrite !lookup_delete_eq.
    intros [[? ?]|[[? ?]|[? ?]]]; done.
  - rewrite lookup_delete_ne by done. rewrite getAllEnemiesData_lookup.
    assert (k ∈ enemyIds (deleteEnemyData id st) ↔ k ∈ enemyIds st) as Hiff.
    { rewrite !elem_of_enemyIds. simpl.
      by rewrite !lookup_delete_ne by done. }
    rewrite (bool_decide_ext _ _ Hiff). simpl.
    by rewrite !lookup_delete_ne by done.
Qed.

(** X11.  [getAllEnemiesData] lists a monster as soon as one of the three
    caches knows it, with what each cache holds for it, and lists nothing
    else; after [deleteEnemyData] the listing is the old one without that
    monster. *)
Theorem enemy_listing (st : Store) (id : Z) :
  (getAllEnemiesData st !! id
   = match enemy_name (enemyCache st) !! id, enemy_hp (enemyCache st) !! id,
           enemy_maxHp (enemyCache st) !! id with
     | None, None, None => None
     | name, hp, max_hp => Some (mkEnemyData name hp max_hp)
     end)
  ∧ getAllEnemiesData (deleteEnemyData id st) = delete id (getAllEnemiesData st).
Proof.
  split.
  - rewrite getAllEnemiesData_lookup.
    pose proof (elem_of_enemyIds st id) as Hin.
    destruct (enemy_name (enemyCache st) !! id) as [n|],
             (enemy_hp (enemyCache st) !! id) as [h|],
             (enemy_maxHp (enemyCache st) !! id) as [m|];
      first [ rewrite bool_decide_true; [done|]; apply Hin;
              first [ by left | by (right; left) | by (right; right) ]
            | rewrite bool_decide_false; [done|];
              intros [[? ?]|[[? ?]|[? ?]]]%Hin; done ].
  - apply getAllEnemiesData_delete.
Qed.

(* ===================================================================== *)
(** * Instance changes and the manual clear *)
(* ===================================================================== *)

Section InstanceChangeFacts.

Variable skillConfig : Z → option string.
Variable mapNames : Z → option string.

Lemma qualifyingPlayers_no_users (st : Store) :
  users st = ∅ → userGraveyard st = ∅ →
  qualifyingPlayers skillConfig st = [].
Proof.
  intros Hu Hg. unfold qualifyingPlayers, _getAllUserEntries.
  rewrite Hu, Hg. by rewrite map_to_list_empty.
Qed.

(** X12.  [onInstanceChanged] and [_finalizeAndPersistSession] agree on
    what to save.  The first saves a record exactly when the second would,
    and the two records have the same identity, times, players, party
    size and summaries; the first gives no [reasonStart] and names the
    reason of the change (or [instance_change]) as the end. *)
Theorem onInstanceChanged_saves_like_finalize (now : Z)
    (freshId stamp : string) (seq : Z) (reason : string) (extra : Extra)
    (reasonEnd : string) (st : Store) :
  let saved :=
    (onInstanceChanged skillConfig mapNames now freshId stamp seq reason
       extra st).1.2 in
  let st' := _finalizeAndPersistSession skillConfig now reasonEnd st in
  match saved with
  | None => persistedSessions st' = persistedSessions st
  | Some r =>
      ∃ record,
        persistedSessions st' = persistedSessions st ++ [record]
        ∧ is_id r = ss_id record ∧ is_name r = ss_name record
        ∧ is_startedAt r = ss_startedAt record
        ∧ is_endedAt r = ss_endedAt record
        ∧ is_durationMs r = ss_durationMs record
        ∧ is_seq r = ss_seq record
        ∧ is_instanceId r = ss_instanceId record
        ∧ is_fromInstance r = ss_fromInstance record
        ∧ is_partySize r = partySize record
        ∧ is_players r = snapshot_players record
        ∧ is_usersAgg r = snapshot_usersAgg record
        ∧ is_reasonEnd r = (if truthy reason then reason
                            else "instance_change")
  end.
Proof.
  cbv zeta. unfold onInstanceChanged, _finalizeAndPersistSession.
  cbn [fst snd].
  destruct (currentSession st) as [cur|]; [|done].
  destruct (qualifyingPlayers skillConfig st) as [|q qs]; [done|].
  eexists. split; [reflexivity|]. simpl. repeat split.
Qed.

(** X13.  An instance change starts from nothing: after
    [onInstanceChanged] no user is live or retired and a session is open;
    the enemy listing is left as it was.  Hence a second instance change,
    with nothing in between, saves no session. *)
Theorem onInstanceChanged_starts_afresh (now1 now2 : Z)
    (id1 id2 stamp1 stamp2 : string) (seq1 seq2 : Z)
    (reason1 reason2 : string) (extra1 extra2 : Extra) (st : Store) :
  let st1 :=
    (onInstanceChanged skillConfig mapNames now1 id1 stamp1 seq1 reason1
       extra1 st).1.1 in
  users st1 = ∅ ∧ userGraveyard st1 = ∅
  ∧ is_Some (currentSession st1)
  ∧ getAllEnemiesData st1 = getAllEnemiesData st
  ∧ (onInstanceChanged skillConfig mapNames now2 id2 stamp2 seq2 reason2
       extra2 st1).1.2 = None.
Proof.
  cbv zeta.
  assert (users (onInstanceChanged skillConfig mapNames now1 id1 stamp1
                   seq1 reason1 extra1 st).1.1 = ∅) as Hu by done.
  assert (userGraveyard (onInstanceChanged skillConfig mapNames now1 id1
                           stamp1 seq1 reason1 extra1 st).1.1 = ∅) as Hg
    by done.
  split; [done|]. split; [done|]. split; [by eexists|]. split; [done|].
  unfold onInstanceChanged at 1. cbn [fst snd].
  destruct (currentSession _); [|done].
  by rewrite (qualifyingPlayers_no_users _ Hu Hg).
Qed.

Lemma omap_snapshot_live_none (st : Store) :
  (∀ uid u, users st !! uid = Some u → contributes u = false) →
  omap (λ e, _buildPlayerSnapshot skillConfig e.1 st)
    (map_to_list (users st)) = [].
Proof.
  intros Hnone. apply omap_all_None. intros [uid u] Hin.
  apply elem_of_map_to_list in Hin. simpl.
  assert (_getAnyUser uid st = Some u) as Hany
    by (unfold _getAnyUser; by rewrite Hin).
  pose proof (buildPlayerSnapshot_contributes skillConfig uid u st Hany)
    as Hc.
  destruct (_buildPlayerSnapshot skillConfig uid st) eqn:Hb; [|done].
  rewrite (Hnone uid u Hin) in Hc.
  assert (false = true) by (apply Hc; by eexists). done.
Qed.

(** X14.  The manual clear looks for players among the live users only.
    When the session is open and its only contributors have been retired,
    [saveCurrentSessionIfAny] saves nothing, although
    [_finalizeAndPersistSession] would save the session. *)
Theorem manual_clear_misses_retired_players (now : Z) (reasonEnd : string)
    (st : Store) (cur : Session) (p : Z) (up : UserData.t) :
  currentSession st = Some cur →
  users st !! p = None →
  userGraveyard st !! p = Some up →
  contributes up = true →
  (∀ uid u, users st !! uid = Some u → contributes u = false) →
  persistedSessions (saveCurrentSessionIfAny skillConfig now st)
  = persistedSessions st
  ∧ ∃ record,
      persistedSessions
        (_finalizeAndPersistSession skillConfig now reasonEnd st)
      = persistedSessions st ++ [record]
      ∧ (0 < partySize record)%nat.
Proof.
  intros Hcur Hlive Hgrave Hq Hnone. split.
  - unfold saveCurrentSessionIfAny. rewrite Hcur.
    case_bool_decide; [done|].
    by rewrite (omap_snapshot_live_none st Hnone).
  - assert (_getAnyUser p st = Some up) as Hany
      by (unfold _getAnyUser; by rewrite Hlive).
    assert (is_Some (_buildPlayerSnapshot skillConfig p st)) as [snap Hs]
      by (by apply (buildPlayerSnapshot_contributes skillConfig p up)).
    assert (snap ∈ qualifyingPlayers skillConfig st) as Hin.
    { unfold qualifyingPlayers. apply list_elem_of_omap.
      exists (p, up). split; [by apply entries_getAnyUser|done]. }
    unfold _finalizeAndPersistSession. rewrite Hcur.
    destruct (qualifyingPlayers skillConfig st) as [|q qs];
      [by apply elem_of_nil in Hin|].
    eexists. split; [reflexivity|]. simpl. lia.
Qed.


End InstanceChangeFacts.

Lemma manual_clear_misses_retired_players_witness :
  let st := cleanUpInactiveUsers 70000 (epoch_with 6000) in
  persistedSessions (saveCurrentSessionIfAny (λ _, None) 70001 st)
  = persistedSessions st
  ∧ ∃ record,
      persistedSessions
        (_finalizeAndPersistSession (λ _, None) 70001 "manual_clear" st)
      = persistedSessions st ++ [record]
      ∧ (0 < partySize record)%nat.
Proof.
  apply (manual_clear_misses_retired_players (λ _, None) 70001 "manual_clear"
           (cleanUpInactiveUsers 70000 (epoch_with 6000)) session0 7
           (UserData.addDamage 1 1241 Water 6000 false false false 0
              (UserData.new 0 7)));
    try reflexivity.
  intros uid u Hu. vm_compute in Hu.
  destruct uid as [|q|q]; try discriminate;
    repeat (destruct q as [q|q|]; try discriminate).
Defined.

(* ===================================================================== *)
(** * Entity ids *)
(* ===================================================================== *)

(** X15.  A uuid is a uid with a 16-bit tag below it.  For a tag in range,
    the uuid is a player's exactly when the tag is 640 and a monster's
    exactly when it is 64; and when the uuid is below [2 ^ 63], as the value
    of every signed [Long] and of every unsigned one with bit 63 clear is,
    [uuidToUid] gives back the uid. *)
Theorem uuid_decomposition (uid tag : Z) :
  0 ≤ tag < 65536 →
  let uuid := uid * 65536 + tag in
  (uuid < 2 ^ 63 → uuidToUid uuid = uid)
  ∧ isUuidPlayer uuid = (tag =? 640)
  ∧ isUuidMonster uuid = (tag =? 64).
Proof.
  intros Htag uuid. subst uuid.
  assert (Z.land (uid * 65536 + tag) 65535 = tag) as Hland.
  { change 65535 with (Z.ones 16). rewrite Z.land_ones by lia.
    change (2 ^ 16) with 65536.
    rewrite Z.add_comm, Z.mod_add by lia. apply Z.mod_small. lia. }
  unfold isUuidPlayer, isUuidMonster. rewrite Hland.
  split; [|done]. intros Hrange. unfold uuidToUid.
  destruct (Z.ltb_spec (uid * 65536 + tag) (2 ^ 63)) as [_|Hge]; [|lia].
  rewrite Z.shiftr_div_pow2 by lia. change (2 ^ 16) with 65536.
  rewrite Z.add_comm, Z.div_add by lia.
  rewrite Z.div_small by lia. lia.
Qed.

Lemma uuid_decomposition_witness :
  uuidToUid player7 = 7 ∧ isUuidPlayer player7 = true
  ∧ isUuidMonster player7 = false.
Proof.
  destruct (uuid_decomposition 7 640) as (Huid & Hplayer & Hmonster); [lia|].
  split; [apply Huid; reflexivity|]. split; [exact Hplayer|exact Hmonster].
Defined.

(** An unsigned uuid with bit 63 set does not give its uid back: the shift
    fills the top with ones and [toNumber] rounds. *)
Example uuidToUid_bit63 :
  uuidToUid (2 ^ 63 + 7 * 65536 + 640) = 18446603336221196288.
Proof. reflexivity. Qed.

(* ===================================================================== *)
(** * Deaths *)
(* ===================================================================== *)

Lemma getUser_live (now uid : Z) (u : UserData.t) (st : Store) :
  users st !! uid = Some u → getUser now uid st = (st, u).
Proof. intros Hu. unfold getUser. by rewrite Hu. Qed.

Lemma getUser_keeps_live (now uid k : Z) (v : UserData.t) (st : Store) :
  users st !! k = Some v → users (getUser now uid st).1 !! k = Some v.
Proof.
  intros Hk. destruct (decide (uid = k)) as [->|Hne].
  - by rewrite (getUser_live now k v st Hk).
  - destruct (getUser_spec now uid st) as (Hu & _). cbv zeta in Hu.
    rewrite Hu. by rewrite lookup_insert_ne.
Qed.

Lemma withUser_lookup (now uid : Z) (f : UserData.t → UserData.t)
    (st : Store) :
  users (withUser now uid f st) !! uid = Some (f (getUser now uid st).2).
Proof.
  unfold withUser. destruct (getUser now uid st) as [st1 user]. simpl.
  by rewrite lookup_insert_eq.
Qed.

Lemma setAttrKV_hp (now uid v : Z) (st : Store) :
  hpCache (setAttrKV now uid "hp" v st) !! uid = Some v ∧
  ∃ u, users (setAttrKV now uid "hp" v st) !! uid = Some u ∧
       UserData.attr u !! "hp" = Some v.
Proof.
  unfold setAttrKV. cbn [String.eqb Ascii.eqb Bool.eqb]. unfold set_hpCache.
  cbn [hpCache users]. split; [by rewrite lookup_insert_eq|].
  rewrite withUser_lookup. eexists. split; [reflexivity|].
  simpl. by rewrite lookup_insert_eq.
Qed.

Section Deaths.

Variable EDamageType_Heal : option Z.

Lemma logEvent_frame (now : Z) (tp : bool) (targetUid : Z) (d : SkillDamage)
    (st : Store) :
  let st' := logEvent now tp targetUid d st in
  hpCache st' = hpCache st ∧ enemyCache st' = enemyCache st ∧
  ∀ k v, users st !! k = Some v → users st' !! k = Some v.
Proof.
  cbv zeta. unfold logEvent.
  set (st1 := if isUuidPlayer (default 0 (attackerOf d))
              then (getUser now (uuidToUid (default 0 (attackerOf d))) st).1
              else st).
  set (st2 := if tp then (getUser now targetUid st1).1 else st1).
  assert (hpCache st1 = hpCache st ∧ enemyCache st1 = enemyCache st ∧
          ∀ k v, users st !! k = Some v → users st1 !! k = Some v) as H1.
  { subst st1. destruct (isUuidPlayer _); [|done].
    destruct (getUser_caches now (uuidToUid (default 0 (attackerOf d))) st)
      as (_ & Hh & He & _).
    split; [done|]. split; [done|]. intros k v. apply getUser_keeps_live. }
  assert (hpCache st2 = hpCache st1 ∧ enemyCache st2 = enemyCache st1 ∧
          ∀ k v, users st1 !! k = Some v → users st2 !! k = Some v) as H2.
  { subst st2. destruct tp; [|done].
    destruct (getUser_caches now targetUid st1) as (_ & Hh & He & _).
    split; [done|]. split; [done|]. intros k v. apply getUser_keeps_live. }
  destruct H1 as (Hh1 & He1 & Hu1), H2 as (Hh2 & He2 & Hu2).
  unfold addLog. destruct (IS_PAUSED (config st2)); simpl;
    (split; [congruence|]); (split; [congruence|]); auto.
Qed.

(** X16.  A lethal hit on a player always zeroes the player's hp: after
    the loop body has handled an entry that is not skipped and has
    [IsDead] set, for a player target, the hp cache and the player's live
    record both hold hp 0.  Neither a pause nor the entry being a heal
    prevents it. *)
Theorem lethal_hit_zeroes_player_hp (now targetUid : Z) (d : SkillDamage)
    (st : Store) :
  skipped d = false →
  IsDead d = true →
  let st' := processDamage EDamageType_Heal now true targetUid st d in
  hpCache st' !! targetUid = Some 0
  ∧ ∃ u, users st' !! targetUid = Some u ∧
         UserData.attr u !! "hp" = Some 0.
Proof.
  intros Hskip Hdead st'. subst st'. unfold processDamage. rewrite Hskip.
  match goal with
  | |- context [logEvent now true targetUid d ?s] => set (st1 := s)
  end.
  destruct (logEvent_frame now true targetUid d st1) as (Hh & _ & Hu).
  cbv zeta in Hh, Hu. rewrite Hh.
  assert (hpCache st1 !! targetUid = Some 0 ∧
          ∃ u, users st1 !! targetUid = Some u ∧
               UserData.attr u !! "hp" = Some 0) as [Hhp (u & Hlive & Hattr)].
  { subst st1. unfold creditEvent. cbv zeta. rewrite Hdead.
    apply setAttrKV_hp. }
  split; [done|]. exists u. split; [by apply Hu|done].
Qed.


End Deaths.

Lemma lethal_hit_zeroes_player_hp_witness :
  let lethal := mkSkillDamage 1241 None (Some monster9) (Some 250) None
                  (Some 1) (Some 0) true None None None in
  let paused := newStore 0 (mkConfig true false) in
  let st' := processDamage (Some 2) 5 true 7 paused lethal in
  hpCache st' !! 7 = Some 0
  ∧ ∃ u, users st' !! 7 = Some u ∧ UserData.attr u !! "hp" = Some 0.
Proof.
  apply (lethal_hit_zeroes_player_hp (Some 2) 5 7
           (mkSkillDamage 1241 None (Some monster9) (Some 250) None
              (Some 1) (Some 0) true None None None)
           (newStore 0 (mkConfig true false)));
    reflexivity.
Defined.

Section MonsterDeaths.

Variable EDamageType_Heal : option Z.

Lemma addDamage_enemyCache (now uid skillId : Z) (el : DamageElement)
    (v : Z) (c l cl : bool) (hpLessen targetUid : Z) (st : Store) :
  enemyCache (addDamage now uid skillId el v c l cl hpLessen targetUid st)
  = enemyCache st.
Proof.
  unfold addDamage. destruct (IS_PAUSED (config st)); [done|].
  destruct (onlyRecordEliteDummy (config st) && negb (targetUid =? 75));
    [done|].
  by destruct (withUser_caches now uid
                 (UserData.addDamage now skillId el v c l cl hpLessen) st)
    as (_ & _ & ->).
Qed.

(** X17.  A lethal hit on a target that is not a player removes the
    target from the enemy listing, and changes the listing in no other
    way: whoever dealt the hit, and whether or not the meter is paused.
    A hit is an entry the loop does not skip: it has a skill id, an
    attacker and a magnitude other than zero. *)
Theorem lethal_hit_forgets_monster (now targetUid : Z) (d : SkillDamage)
    (st : Store) :
  skipped d = false →
  IsDead d = true →
  getAllEnemiesData (processDamage EDamageType_Heal now false targetUid st d)
  = delete targetUid (getAllEnemiesData st).
Proof.
  intros Hskip Hdead. unfold processDamage. rewrite Hskip.
  match goal with
  | |- context [logEvent now false targetUid d ?s] => set (st1 := s)
  end.
  destruct (logEvent_frame now false targetUid d st1) as (_ & He & _).
  cbv zeta in He. rewrite (getAllEnemiesData_ext _ _ He).
  subst st1. unfold creditEvent. cbv zeta. rewrite Hdead.
  rewrite getAllEnemiesData_delete. f_equal.
  apply getAllEnemiesData_ext.
  destruct (negb (isHeal EDamageType_Heal d) &&
            isUuidPlayer (default 0 (attackerOf d))); [|done].
  apply addDamage_enemyCache.
Qed.


End MonsterDeaths.

Lemma lethal_hit_forgets_monster_witness :
  let lethal := mkSkillDamage 1241 None (Some player9) (Some 250) None
                  (Some 1) (Some 0) true None None None in
  let st := set_enemyCache (mkEnemyCache {[ 3 := "Boar" ]} {[ 3 := 40 ]} ∅)
              store0 in
  getAllEnemiesData (processDamage (Some 2) 5 false 3 st lethal)
  = delete 3 (getAllEnemiesData st).
Proof.
  apply (lethal_hit_forgets_monster (Some 2) 5 3
           (mkSkillDamage 1241 None (Some player9) (Some 250) None
              (Some 1) (Some 0) true None None None)
           (set_enemyCache
              (mkEnemyCache {[ 3 := "Boar" ]} {[ 3 := 40 ]} ∅) store0));
    reflexivity.
Defined.

(* ===================================================================== *)
(** * Entities coming into view *)
(* ===================================================================== *)

Section EntityRouting.

Variable pb_string : list byte → option string.
Variable pb_int32 : list byte → option Z.
Variable monsterNames : Z → option string.
Variable EntMonster EntChar : option Z.

Local Abbreviation asMonster uid attrs st :=
  (processEnemyAttrs pb_string pb_int32 monsterNames uid attrs st).
Local Abbreviation asPlayer now uid attrs st :=
  (processPlayerAttrs pb_string pb_int32 now uid attrs st).

(** X18.  How [#processSyncNearEntities] routes the attributes of an
    entity.  An entity typed [EntMonster] is handled as a monster whatever
    the tag of its uuid; one typed [EntChar], with a type that is neither
    zero nor [EntMonster], is handled as a player whatever the tag; for
    any other type, zero and missing included, the tag alone decides. *)
Theorem entity_type_overrides_uuid_tag (now : Z) (entity : Entity)
    (entUuid : Z) (st : Store) :
  ent_Uuid entity = Some entUuid →
  let uid := uuidToUid entUuid in
  let attrs := ent_Attrs entity in
  let routed := processEntity pb_string pb_int32 monsterNames EntMonster
                  EntChar now entity st in
  (ent_EntType entity = EntMonster → routed = asMonster uid attrs st)
  ∧ (ent_EntType entity = EntChar → ent_EntType entity ≠ EntMonster →
     noEntType entity = false → routed = asPlayer now uid attrs st)
  ∧ (ent_EntType entity ≠ EntMonster → ent_EntType entity ≠ EntChar →
     routed = if isUuidMonster entUuid then asMonster uid attrs st
              else if isUuidPlayer entUuid then asPlayer now uid attrs st
              else Ok st).
Proof.
  intros Huuid uid attrs routed. subst uid attrs routed.
  unfold processEntity. rewrite Huuid. cbv zeta.
  split; [|split].
  - intros Hm. rewrite bool_decide_true by done. cbn [orb].
    by destruct (ent_Attrs entity).
  - intros Hc Hnm Hnz. rewrite (bool_decide_false _ Hnm), Hnz.
    rewrite bool_decide_true by done. cbn [orb andb].
    by destruct (ent_Attrs entity).
  - intros Hnm Hnc.
    rewrite (bool_decide_false _ Hnm), (bool_decide_false _ Hnc).
    cbn [orb].
    destruct (ent_Attrs entity) as [|a attrs] eqn:Hattrs.
    + by destruct (isUuidMonster entUuid), (isUuidPlayer entUuid).
    + destruct (noEntType entity), (isUuidMonster entUuid) eqn:Hgm,
        (isUuidPlayer entUuid) eqn:Hgp; cbn [andb]; done.
Qed.


End EntityRouting.

Lemma entity_type_overrides_uuid_tag_witness :
  let attrs := [mkAttr AttrType.AttrHp (Some [x28])] in
  (* typed as a monster, tagged as a player *)
  processEntity (λ _, None) (λ _, Some 40) (λ _, None) (Some 2) (Some 1) 5
    (mkEntity (Some player7) (Some 2) attrs) store0
  = processEnemyAttrs (λ _, None) (λ _, Some 40) (λ _, None) 7 attrs store0.
Proof.
  apply (entity_type_overrides_uuid_tag (λ _, None) (λ _, Some 40)
           (λ _, None) (Some 2) (Some 1) 5
           (mkEntity (Some player7) (Some 2)
              [mkAttr AttrType.AttrHp (Some [x28])])
           player7 store0);
    reflexivity.
Defined.

(* ===================================================================== *)
(** * The dirty-data fields *)
(* ===================================================================== *)

(** [doesStreamHaveIdentifier] puts the cursor back where it was, also when
    it answers yes; the next word read is then the identifier itself. *)
Lemma identifier_restores_cursor (r : BinaryReader.t) (b : bool) (r' : BinaryReader.t) :
  doesStreamHaveIdentifier r = Some (b, r') →
  r' = r ∧
  (b = true →
   readFieldIndex r
   = Some (STREAM_IDENTIFIER, BinaryReader.advance 4 (BinaryReader.advance 4 r))).
Proof.
  destruct r as [buf pos].
  unfold doesStreamHaveIdentifier, readFieldIndex, BinaryReader.bind,
    BinaryReader.readUInt32LE, BinaryReader.readInt32,
    BinaryReader.setPosition, BinaryReader.ret, BinaryReader.advance.
  cbn [BinaryReader.buffer BinaryReader.position].
  destruct (_ <? 8)%nat; [intros [= <- <-]; done|].
  destruct (Buffer_readUInt32LE buf pos) as [id|]; cbn [mbind option_bind]; [|done].
  cbn [BinaryReader.buffer BinaryReader.position].
  destruct (Buffer_readUInt32BE buf (pos + 4)) as [w1|];
    cbn [mbind option_bind]; [|done].
  destruct (Z.eqb_spec id STREAM_IDENTIFIER) as [->|Hne]; cbn [negb].
  - cbn [BinaryReader.buffer BinaryReader.position].
    destruct (Buffer_readUInt32BE buf (pos + 4 + 4)) as [w2|];
      cbn [mbind option_bind]; [|done].
    cbn [BinaryReader.buffer BinaryReader.position].
    destruct (Buffer_readUInt32BE buf (pos + 4 + 4 + 4)) as [w3|];
      cbn [mbind option_bind]; [|done].
    intros [= <- <-]. done.
  - intros [= <- <-]. done.
Qed.

Section DirtyDataFacts.

Variable utf8 : list byte → string.

Lemma dirtyUpdate_identity (now uid : Z) (r r' : BinaryReader.t)
    (update : Store → Store) :
  dirtyUpdate utf8 now uid r = Some (update, r') → update = id.
Proof.
  unfold dirtyUpdate. unfold BinaryReader.bind at 1.
  destruct (doesStreamHaveIdentifier r) as [[b r1]|] eqn:Hid; [|done].
  destruct (identifier_restores_cursor r b r1 Hid) as [-> Hword].
  destruct b; cbn [negb]; [|by intros [= <- _]].
  unfold BinaryReader.bind at 1. rewrite (Hword eq_refl).
  change (STREAM_IDENTIFIER =? 2) with false.
  change (STREAM_IDENTIFIER =? 16) with false.
  change (STREAM_IDENTIFIER =? 61) with false.
  cbn iota. by intros [= <- _].
Qed.

(** X19.  The field parser of [#processSyncContainerDirtyData] never
    changes the store.  Because [doesStreamHaveIdentifier] restores the
    cursor, the word read next as the field index is the stream identifier
    [0xfffffffe], which is none of the indices 2, 16 and 61 the parser
    knows: whatever the buffer holds, no name, fight point, hp or
    profession is taken from it. *)
Theorem dirty_data_never_updates (now currentUserUuid : Z)
    (buf : option (list byte)) (st : Store) :
  resultStore (dirtyDataFields utf8 now currentUserUuid buf st) = st.
Proof.
  unfold dirtyDataFields.
  destruct (currentUserUuid =? 0); [done|].
  destruct buf as [buf|]; [|done].
  destruct (dirtyUpdate utf8 now (uuidToUid currentUserUuid)
              (BinaryReader.mk buf 0)) as [[update r']|] eqn:Hupd; [|done].
  by rewrite (dirtyUpdate_identity _ _ _ _ _ Hupd).
Qed.

End DirtyDataFacts.

(* ===================================================================== *)
(** * Attributes *)
(* ===================================================================== *)

Lemma professionName_not_blank (id : Z) :
  getProfessionNameFromId id ≠ "" →
  isBlank (getProfessionNameFromId id) = false.
Proof.
  unfold getProfessionNameFromId.
  repeat (match goal with
          | |- context [match ?x with _ => _ end] => destruct x
          end; try done).
Qed.

Lemma setProfession_sets (now uid : Z) (p : string) (st : Store) :
  p ≠ "" → isBlank p = false →
  ∃ u, users (setProfession now uid p st) !! uid = Some u ∧
       UserData.profession u = p.
Proof.
  intros Hp Hb. unfold setProfession.
  apply truthy_true in Hp. rewrite Hp, Hb. cbn [negb orb].
  destruct (getUser_spec now uid st) as (_ & _ & Hlive). cbv zeta in Hlive.
  destruct (getUser now uid st) as [st1 user]. cbn [fst snd] in Hlive.
  destruct (String.eqb_spec (UserData.profession user) p) as [Heq|Hne];
    cbn [negb].
  - by exists user.
  - eexists. simpl. rewrite lookup_insert_eq. split; [reflexivity|done].
Qed.

Lemma setName_enemyCache (now uid : Z) (n : string) (st : Store) :
  enemyCache (setName now uid n st) = enemyCache st.
Proof.
  unfold setName. destruct (getUser_caches now uid st) as (_ & _ & He & _).
  destruct (getUser now uid st) as [st1 user]. simpl in *.
  by destruct (negb _).
Qed.

Lemma setFightPoint_enemyCache (now uid fp : Z) (st : Store) :
  enemyCache (setFightPoint now uid fp st) = enemyCache st.
Proof.
  unfold setFightPoint.
  destruct (getUser_caches now uid st) as (_ & _ & He & _).
  destruct (getUser now uid st) as [st1 user]. simpl in *.
  by destruct (negb _).
Qed.

Lemma setProfession_enemyCache (now uid : Z) (p : string) (st : Store) :
  enemyCache (setProfession now uid p st) = enemyCache st.
Proof.
  unfold setProfession. destruct (negb (truthy p) || isBlank p); [done|].
  destruct (getUser_caches now uid st) as (_ & _ & He & _).
  destruct (getUser now uid st) as [st1 user]. simpl in *.
  by destruct (negb _).
Qed.

Lemma setAttrKV_enemyCache (now uid : Z) (key : string) (v : Z)
    (st : Store) :
  enemyCache (setAttrKV now uid key v st) = enemyCache st.
Proof.
  unfold setAttrKV.
  destruct (withUser_caches now uid (UserData.putAttr key v) st)
    as (_ & _ & He).
  by destruct (String.eqb key "max_hp"), (String.eqb key "hp").
Qed.

Section AttributeFacts.

Variable pb_string : list byte → option string.
Variable pb_int32 : list byte → option Z.
Variable monsterNames : Z → option string.

(** X20.  A profession attribute with an id outside the table of
    professions is ignored altogether: the store is left as it was, and no
    record is made for the player.  With an id of the table, the player
    has a live record afterwards and its profession is the name the table
    gives. *)
Theorem profession_attribute (now uid : Z) (a : Attr) (raw : list byte)
    (v : Z) (st : Store) :
  Id a = AttrType.AttrProfessionId →
  RawData a = Some raw →
  pb_int32 raw = Some v →
  let st' := resultStore (playerAttr pb_string pb_int32 now uid a st) in
  if bool_decide (getProfessionNameFromId v = "") then st' = st
  else ∃ u, users st' !! uid = Some u ∧
            UserData.profession u = getProfessionNameFromId v.
Proof.
  intros Hid Hraw Hv st'. subst st'. unfold playerAttr.
  rewrite Hraw, Hid. cbv zeta.
  change (AttrType.AttrProfessionId =? 0) with false.
  change (AttrType.AttrProfessionId =? AttrType.AttrName) with false.
  change (AttrType.AttrProfessionId =? AttrType.AttrProfessionId) with true.
  cbn iota. unfold decodeInt. rewrite Hv. cbn [resultStore].
  case_bool_decide as Hname.
  - unfold setProfession. by rewrite Hname.
  - apply setProfession_sets; [done|]. by apply professionName_not_blank.
Qed.

(** X21.  Monster attributes and player attributes are kept apart: a list
    of attributes handled for a monster changes the enemy cache at most,
    so no player record, live or retired, and no player cache is touched;
    a list handled for a player leaves the enemy cache as it was.  This
    holds also when a decoder throws half-way. *)
Theorem attributes_kept_apart (now uid : Z) (attrs : list Attr)
    (st : Store) :
  let m := resultStore
             (processEnemyAttrs pb_string pb_int32 monsterNames uid attrs
                st) in
  let p := resultStore
             (processPlayerAttrs pb_string pb_int32 now uid attrs st) in
  (users m = users st ∧ userGraveyard m = userGraveyard st ∧
   userCache m = userCache st ∧ hpCache m = hpCache st)
  ∧ enemyCache p = enemyCache st.
Proof.
  cbv zeta. split.
  - revert st. induction attrs as [|a attrs IH]; intros st; [done|].
    cbn [processEnemyAttrs].
    assert (∃ st1, (enemyAttr pb_string pb_int32 monsterNames uid a st
                    = Ok st1 ∨
                    enemyAttr pb_string pb_int32 monsterNames uid a st
                    = Exn st1) ∧
                   users st1 = users st ∧
                   userGraveyard st1 = userGraveyard st ∧
                   userCache st1 = userCache st ∧
                   hpCache st1 = hpCache st) as (st1 & Hcase & Hframe).
    { unfold enemyAttr, decodeInt. destruct (RawData a) as [raw|];
        [|by eexists; split; [left|]].
      cbv zeta.
      repeat (match goal with
              | |- context [if ?b then _ else _] => destruct b
              | |- context [match pb_string raw with _ => _ end] =>
                  destruct (pb_string raw)
              | |- context [match pb_int32 raw with _ => _ end] =>
                  destruct (pb_int32 raw)
              | |- context [match monsterNames ?k with _ => _ end] =>
                  destruct (monsterNames k)
              end);
        eexists; (split; [first [by left|by right]|done]). }
    destruct Hframe as (Hu & Hg & Hc & Hh).
    destruct Hcase as [-> | ->]; [|done].
    destruct (IH st1) as (-> & -> & -> & ->). done.
  - revert st. induction attrs as [|a attrs IH]; intros st; [done|].
    cbn [processPlayerAttrs].
    assert (∃ st1, (playerAttr pb_string pb_int32 now uid a st = Ok st1 ∨
                    playerAttr pb_string pb_int32 now uid a st = Exn st1) ∧
                   enemyCache st1 = enemyCache st) as (st1 & Hcase & He).
    { unfold playerAttr, decodeInt. destruct (RawData a) as [raw|];
        [|by eexists; split; [left|]].
      cbv zeta.
      repeat (match goal with
              | |- context [if ?b then _ else _] => destruct b
              | |- context [match pb_string raw with _ => _ end] =>
                  destruct (pb_string raw)
              | |- context [match pb_int32 raw with _ => _ end] =>
                  destruct (pb_int32 raw)
              end);
        eexists; (split; [first [by left|by right]|]);
        first [ done
              | apply setName_enemyCache
              | apply setProfession_enemyCache
              | apply setFightPoint_enemyCache
              | apply setAttrKV_enemyCache ]. }
    destruct Hcase as [-> | ->]; [|done].
    by rewrite IH.
Qed.

End AttributeFacts.

Lemma profession_attribute_witness :
  ∃ u, users (resultStore
                (playerAttr (λ _, None) (λ _, Some 2) 5 7
                   (mkAttr AttrType.AttrProfessionId (Some [x02])) store0))
       !! 7 = Some u ∧
       UserData.profession u = "Frost Mage".
Proof.
  apply (profession_attribute (λ _, None) (λ _, Some 2) 5 7
           (mkAttr AttrType.AttrProfessionId (Some [x02])) [x02] 2 store0);
    reflexivity.
Defined.

(* ===================================================================== *)
(** * The user record under a stream of skill events *)
(* ===================================================================== *)

(** The sum over a map of per-skill entries, and what one more record does
    to it. *)
Lemma skill_sum_recordSkill (now key : Z) (ty : StatType)
    (el : DamageElement) (v : Z) (c cl : bool) (hpLessen : Z)
    (m : gmap Z StatisticData.t) :
  map_fold (λ _ stat acc,
              acc + StatisticData.total (StatisticData.stats stat)) 0
    (UserData.recordSkill now key ty el v c cl hpLessen m)
  = map_fold (λ _ stat acc,
                acc + StatisticData.total (StatisticData.stats stat)) 0 m
    + v.
Proof.
  set (f := λ (_ : Z) (stat : StatisticData.t) (acc : Z),
              acc + StatisticData.total (StatisticData.stats stat)).
  assert (∀ (j1 j2 : Z) (z1 z2 : StatisticData.t) (y : Z),
            f j1 z1 (f j2 z2 y) = f j2 z2 (f j1 z1 y)) as Hcomm
    by (intros; unfold f; lia).
  assert (∀ e, StatisticData.total
                 (StatisticData.stats
                    (StatisticData.clearWindow
                       (StatisticData.addRecord now v c cl hpLessen e)))
               = StatisticData.total (StatisticData.stats e) + v) as Hadd
    by (intros e; by destruct c, cl).
  assert (∀ (k : Z) (x : StatisticData.t) (m' : gmap Z StatisticData.t),
            m' !! k = None →
            map_fold f 0 (<[k := x]> m') = f k x (map_fold f 0 m')) as Hins
    by (intros; apply (map_fold_insert_L f); auto).
  unfold UserData.recordSkill. cbv zeta.
  destruct (m !! key) as [e|] eqn:Hkey; cbn [default].
  - rewrite <- insert_delete_eq.
    rewrite Hins by apply lookup_delete_eq.
    rewrite <- (insert_delete_id m key e Hkey) at 2.
    rewrite Hins by apply lookup_delete_eq.
    unfold f. rewrite Hadd. unfold id. lia.
  - rewrite Hins by done. unfold f. rewrite Hadd. simpl. lia.
Qed.

Lemma feedEvent_totals (now : Z) (ev : SkillEvent) (u : UserData.t) :
  damageTotal (feedEvent now ev u) = damageTotal u + damageOf ev ∧
  healingTotal (feedEvent now ev u) = healingTotal u + healingOf ev ∧
  skillUsageTotal (feedEvent now ev u)
  = skillUsageTotal u + damageOf ev + healingOf ev.
Proof.
  unfold damageTotal, healingTotal, skillUsageTotal.
  destruct ev as [s el v c l cl hp|s el v c l cl]; cbn [feedEvent damageOf healingOf].
  - unfold UserData.addDamage. cbv zeta.
    rewrite damageStats_updateSubProfession, healingStats_updateSubProfession,
      updateSubProfession_skillUsage.
    cbn [UserData.damageStats UserData.healingStats UserData.skillUsage
         UserData.withSkillUsage UserData.withDamageStats UserData._touch].
    rewrite skill_sum_recordSkill.
    split; [by destruct c, l; simpl; lia|]. split; lia.
  - unfold UserData.addHealing. cbv zeta.
    rewrite damageStats_updateSubProfession, healingStats_updateSubProfession,
      updateSubProfession_skillUsage.
    cbn [UserData.damageStats UserData.healingStats UserData.skillUsage
         UserData.withSkillUsage UserData.withHealingStats UserData._touch].
    rewrite skill_sum_recordSkill.
    split; [lia|]. split; [by destruct c, l; simpl; lia|lia].
Qed.

Lemma feedEvents_totals (events : list (Z * SkillEvent)) (u : UserData.t) :
  damageTotal (feedEvents events u) = damageTotal u + sumOver damageOf events ∧
  healingTotal (feedEvents events u)
  = healingTotal u + sumOver healingOf events ∧
  skillUsageTotal (feedEvents events u)
  = skillUsageTotal u + sumOver damageOf events + sumOver healingOf events.
Proof.
  revert u. induction events as [|[now ev] events IH]; intros u.
  { unfold sumOver. simpl. repeat split; lia. }
  unfold feedEvents. cbn [foldl fst snd].
  destruct (IH (feedEvent now ev u)) as (Hd & Hh & Hs).
  unfold feedEvents in Hd, Hh, Hs. rewrite Hd, Hh, Hs.
  destruct (feedEvent_totals now ev u) as (-> & -> & ->).
  unfold sumOver. cbn [foldr snd]. repeat split; lia.
Qed.

(** X22.  The per-skill entries of a record account for all it has dealt
    and healed.  For a new record fed any list of skill events, the damage
    total is the sum of the damage values, the healing total the sum of the
    healing values, and the totals of the per-skill entries add up to both
    together: also when a damage skill id falls on the key of a healing
    skill. *)
Theorem skill_totals_add_up (now uid : Z) (events : list (Z * SkillEvent)) :
  let u := feedEvents events (UserData.new now uid) in
  damageTotal u = sumOver damageOf events
  ∧ healingTotal u = sumOver healingOf events
  ∧ skillUsageTotal u = damageTotal u + healingTotal u.
Proof.
  cbv zeta.
  destruct (feedEvents_totals events (UserData.new now uid)) as (Hd & Hh & Hs).
  rewrite Hd, Hh, Hs. unfold skillUsageTotal, damageTotal, healingTotal.
  simpl. rewrite map_fold_empty. repeat split; lia.
Qed.

(** A record whose profession is still the placeholder ["..."] takes no
    sub-profession from a skill event. *)
Lemma feedEvent_placeholder (now : Z) (ev : SkillEvent) (u : UserData.t) :
  UserData.profession u = "..." →
  UserData.profession (feedEvent now ev u) = "..." ∧
  UserData.subProfession (feedEvent now ev u) = UserData.subProfession u ∧
  UserData.subProfessionUsage (feedEvent now ev u)
  = UserData.subProfessionUsage u.
Proof.
  intros Hp.
  destruct ev as [s el v c l cl hp|s el v c l cl]; cbn [feedEvent];
    [unfold UserData.addDamage|unfold UserData.addHealing]; cbv zeta;
    unfold UserData.updateSubProfession; cbv zeta;
    (destruct (negb (truthy (getSubProfessionBySkillId s))); [by simpl|]);
    cbn [UserData.profession UserData.withSkillUsage UserData.withDamageStats
         UserData.withHealingStats UserData._touch];
    rewrite Hp; by simpl.
Qed.

(** X23.  No sub-profession before the profession is known: however many
    skill events a new record is fed, with whatever skill ids, its
    profession stays the placeholder, its sub-profession stays empty and no
    use of a sub-profession is counted. *)
Theorem no_subProfession_before_profession (now uid : Z)
    (events : list (Z * SkillEvent)) :
  let u := feedEvents events (UserData.new now uid) in
  UserData.profession u = "..."
  ∧ UserData.subProfession u = ""
  ∧ UserData.subProfessionUsage u = ∅.
Proof.
  cbv zeta.
  assert (∀ u, UserData.profession u = "..." →
               UserData.profession (feedEvents events u) = "..." ∧
               UserData.subProfession (feedEvents events u)
               = UserData.subProfession u ∧
               UserData.subProfessionUsage (feedEvents events u)
               = UserData.subProfessionUsage u) as Hgen.
  { induction events as [|[t ev] events IH]; intros u Hp; [done|].
    unfold feedEvents. cbn [foldl fst snd].
    destruct (feedEvent_placeholder t ev u Hp) as (Hp' & Hs & Hu).
    destruct (IH (feedEvent t ev u) Hp') as (Hp'' & Hs' & Hu').
    unfold feedEvents in Hp'', Hs', Hu'.
    rewrite Hp'', Hs', Hu', Hs, Hu. done. }
  by apply Hgen.
Qed.

(** X24.  A change of profession starts the sub-profession over.
    [setProfession] with a profession other than the current one empties the
    sub-profession and the usage counts, and keeps the statistics; if the
    new profession is a real one, the next skill event that names a
    sub-profession sets it at once, whatever was counted before. *)
Theorem profession_change_resets_subProfession (now now' : Z) (p : string)
    (ev : SkillEvent) (u : UserData.t) :
  p ≠ UserData.profession u →
  let u1 := UserData.setProfession now p u in
  UserData.subProfession u1 = ""
  ∧ UserData.subProfessionUsage u1 = ∅
  ∧ statsOf u1 = statsOf u
  ∧ (p ≠ "..." → p ≠ "" →
     getSubProfessionBySkillId (eventSkillId ev) ≠ "" →
     UserData.subProfession (feedEvent now' ev u1)
     = getSubProfessionBySkillId (eventSkillId ev)).
Proof.
  intros Hne u1.
  assert (UserData.subProfession u1 = "" ∧
          UserData.subProfessionUsage u1 = ∅ ∧
          UserData.profession u1 = p) as (Hsub & Huse & Hprof).
  { subst u1. unfold UserData.setProfession. cbv zeta.
    cbn [UserData.profession UserData._touch].
    destruct (String.eqb_spec p (UserData.profession u)) as [|_]; [done|].
    done. }
  split; [done|]. split; [done|].
  split; [apply statsOf_setProfession|].
  intros Hp1 Hp2 Hskill.
  destruct (feedEvent_effect now' ev u1) as (_ & _ & Hnew);
    [done|by rewrite Hprof|by rewrite Hprof|].
  rewrite Hnew, Hsub. by rewrite bool_decide_true.
Qed.

Lemma profession_change_resets_subProfession_witness :
  let u := feedEvent 2 (DamageEvent 1241 Water 100 false false false 0)
             (UserData.setProfession 1 "Frost Mage" (UserData.new 0 7)) in
  let u1 := UserData.setProfession 3 "Verdant Oracle" u in
  UserData.subProfession u = "frostbeam"
  ∧ UserData.subProfession u1 = ""
  ∧ UserData.subProfession
      (feedEvent 4 (HealingEvent 20301 Wood 50 false false false) u1)
    = "lifebind".
Proof.
  split; [reflexivity|].
  destruct (profession_change_resets_subProfession 3 4 "Verdant Oracle"
              (HealingEvent 20301 Wood 50 false false false)
              (feedEvent 2 (DamageEvent 1241 Water 100 false false false 0)
                 (UserData.setProfession 1 "Frost Mage" (UserData.new 0 7))))
    as (Hsub & _ & _ & Hnext); [discriminate|].
  split; [exact Hsub|].
  apply Hnext; discriminate.
Defined.

(* ===================================================================== *)
(** * Streams of frames *)
(* ===================================================================== *)

(** The loop of [processPacket] over a run of plain frames, from any
    position of the cursor. *)
Lemma processPacket_loop_frames (zstd : option (list byte → option (list byte)))
    (methodThrows : Z → list byte → bool) (rest : list byte)
    (frames : list (list byte)) :
  (length rest < 6)%nat →
  Forall (plainFrame zstd methodThrows) frames →
  ∀ fuel log buf pos,
    drop pos buf = concat frames ++ rest →
    (length (concat frames ++ rest) < fuel)%nat →
    processPacket_loop zstd methodThrows fuel log (BinaryReader.mk buf pos)
    = Some (log ++ frames).
Proof.
  intros Hrest Hframes.
  induction Hframes as [|f frames (Hlen & Hrange & Hroute) _ IH];
    intros fuel log buf pos Hdrop Hfuel.
  - destruct fuel as [|fuel]; [lia|]. cbn [processPacket_loop].
    simpl in Hdrop.
    assert (BinaryReader.remaining (BinaryReader.mk buf pos) = length rest)
      as Hrem.
    { unfold BinaryReader.remaining. simpl. by rewrite <- Hdrop, length_drop. }
    rewrite Hrem.
    assert ((length rest <? Z.to_nat MIN)%nat = true) as ->
      by (apply Nat.ltb_lt; unfold MIN; lia).
    by rewrite app_nil_r.
  - destruct fuel as [|fuel]; [lia|]. cbn [processPacket_loop].
    cbn [concat] in Hdrop, Hfuel. rewrite <- app_assoc in Hdrop, Hfuel.
    rewrite length_app in Hfuel.
    assert (BinaryReader.remaining (BinaryReader.mk buf pos)
            = (length f + length (concat frames ++ rest))%nat) as Hrem.
    { unfold BinaryReader.remaining. simpl.
      by rewrite <- length_drop, Hdrop, length_app. }
    rewrite Hrem.
    assert ((length f + length (concat frames ++ rest) <? Z.to_nat MIN)%nat
            = false) as -> by (apply Nat.ltb_ge; unfold MIN in *; lia).
    assert (BinaryReader.peekUInt32 (BinaryReader.mk buf pos)
            = Some (Z.of_nat (length f), BinaryReader.mk buf pos)) as ->.
    { unfold BinaryReader.peekUInt32, Buffer_readUInt32BE in *.
      cbn [BinaryReader.buffer BinaryReader.position]. rewrite Hdrop.
      rewrite drop_0 in Hlen.
      destruct f as [|b0 [|b1 [|b2 [|b3 f']]]]; try done.
      simpl in *. by injection Hlen as ->. }
    assert ((Z.of_nat (length f) <? MIN) || (Z.of_nat (length f) >? MAX)
            = false) as ->.
    { apply orb_false_intro; [apply Z.ltb_ge|rewrite Z.gtb_ltb; apply Z.ltb_ge];
        lia. }
    assert ((Z.of_nat (length f + length (concat frames ++ rest))
             <? Z.of_nat (length f)) = false) as -> by (apply Z.ltb_ge; lia).
    rewrite Nat2Z.id.
    assert (BinaryReader.readBytes (length f) (BinaryReader.mk buf pos)
            = Some (f, BinaryReader.mk buf (pos + length f))) as ->.
    { unfold BinaryReader.readBytes. rewrite Hrem.
      assert ((length f + length (concat frames ++ rest) <? length f)%nat
              = false) as -> by (apply Nat.ltb_ge; lia).
      cbn [BinaryReader.buffer BinaryReader.position]. rewrite Hdrop.
      by rewrite take_app_length. }
    assert (drop (pos + length f) buf = concat frames ++ rest) as Hdrop'.
    { rewrite <- drop_drop, Hdrop. by rewrite drop_app_length. }
    assert (length (concat frames ++ rest) < fuel)%nat as Hfuel'
      by (unfold MIN in *; lia).
    specialize (IH fuel (log ++ [f]) buf (pos + length f)%nat Hdrop' Hfuel').
    rewrite <- app_assoc in IH. cbn [app] in IH.
    destruct (routeOf zstd f) as [[|[nested|]|]|]; try done.
    by rewrite Hroute.
Qed.

(** X25.  [processPacket] hands the frames of a stream to the dispatcher in
    order and once each: on a buffer made of plain frames one after the
    other, followed by fewer than six bytes, the frames dispatched are
    exactly those frames; the bytes left over are dropped.  A plain frame
    has its length in the big-endian prefix, within [6, 1048576], holds no
    nested stream, and is handled without an exception: for a notification
    this asks that the cursor can read the 16 bytes of its head, and that
    the handler of its method, if one is called, returns. *)
Theorem processPacket_delivers_in_order
    (zstd : option (list byte → option (list byte)))
    (methodThrows : Z → list byte → bool) (frames : list (list byte))
    (rest : list byte) :
  Forall (plainFrame zstd methodThrows) frames →
  (length rest < 6)%nat →
  processPacket zstd methodThrows [] (concat frames ++ rest) = Some frames.
Proof.
  intros Hframes Hrest. unfold processPacket.
  by rewrite (processPacket_loop_frames zstd methodThrows rest frames Hrest
                Hframes _ [] (concat frames ++ rest) 0%nat)
    by (rewrite ?drop_0; first [done|lia]).
Qed.

Lemma processPacket_delivers_in_order_witness :
  processPacket None (λ _ _, true) []
    (concat [frame_other_service; frame_return; frame_other_service]
     ++ [x00; x01])
  = Some [frame_other_service; frame_return; frame_other_service].
Proof.
  apply (processPacket_delivers_in_order None (λ _ _, true)
           [frame_other_service; frame_return; frame_other_service]
           [x00; x01]).
  - repeat constructor; vm_compute; intuition discriminate.
  - simpl. lia.
Defined.

(** A notification too short for its head is not a plain frame: the handler
    throws, which ends the loop, so of two such frames in a row only the
    first is dispatched. *)
Example short_notify_ends_processPacket :
  handlerThrows None (λ _ _, false) frame16_be = true ∧
  processPacket None (λ _ _, false) [] (frame16_be ++ frame16_be)
  = Some [frame16_be].
Proof. split; reflexivity. Qed.

(* ===================================================================== *)
(** * What stays in the assembler's buffer *)
(* ===================================================================== *)

(** The identifier test throws only on a buffer that starts with the
    identifier and is cut short before its sixteenth byte. *)
Lemma hasHeader_None (buf : list byte) :
  hasHeader buf = None →
  (8 ≤ length buf < 16)%nat ∧
  Buffer_readUInt32LE buf 0 = Some STREAM_IDENTIFIER.
Proof.
  unfold hasHeader, doesStreamHaveIdentifier, BinaryReader.bind,
    BinaryReader.readUInt32LE, BinaryReader.readInt32,
    BinaryReader.setPosition, BinaryReader.ret, BinaryReader.advance,
    BinaryReader.remaining.
  cbn [BinaryReader.buffer BinaryReader.position]. rewrite Nat.sub_0_r.
  destruct (Nat.ltb_spec (length buf) 8) as [|H8]; [done|].
  destruct (Buffer_readUInt32LE buf 0) as [id|] eqn:Hid;
    cbn [mbind option_bind fmap option_fmap option_map].
  2:{ apply Buffer_readUInt32LE_None in Hid. lia. }
  cbn [BinaryReader.buffer BinaryReader.position].
  destruct (Buffer_readUInt32BE buf (0 + 4)) as [w1|] eqn:Hw1;
    cbn [mbind option_bind fmap option_fmap option_map].
  2:{ apply Buffer_readUInt32BE_None in Hw1. lia. }
  destruct (Z.eqb_spec id STREAM_IDENTIFIER) as [->|Hne]; cbn [negb];
    [|done].
  cbn [BinaryReader.buffer BinaryReader.position].
  destruct (Buffer_readUInt32BE buf (0 + 4 + 4)) as [w2|] eqn:Hw2;
    cbn [mbind option_bind fmap option_fmap option_map].
  2:{ apply Buffer_readUInt32BE_None in Hw2. intros _. split; [lia|done]. }
  cbn [BinaryReader.buffer BinaryReader.position].
  destruct (Buffer_readUInt32BE buf (0 + 4 + 4 + 4)) as [w3|] eqn:Hw3;
    cbn [mbind option_bind fmap option_fmap option_map]; [done|].
  apply Buffer_readUInt32BE_None in Hw3. intros _. split; [lia|done].
Qed.

Section Leftover.

Variable zstd : option (list byte → option (list byte)).

Lemma parseBuffer_fuel_leftover (fuel : nat) (a : Assembler) :
  (length (internalBuffer a) < fuel)%nat →
  match parseBuffer_fuel zstd fuel a with
  | Returned a' => (length (internalBuffer a') < 4)%nat
  | Thrown a' => hasHeader (internalBuffer a') = None
  | OutOfFuel => False
  end.
Proof.
  revert a. induction fuel as [|fuel IH]; intros a Hlen; [lia|].
  simpl. destruct (Nat.ltb_spec (length (internalBuffer a)) 4) as [|H4];
    [done|].
  pose proof (parseBuffer_turn_cases a) as Hturn.
  destruct (parseBuffer_turn a) as [a'|a'|a'|a' pkt]; [| | |done].
  - destruct Hturn as [_ ->]. apply IH. simpl. rewrite length_drop. lia.
  - destruct Hturn as [_ ->]. simpl. lia.
  - by destruct Hturn as [Hnone ->].
Qed.

(** X26.  What a call of [processDataChunk] with a chunk that is not
    empty leaves in the buffer.  If the call returns, fewer than four
    bytes are kept, so no part of a frame longer than that waits for the
    next chunk.  If it throws, the buffer kept starts with the stream
    identifier and holds 8 to 15 bytes: the identifier test ran off the
    end.  The model never runs out of fuel. *)
Theorem processDataChunk_leftover (a : Assembler) (chunk : list byte) :
  chunk ≠ [] →
  match processDataChunk zstd a chunk with
  | Returned a' => (length (internalBuffer a') < 4)%nat
  | Thrown a' =>
      (8 ≤ length (internalBuffer a') < 16)%nat ∧
      Buffer_readUInt32LE (internalBuffer a') 0 = Some STREAM_IDENTIFIER
  | OutOfFuel => False
  end.
Proof.
  intros Hchunk. unfold processDataChunk.
  destruct chunk as [|b chunk]; [done|]. unfold parseBuffer.
  pose proof (parseBuffer_fuel_leftover
                (S (length (internalBuffer
                      (setBuffer (internalBuffer a ++ b :: chunk) a))))
                (setBuffer (internalBuffer a ++ b :: chunk) a)
                ltac:(lia)) as H.
  destruct (parseBuffer_fuel _ _ _) as [a'|a'|]; [done| |done].
  by apply hasHeader_None.
Qed.

End Leftover.

Lemma processDataChunk_leftover_witness :
  match processDataChunk None (mkAssembler [] [])
          (take 9 buffer_with_identifier) with
  | Returned a' => (length (internalBuffer a') < 4)%nat
  | Thrown a' =>
      (8 ≤ length (internalBuffer a') < 16)%nat ∧
      Buffer_readUInt32LE (internalBuffer a') 0 = Some STREAM_IDENTIFIER
  | OutOfFuel => False
  end.
Proof.
  apply (processDataChunk_leftover None (mkAssembler [] [])
           (take 9 buffer_with_identifier)).
  discriminate.
Defined.

(* ===================================================================== *)
(** * The module optimizer *)
(* ===================================================================== *)

Lemma toLevel_from_bounds (i : Z) (thresholds : list Z) (value level : Z) :
  level ≤ i →
  level ≤ ModuleOptimizer.toLevel_from i thresholds value level
        ≤ i + Z.of_nat (length thresholds).
Proof.
  revert i level. induction thresholds as [|t rest IH]; intros i level Hle;
    simpl; [lia|].
  destruct (value >=? t); [|lia].
  specialize (IH (i + 1) (i + 1) ltac:(lia)). lia.
Qed.

Lemma toLevel_from_mono (i : Z) (thresholds : list Z)
    (value value' level level' : Z) :
  level ≤ level' ≤ i → value ≤ value' →
  ModuleOptimizer.toLevel_from i thresholds value level
  ≤ ModuleOptimizer.toLevel_from i thresholds value' level'.
Proof.
  revert i level level'.
  induction thresholds as [|t rest IH]; intros i level level' Hle Hv;
    simpl; [lia|].
  destruct (Z.geb_spec value t), (Z.geb_spec value' t); try lia.
  - apply IH; lia.
  - pose proof (toLevel_from_bounds (i + 1) rest value' (i + 1) ltac:(lia)).
    lia.
Qed.

(** X27.  [toLevel] counts the thresholds a value reaches before the first
    it misses.  For any list of thresholds the level lies between 0 and the
    number of thresholds, and a larger value never has a smaller level; with
    the default thresholds 1, 4, 8, 12, 16, 20 the level is at least [k]
    exactly when the value reaches the [k]-th of them. *)
Theorem toLevel_counts_thresholds (thresholds : list Z) (value value' : Z) :
  0 ≤ ModuleOptimizer.toLevel thresholds value ≤ Z.of_nat (length thresholds)
  ∧ (value ≤ value' →
     ModuleOptimizer.toLevel thresholds value
     ≤ ModuleOptimizer.toLevel thresholds value')
  ∧ ∀ k t, ModuleOptimizer.attrThresholds !! k = Some t →
           (Z.of_nat (S k)
            ≤ ModuleOptimizer.toLevel ModuleOptimizer.attrThresholds value
            ↔ t ≤ value).
Proof.
  split; [|split].
  - apply (toLevel_from_bounds 0 thresholds value 0). lia.
  - intros Hv. apply toLevel_from_mono; lia.
  - intros k t Hk. unfold ModuleOptimizer.toLevel,
      ModuleOptimizer.attrThresholds in *. simpl.
    repeat (destruct k as [|k];
            [ injection Hk as <-;
              repeat (match goal with
                      | |- context [?a >=? ?b] => destruct (Z.geb_spec a b)
                      end); lia
            | simpl in Hk ]).
    done.
Qed.

Lemma toLevel_counts_thresholds_witness :
  ModuleOptimizer.toLevel ModuleOptimizer.attrThresholds 7
  ≤ ModuleOptimizer.toLevel ModuleOptimizer.attrThresholds 8.
Proof.
  apply (toLevel_counts_thresholds ModuleOptimizer.attrThresholds 7 8). lia.
Defined.

Lemma foldl_insert_seqZ_lookup (f : Z → Z) (m : gmap Z Z) (a : Z) (n : nat)
    (k : Z) :
  foldl (λ map i, <[i := f i]> map) m (seqZ a (Z.of_nat n)) !! k
  = if bool_decide (a ≤ k < a + Z.of_nat n) then Some (f k) else m !! k.
Proof.
  revert m a. induction n as [|n IH]; intros m a.
  { simpl. rewrite bool_decide_false by lia. done. }
  rewrite Nat2Z.inj_succ, seqZ_cons by lia. cbn [foldl].
  replace (Z.pred (Z.succ (Z.of_nat n))) with (Z.of_nat n) by lia.
  rewrite IH. repeat case_bool_decide; try lia; try done.
  - assert (k = a) as -> by lia. by rewrite lookup_insert_eq.
  - rewrite lookup_insert_ne by lia. done.
Qed.

(** X28.  The table of [_buildTotalAttrPowerMap] in closed form.  The power
    of a total of attribute points is [5 + 6 (v - 1)] up to 18 points and
    [104 + 6 (v - 18)] from 19 to 120; it grows with the total over that
    range; a total above 120 is not in the table and is worth 0. *)
Theorem totalAttrPower_table (v w : Z) :
  ModuleOptimizer.totalAttrPower v
  = (if bool_decide (1 ≤ v ≤ 18) then 5 + (v - 1) * 6
     else if bool_decide (19 ≤ v ≤ 120) then 104 + (v - 18) * 6
     else 0)
  ∧ (0 ≤ v < w → w ≤ 120 →
     ModuleOptimizer.totalAttrPower v < ModuleOptimizer.totalAttrPower w)
  ∧ (120 < v → ModuleOptimizer.totalAttrPower v = 0).
Proof.
  assert (∀ x, ModuleOptimizer.totalAttrPower x
               = (if bool_decide (1 ≤ x ≤ 18) then 5 + (x - 1) * 6
                  else if bool_decide (19 ≤ x ≤ 120) then 104 + (x - 18) * 6
                  else 0)) as Htable.
  { intros x.
    unfold ModuleOptimizer.totalAttrPower,
      ModuleOptimizer._buildTotalAttrPowerMap.
    rewrite (foldl_insert_seqZ_lookup
               (λ i, if i <=? 18 then 5 + (i - 1) * 6 else 104 + (i - 18) * 6)
               {[ 0 := 0 ]} 1 120 x).
    repeat case_bool_decide; try lia.
    - destruct (Z.leb_spec x 18); [done|lia].
    - destruct (Z.leb_spec x 18); [lia|done].
    - destruct (decide (x = 0)) as [->|Hx]; [done|].
      by rewrite lookup_singleton_ne. }
  split; [apply Htable|]. split.
  - intros Hvw Hw. rewrite !Htable. repeat case_bool_decide; lia.
  - intros Hv. rewrite Htable. repeat case_bool_decide; lia.
Qed.

Lemma totalAttrPower_table_witness :
  ModuleOptimizer.totalAttrPower 18 < ModuleOptimizer.totalAttrPower 19
  ∧ ModuleOptimizer.totalAttrPower 121 = 0.
Proof.
  destruct (totalAttrPower_table 18 19) as (_ & Hgrow & _).
  destruct (totalAttrPower_table 121 0) as (_ & _ & Hout).
  split; [apply Hgrow; lia|apply Hout; lia].
Defined.

(* ===================================================================== *)
(** * Damage on a target that is not a player *)
(* ===================================================================== *)

Lemma addDamage_userStats (now uid uid' skillId : Z) (el : DamageElement)
    (v : Z) (c l cl : bool) (hpLessen targetUid : Z) (st : Store) :
  userStats uid' (addDamage now uid skillId el v c l cl hpLessen targetUid st)
  = if IS_PAUSED (config st) ||
       (onlyRecordEliteDummy (config st) && negb (targetUid =? 75))
    then userStats uid' st
    else if decide (uid' = uid)
         then statsOf (UserData.addDamage now skillId el v c l cl hpLessen
                         (getUser now uid st).2)
         else userStats uid' st.
Proof.
  unfold addDamage. destruct (IS_PAUSED (config st)); [done|]. simpl.
  destruct (onlyRecordEliteDummy (config st) && negb (targetUid =? 75));
    [done|].
  apply withUser_userStats.
Qed.

Lemma deleteEnemyData_userStats (id uid : Z) (st : Store) :
  userStats uid (deleteEnemyData id st) = userStats uid st.
Proof. by apply userStats_ext. Qed.

Section DamageCredit.

Variable EDamageType_Heal : option Z.

(** X29.  Damage on a target that is not a player is booked on the
    attacking player, and a summon's damage on its summoner: the attacker
    is [TopSummonerId] when the entry has one, else [AttackerUuid].  With
    the meter running, an entry that is not skipped and not a heal adds
    its value to the damage dealt by that player and changes the
    statistics of nobody else; when only the elite dummy is recorded and
    the target is another one (its uid is not 75), nothing is booked. *)
Theorem damage_booked_on_attacker (now targetUid : Z) (d : SkillDamage)
    (st : Store) :
  skipped d = false →
  isHeal EDamageType_Heal d = false →
  let attackerUuid := default (default 0 (AttackerUuid d))
                        (TopSummonerId d) in
  isUuidPlayer attackerUuid = true →
  IS_PAUSED (config st) = false →
  let attacker := uuidToUid attackerUuid in
  let st' := processDamage EDamageType_Heal now false targetUid st d in
  if onlyRecordEliteDummy (config st) && negb (targetUid =? 75)
  then ∀ uid, userStats uid st' = userStats uid st
  else damageDealt attacker st' = damageDealt attacker st + magnitude d
       ∧ ∀ uid, uid ≠ attacker → userStats uid st' = userStats uid st.
Proof.
  intros Hskip Hheal attackerUuid Hplayer Hrun attacker st'.
  assert (default 0 (attackerOf d) = attackerUuid) as Hatt.
  { subst attackerUuid. unfold attackerOf.
    by destruct (TopSummonerId d). }
  assert (∀ uid, userStats uid st'
                 = userStats uid
                     (addDamage now attacker (OwnerId d)
                        (getDamageElement (Property d)) (magnitude d)
                        (isCrit d) (isLucky d) (isCauseLucky d)
                        (default 0 (HpLessenValue d)) targetUid st))
    as Hstats.
  { intros uid. subst st'. unfold processDamage. rewrite Hskip.
    rewrite logEvent_userStats. unfold creditEvent. cbv zeta.
    rewrite Hheal, Hatt, Hplayer. cbn [negb andb].
    destruct (IsDead d); [apply deleteEnemyData_userStats|done]. }
  destruct (onlyRecordEliteDummy (config st) && negb (targetUid =? 75))
    eqn:Hdummy.
  - intros uid. rewrite Hstats, addDamage_userStats, Hrun, Hdummy. done.
  - split.
    + erewrite (userStats_damageDealt attacker st').
      2:{ rewrite Hstats, addDamage_userStats, Hrun, Hdummy.
          cbn [orb]. rewrite decide_True by done. reflexivity. }
      destruct (feedEvent_totals now
                  (DamageEvent (OwnerId d) (getDamageElement (Property d))
                     (magnitude d) (isCrit d) (isLucky d) (isCauseLucky d)
                     (default 0 (HpLessenValue d)))
                  (getUser now attacker st).2) as (Hd & _).
      cbn [feedEvent damageOf] in Hd. rewrite Hd. f_equal.
      symmetry. apply userStats_damageDealt.
      by destruct (getUser_userStats now attacker attacker st) as [_ ->].
    + intros uid Hne. rewrite Hstats, addDamage_userStats, Hrun, Hdummy.
      cbn [orb]. by rewrite decide_False.
Qed.

End DamageCredit.

Lemma damage_booked_on_attacker_witness :
  let summoned := mkSkillDamage 1241 (Some player9) (Some monster9)
                    (Some 250) None (Some 1) (Some 0) false None None None in
  let st' := processDamage (Some 2) 5 false 3 store0 summoned in
  damageDealt 9 st' = damageDealt 9 store0 + 250
  ∧ ∀ uid, uid ≠ 9 → userStats uid st' = userStats uid store0.
Proof.
  apply (damage_booked_on_attacker (Some 2) 5 3
           (mkSkillDamage 1241 (Some player9) (Some monster9)
              (Some 250) None (Some 1) (Some 0) false None None None)
           store0);
    reflexivity.
Defined.

(* ===================================================================== *)
(** * Skill details of a retired user *)
(* ===================================================================== *)

(** X30.  [getUserSkillData] looks in the live map only.  It answers
    exactly for the uids that are live; for a retired user it finds
    nothing, although [getAllUsersData] still lists that user. *)
Theorem getUserSkillData_live_only (skillConfig : Z → option string)
    (uid : Z) (st : Store) :
  (is_Some (getUserSkillData skillConfig uid st) ↔ is_Some (users st !! uid))
  ∧ ∀ u, users st !! uid = None → userGraveyard st !! uid = Some u →
         getUserSkillData skillConfig uid st = None ∧
         getAllUsersData st !! uid = Some (UserData.getSummary u).
Proof.
  split.
  - unfold getUserSkillData. destruct (users st !! uid); split;
      intros [? ?]; by eauto.
  - intros u Hlive Hgrave. split.
    + unfold getUserSkillData. by rewrite Hlive.
    + rewrite getAllUsersData_lookup. unfold _getAnyUser.
      by rewrite Hlive, Hgrave.
Qed.

Lemma getUserSkillData_live_only_witness :
  let st := cleanUpInactiveUsers 70000 (epoch_with 6000) in
  getUserSkillData (λ _, None) 7 st = None ∧
  is_Some (getAllUsersData st !! 7).
Proof.
  destruct (getUserSkillData_live_only (λ _, None) 7
              (cleanUpInactiveUsers 70000 (epoch_with 6000))) as [_ H].
  destruct (H (UserData.addDamage 1 1241 Water 6000 false false false 0
                 (UserData.new 0 7)) eq_refl eq_refl) as [Hnone Hsum].
  split; [exact Hnone|]. rewrite Hsum. by eexists.
Defined.
